(** * pdfcpu: optimizer and writer core, embedded in Rocq

    A shallow embedding of the parts of [pkg/pdfcpu/optimize.go],
    [pkg/pdfcpu/write.go] and the stream-dict source file (object streams and
    xref streams) that the specification's properties talk about.

    Conventions of the embedding.
    - Go [int] and [int64] values are [Z]; none of the embedded code does
      arithmetic that could wrap around.
    - A Go [map] is a [gmap]; [map[int]bool] (pdfcpu's [IntSet]) is
      [gmap Z bool], whose lookup of an absent key reads as [false].
    - A pointer-typed struct field is an [option]; dereferencing [None]
      panics.  A panic is the [None] outcome of a function returning [option].
      Receivers, pointer parameters and the [Configuration], [XRefTable] and
      [Write] components of the context are taken to be non-nil, and maps to
      be allocated, except for the page sets, which the source tests.
    - A Go [error] result is an [option error] ([None] is [nil]).
    - A [range] over a Go map visits the keys in an unspecified order; the
      embedded loop takes the order of the visit as an argument.
    - Functions of the repository whose source is not part of the embedded
      files are members of the [Collaborators] class or section variables, or
      are modelled from the specification, which is stated at the
      definition. *)

From Stdlib Require Import ZArith Ascii String List DecimalString Lia.
From stdpp Require Import gmap strings list fin_maps sorting.
From Equations Require Import Equations.
From Stdlib Require DecimalFacts DecimalPos.

#[local] Set Warnings "-register-all".
#[local] Open Scope string_scope.
#[local] Open Scope list_scope.
#[local] Open Scope Z_scope.

(** ** Go runtime helpers *)

(** [%d] of [fmt.Sprintf]. *)
Definition itoa (z : Z) : string := NilZero.string_of_int (Z.to_int z).

(** The double quote inside a Go string literal. *)
Definition dquote : string := String (ascii_of_nat 34) EmptyString.

#[global] Instance byte_eq_dec : EqDecision Byte.byte.
Proof.
  intros a b. destruct (Byte.eqb a b) eqn:Heq.
  - left. by apply Byte.byte_dec_bl.
  - right. intros ->. by rewrite Byte.byte_dec_lb in Heq.
Defined.

(** [[]byte(s)]. *)
Definition bytes_of (s : string) : list Byte.byte := list_byte_of_string s.

(** [strings.Index(s, "+")] counted from position [k]: the index of the first
    byte of [s] that is [c], or [-1]. *)
Fixpoint index_from (c : Ascii.ascii) (k : Z) (s : string) : Z :=
  match s with
  | EmptyString => -1
  | String a s' => if Ascii.eqb a c then k else index_from c (k + 1) s'
  end.

Definition strings_Index_byte (s : string) (c : Ascii.ascii) : Z := index_from c 0 s.

(** The slices [s[:i]] and [s[i:]] of a string, for [0 <= i <= len(s)]. *)
Definition slice_to (s : string) (i : Z) : string := String.substring 0 (Z.to_nat i) s.
Definition slice_from (s : string) (i : Z) : string :=
  String.substring (Z.to_nat i) (String.length s - Z.to_nat i) s.

(** ** Object model *)

(** [PDFFilter] and [StreamDict] (stream-dict source file), over the type of
    objects, which they are nested in. *)
Record PDFFilterOf (O : Type) : Type := mkPDFFilter {
  filter_Name : string;
  DecodeParms : option (gmap string O)
}.
Arguments mkPDFFilter {O}.
Arguments filter_Name {O}.
Arguments DecodeParms {O}.

Record StreamDictOf (O : Type) : Type := mkStreamDict {
  sd_Dict : gmap string O;
  StreamOffset : Z;
  StreamLength : option Z;
  StreamLengthObjNr : option Z;
  FilterPipeline : list (PDFFilterOf O);
  Raw : list Byte.byte;
  Content : list Byte.byte;
  IsPageContent : bool
}.
Arguments mkStreamDict {O}.
Arguments sd_Dict {O}.
Arguments StreamOffset {O}.
Arguments StreamLength {O}.
Arguments StreamLengthObjNr {O}.
Arguments FilterPipeline {O}.
Arguments Raw {O}.
Arguments Content {O}.
Arguments IsPageContent {O}.

(** The dynamic type of a Go [Object] interface value.  [oNil] is the nil
    interface; [oFloat] carries the bits of the [float64], which no embedded
    function inspects. *)
Inductive Object : Type :=
| oNil
| oBoolean (b : bool)
| oInteger (z : Z)
| oFloat (bits : Z)
| oName (s : string)
| oStringLiteral (s : string)
| oHexLiteral (s : string)
| oArray (a : list Object)
| oDict (d : gmap string Object)
| oStreamDict (sd : StreamDictOf Object)
| oIndirectRef (ObjectNumber GenerationNumber : Z).

Abbreviation Dict := (gmap string Object).
Abbreviation Array := (list Object).
Abbreviation StreamDict := (StreamDictOf Object).
Abbreviation PDFFilter := (PDFFilterOf Object).
Abbreviation IntSet := (gmap Z bool).

(** Reading an [IntSet]: [set[i]] is [false] for an absent key. *)
Definition intset_get (s : IntSet) (i : Z) : bool := default false (s !! i).

Record IndirectRef : Type := mkIndirectRef {
  ObjectNumber : Z;
  GenerationNumber : Z
}.

Definition NewIndirectRef (objectNumber generationNumber : Z) : IndirectRef :=
  mkIndirectRef objectNumber generationNumber.

Definition obj_of_ref (r : IndirectRef) : Object :=
  oIndirectRef (ObjectNumber r) (GenerationNumber r).

(** An [error] value: the format string of [errors.New]/[errors.Errorf] as it
    is written in the source, with its arguments left unrendered. *)
Inductive error : Type :=
| Errorf (format : string) (args : list fmtarg)
with fmtarg : Type :=
| ArgInt (z : Z)
| ArgStr (s : string)
| ArgObj (o : Object)
| ArgErr (e : error).

Definition errors_New (msg : string) : error := Errorf msg [].

(** [XRefTableEntry]: the fields the embedded functions read or write. *)
Record XRefTableEntry : Type := mkEntry {
  Free : bool;
  Offset : option Z;
  Generation : option Z;
  entry_Object : Object;
  Compressed : bool;
  ObjectStream : option Z;
  ObjectStreamInd : option Z
}.

(** ** Object streams (stream-dict source file) *)

Record ObjectStreamDict : Type := mkObjectStreamDict {
  os_StreamDict : StreamDict;
  Prolog : list Byte.byte;
  ObjCount : Z;
  FirstObjOffset : Z;
  ObjArray : option Array
}.

Definition set_Content (sd : StreamDict) (c : list Byte.byte) : StreamDict :=
  mkStreamDict (sd_Dict sd) (StreamOffset sd) (StreamLength sd) (StreamLengthObjNr sd)
    (FilterPipeline sd) (Raw sd) c (IsPageContent sd).

Section ObjectStream.

(** [PDFString()] of the object model, whose source is not embedded. *)
Variable PDFString : Object -> string.

(** [AddObject]: the prolog is extended first, then the variant of the
    object decides between appending its serialization and the error. *)
Definition AddObject (oStreamDict : ObjectStreamDict) (objNumber : Z)
    (entry : XRefTableEntry) : ObjectStreamDict * option error :=
  let offset := Z.of_nat (length (Content (os_StreamDict oStreamDict))) in
  let s := if 0 <? ObjCount oStreamDict then " " else "" in
  let s := s +:+ itoa objNumber +:+ " " +:+ itoa offset in
  let prolog := Prolog oStreamDict ++ bytes_of s in
  let extended :=
    mkObjectStreamDict (os_StreamDict oStreamDict) prolog (ObjCount oStreamDict)
      (FirstObjOffset oStreamDict) (ObjArray oStreamDict) in
  let add (pdfString : string) :=
    (mkObjectStreamDict
       (set_Content (os_StreamDict oStreamDict)
          (Content (os_StreamDict oStreamDict) ++ bytes_of pdfString))
       prolog (ObjCount oStreamDict + 1)
       (FirstObjOffset oStreamDict) (ObjArray oStreamDict), None) in
  match entry_Object entry with
  | oDict _ | oArray _ | oInteger _ | oFloat _ | oStringLiteral _
  | oHexLiteral _ | oBoolean _ | oName _ => add (PDFString (entry_Object entry))
  | _ => (extended,
          Some (Errorf "AddObject: undefined PDF object #%d\n" [ArgInt objNumber]))
  end.

(** [Finalize]. *)
Definition Finalize (oStreamDict : ObjectStreamDict) : ObjectStreamDict :=
  mkObjectStreamDict
    (set_Content (os_StreamDict oStreamDict)
       (Prolog oStreamDict ++ Content (os_StreamDict oStreamDict)))
    (Prolog oStreamDict) (ObjCount oStreamDict)
    (Z.of_nat (length (Prolog oStreamDict))) (ObjArray oStreamDict).

End ObjectStream.

(** ** The context

    The declarations of these structs are not among the embedded files: each
    record has the fields that the embedded functions read or write, typed as
    they are used there. *)

(** Modelled from the spec: the command mode, with the values that the
    specification enumerates. *)
Inductive CommandMode : Type :=
| READ | OPTIMIZE | ENCRYPT | DECRYPT | ADDPERMISSIONS | CHANGEPASSWORDS.

#[global] Instance CommandMode_eq_dec : EqDecision CommandMode.
Proof. solve_decision. Defined.

(** [Enc], the encryption parameters kept in [ctx.E]: the fields that
    [setupEncryption] and [updateEncryption] assign. *)
Record Enc : Type := mkEnc {
  enc_ID : list Byte.byte;
  enc_O : list Byte.byte;
  enc_U : list Byte.byte;
  enc_P : Z
}.

Record Configuration : Type := mkConfiguration {
  Mode : CommandMode;
  WriteObjectStream : bool;
  WriteXRefStream : bool;
  UserPW : string;
  UserPWNew : option string;
  OwnerPW : string;
  OwnerPWNew : option string;
  EncryptUsingAES : bool;
  EncryptUsing128BitKey : bool;
  UserAccessPermissions : Z
}.

Record XRefTable : Type := mkXRefTable {
  Table : gmap Z XRefTableEntry;
  Size : option Z;
  PageCount : Z;
  Root : option IndirectRef;
  Info : option IndirectRef;
  ID : option Array;
  Encrypt : option IndirectRef;
  E : option Enc;
  EncKey : option (list Byte.byte);
  OffsetPrimaryHintTable : option Z;
  OffsetOverflowHintTable : option Z;
  LinearizationObjs : IntSet;
  Optimized : bool
}.

Record ReadContext : Type := mkReadContext {
  UsingXRefStreams : bool;
  Linearized : bool;
  ObjectStreams : IntSet;
  XRefStreams : IntSet
}.

Record FontObject : Type := mkFontObject {
  font_ResourceNames : list string;
  Prefix : string;
  FontName : string;
  FontDict : Dict
}.

Record ImageObject : Type := mkImageObject {
  image_ResourceNames : list string;
  ImageDict : StreamDict
}.

(** [PageFonts] and [PageImages] are slices of maps; an element is [None]
    while its map is nil. *)
Record OptimizationContext : Type := mkOptimizationContext {
  PageFonts : list (option IntSet);
  FontObjects : gmap Z FontObject;
  Fonts : gmap string (list Z);
  PageImages : list (option IntSet);
  ImageObjects : gmap Z ImageObject;
  DuplicateFontObjs : IntSet;
  DuplicateImageObjs : IntSet;
  DuplicateInfoObjects : IntSet;
  DuplicateFonts : gmap Z Dict;
  DuplicateImages : gmap Z StreamDict
}.

Record WriteContext : Type := mkWriteContext {
  write_Offset : Z;
  write_Table : gmap Z Z;
  ExtractPageNr : Z
}.

Record Context : Type := mkContext {
  ctx_Configuration : Configuration;
  ctx_XRefTable : XRefTable;
  Read : option ReadContext;
  Optimize : option OptimizationContext;
  Write : WriteContext
}.

(** *** Field updates *)

Definition with_XRefTable (ctx : Context) (x : XRefTable) : Context :=
  mkContext (ctx_Configuration ctx) x (Read ctx) (Optimize ctx) (Write ctx).

Definition with_Configuration (ctx : Context) (c : Configuration) : Context :=
  mkContext c (ctx_XRefTable ctx) (Read ctx) (Optimize ctx) (Write ctx).

Definition with_Optimize (ctx : Context) (o : OptimizationContext) : Context :=
  mkContext (ctx_Configuration ctx) (ctx_XRefTable ctx) (Read ctx) (Some o) (Write ctx).

Definition with_Table (x : XRefTable) (t : gmap Z XRefTableEntry) : XRefTable :=
  mkXRefTable t (Size x) (PageCount x) (Root x) (Info x) (ID x) (Encrypt x) (E x)
    (EncKey x) (OffsetPrimaryHintTable x) (OffsetOverflowHintTable x) (LinearizationObjs x)
    (Optimized x).

Definition with_PageCount (x : XRefTable) (n : Z) : XRefTable :=
  mkXRefTable (Table x) (Size x) n (Root x) (Info x) (ID x) (Encrypt x) (E x)
    (EncKey x) (OffsetPrimaryHintTable x) (OffsetOverflowHintTable x) (LinearizationObjs x)
    (Optimized x).

Definition with_ID (x : XRefTable) (id : option Array) : XRefTable :=
  mkXRefTable (Table x) (Size x) (PageCount x) (Root x) (Info x) id (Encrypt x) (E x)
    (EncKey x) (OffsetPrimaryHintTable x) (OffsetOverflowHintTable x) (LinearizationObjs x)
    (Optimized x).

Definition with_Encrypt (x : XRefTable) (r : option IndirectRef) : XRefTable :=
  mkXRefTable (Table x) (Size x) (PageCount x) (Root x) (Info x) (ID x) r (E x)
    (EncKey x) (OffsetPrimaryHintTable x) (OffsetOverflowHintTable x) (LinearizationObjs x)
    (Optimized x).

Definition with_E (x : XRefTable) (e : option Enc) : XRefTable :=
  mkXRefTable (Table x) (Size x) (PageCount x) (Root x) (Info x) (ID x) (Encrypt x) e
    (EncKey x) (OffsetPrimaryHintTable x) (OffsetOverflowHintTable x) (LinearizationObjs x)
    (Optimized x).

Definition with_EncKey (x : XRefTable) (k : option (list Byte.byte)) : XRefTable :=
  mkXRefTable (Table x) (Size x) (PageCount x) (Root x) (Info x) (ID x) (Encrypt x) (E x)
    k (OffsetPrimaryHintTable x) (OffsetOverflowHintTable x) (LinearizationObjs x)
    (Optimized x).

Definition with_LinearizationObjs (x : XRefTable) (s : IntSet) : XRefTable :=
  mkXRefTable (Table x) (Size x) (PageCount x) (Root x) (Info x) (ID x) (Encrypt x) (E x)
    (EncKey x) (OffsetPrimaryHintTable x) (OffsetOverflowHintTable x) s
    (Optimized x).

Definition with_Optimized (x : XRefTable) (b : bool) : XRefTable :=
  mkXRefTable (Table x) (Size x) (PageCount x) (Root x) (Info x) (ID x) (Encrypt x) (E x)
    (EncKey x) (OffsetPrimaryHintTable x) (OffsetOverflowHintTable x) (LinearizationObjs x)
    b.

Definition with_PageFonts (o : OptimizationContext) (p : list (option IntSet)) :=
  mkOptimizationContext p (FontObjects o) (Fonts o) (PageImages o) (ImageObjects o)
    (DuplicateFontObjs o) (DuplicateImageObjs o) (DuplicateInfoObjects o)
    (DuplicateFonts o) (DuplicateImages o).

Definition with_FontObjects (o : OptimizationContext) (m : gmap Z FontObject) :=
  mkOptimizationContext (PageFonts o) m (Fonts o) (PageImages o) (ImageObjects o)
    (DuplicateFontObjs o) (DuplicateImageObjs o) (DuplicateInfoObjects o)
    (DuplicateFonts o) (DuplicateImages o).

Definition with_Fonts (o : OptimizationContext) (m : gmap string (list Z)) :=
  mkOptimizationContext (PageFonts o) (FontObjects o) m (PageImages o) (ImageObjects o)
    (DuplicateFontObjs o) (DuplicateImageObjs o) (DuplicateInfoObjects o)
    (DuplicateFonts o) (DuplicateImages o).

Definition with_PageImages (o : OptimizationContext) (p : list (option IntSet)) :=
  mkOptimizationContext (PageFonts o) (FontObjects o) (Fonts o) p (ImageObjects o)
    (DuplicateFontObjs o) (DuplicateImageObjs o) (DuplicateInfoObjects o)
    (DuplicateFonts o) (DuplicateImages o).

Definition with_ImageObjects (o : OptimizationContext) (m : gmap Z ImageObject) :=
  mkOptimizationContext (PageFonts o) (FontObjects o) (Fonts o) (PageImages o) m
    (DuplicateFontObjs o) (DuplicateImageObjs o) (DuplicateInfoObjects o)
    (DuplicateFonts o) (DuplicateImages o).

Definition with_DuplicateObjs (o : OptimizationContext) (f i n : IntSet) :=
  mkOptimizationContext (PageFonts o) (FontObjects o) (Fonts o) (PageImages o)
    (ImageObjects o) f i n (DuplicateFonts o) (DuplicateImages o).

Definition with_DuplicateFonts (o : OptimizationContext) (m : gmap Z Dict) :=
  mkOptimizationContext (PageFonts o) (FontObjects o) (Fonts o) (PageImages o)
    (ImageObjects o) (DuplicateFontObjs o) (DuplicateImageObjs o)
    (DuplicateInfoObjects o) m (DuplicateImages o).

Definition with_DuplicateImages (o : OptimizationContext) (m : gmap Z StreamDict) :=
  mkOptimizationContext (PageFonts o) (FontObjects o) (Fonts o) (PageImages o)
    (ImageObjects o) (DuplicateFontObjs o) (DuplicateImageObjs o)
    (DuplicateInfoObjects o) (DuplicateFonts o) m.

Definition with_write_flags (c : Configuration) (objectStream xRefStream : bool) :=
  mkConfiguration (Mode c) objectStream xRefStream (UserPW c) (UserPWNew c)
    (OwnerPW c) (OwnerPWNew c) (EncryptUsingAES c) (EncryptUsing128BitKey c)
    (UserAccessPermissions c).

Definition with_passwords (c : Configuration) (userPW ownerPW : string) :=
  mkConfiguration (Mode c) (WriteObjectStream c) (WriteXRefStream c) userPW (UserPWNew c)
    ownerPW (OwnerPWNew c) (EncryptUsingAES c) (EncryptUsing128BitKey c)
    (UserAccessPermissions c).

(** *** Object-model and xref-table primitives

    Modelled from the spec: the dictionary primitives and the xref-table
    operations [Find], [HasWriteOffset] and [DeleteObject], whose sources are
    not among the embedded files. *)

(** Modelled from the spec: [Dict.Find], the lookup of a key. *)
Definition Dict_Find (d : Dict) (key : string) : option Object := d !! key.

(** Modelled from the spec: [Dict.Insert] adds an entry for a key the
    dictionary does not have yet. *)
Definition Dict_Insert (d : Dict) (key : string) (value : Object) : Dict :=
  match d !! key with
  | Some _ => d
  | None => <[key := value]> d
  end.

(** Modelled from the spec: [Dict.Update] sets the entry of a key. *)
Definition Dict_Update (d : Dict) (key : string) (value : Object) : Dict :=
  <[key := value]> d.

(** Modelled from the spec: [Dict.NameEntry], the value of a key when it is a
    name; [Type()] and [Subtype()] are the name entries of those keys. *)
Definition NameEntry (d : Dict) (key : string) : option string :=
  match d !! key with
  | Some (oName s) => Some s
  | _ => None
  end.

Definition Dict_Type (d : Dict) : option string := NameEntry d "Type".
Definition Dict_Subtype (d : Dict) : option string := NameEntry d "Subtype".

(** Modelled from the spec: [Dict.IntEntry], the value of a key when it is an
    integer. *)
Definition IntEntry (d : Dict) (key : string) : option Z :=
  match d !! key with
  | Some (oInteger n) => Some n
  | _ => None
  end.

(** Modelled from the spec: [Find(objNr) -> Entry?], the lookup in the table. *)
Definition Find (x : XRefTable) (objNr : Z) : option XRefTableEntry := Table x !! objNr.

(** Modelled from the spec: [table[n]] is defined iff object [n] has been
    written to the body. *)
Definition HasWriteOffset (w : WriteContext) (objNr : Z) : bool :=
  bool_decide (is_Some (write_Table w !! objNr)).

(** Modelled from the spec: [DeleteObject(objNr)] converts the entry to Free
    and splices it into the free list at its head.  The free list is rooted at
    object 0; without a free head entry, and for an entry that is missing or
    already free, nothing changes. *)
Definition DeleteObject (objNr : Z) (x : XRefTable) : XRefTable :=
  match Table x !! 0, Table x !! objNr with
  | Some head, Some entry =>
      if Free head && negb (Free entry) then
        let freed := mkEntry true (Offset head) (Generation entry) oNil false
                       (ObjectStream entry) (ObjectStreamInd entry) in
        let head' := mkEntry (Free head) (Some objNr) (Generation head)
                       (entry_Object head) (Compressed head)
                       (ObjectStream head) (ObjectStreamInd head) in
        with_Table x (<[0 := head']> (<[objNr := freed]> (Table x)))
      else x
  | _, _ => x
  end.

(** Modelled from the spec: the membership tests of the optimizer's duplicate
    sets, of the linearization objects, and of the object-stream and
    xref-stream objects recorded from the input. *)
Definition IsDuplicateFontObject (o : OptimizationContext) (i : Z) : bool :=
  intset_get (DuplicateFontObjs o) i.
Definition IsDuplicateImageObject (o : OptimizationContext) (i : Z) : bool :=
  intset_get (DuplicateImageObjs o) i.
Definition IsDuplicateInfoObject (o : OptimizationContext) (i : Z) : bool :=
  intset_get (DuplicateInfoObjects o) i.
Definition IsLinearizationObject (x : XRefTable) (i : Z) : bool :=
  intset_get (LinearizationObjs x) i.
Definition IsObjectStreamObject (r : ReadContext) (i : Z) : bool :=
  intset_get (ObjectStreams r) i.
Definition IsXRefStreamObject (r : ReadContext) (i : Z) : bool :=
  intset_get (XRefStreams r) i.

(** Modelled from the spec: [AddResourceName] adds a resource name to the
    set of names of a font or image object. *)
Definition AddResourceName (names : list string) (resourceName : string) : list string :=
  if bool_decide (resourceName ∈ names) then names else names ++ [resourceName].

(** ** Collaborators

    The functions the embedded code consumes through a narrow interface:
    structural equality, dereferencing, the free-list operations of the xref
    table, the encryption primitives, the stream encoder and the writer.
    [EncryptDict] returns a pointer to the encryption dict held by the xref
    table; [storeEncryptDict] is the write through that pointer. *)
Class Collaborators : Type := {
  fileID : Context -> Object * option error;
  Dereference : XRefTable -> Object -> Object * option error;
  DereferenceDict : XRefTable -> Object -> option Dict * option error;
  Pages : XRefTable -> option IndirectRef * option error;
  equalFontDicts : Dict -> Dict -> XRefTable -> bool * option error;
  equalStreamDicts : StreamDict -> StreamDict -> XRefTable -> bool * option error;
  InsertAndUseRecycled : XRefTableEntry -> XRefTable -> XRefTable * (Z * option error);
  EnsureValidFreeList : XRefTable -> XRefTable * option error;
  encodeStream : StreamDict -> StreamDict * option error;
  newEncryptDict : bool -> bool -> Z -> Dict;
  supportedEncryption : Context -> Dict -> option Enc * option error;
  IDFirstElement : XRefTable -> list Byte.byte * option error;
  enc_o : Context -> list Byte.byte * option error;
  enc_u : Context -> list Byte.byte * option (list Byte.byte) * option error;
  hex_EncodeToString : list Byte.byte -> string;
  EncryptDict : XRefTable -> option Dict * option error;
  storeEncryptDict : XRefTable -> Dict -> XRefTable;
  writeStreamDictObject : Context -> Z -> Z -> StreamDict -> Context * option error;
  WriteString : WriteContext -> string -> WriteContext * option error;
  WriteEol : WriteContext -> WriteContext * option error
}.

(** ** write.go *)

(** Modelled from the spec: [NewXRefTableEntryGen0], a new in-use entry of
    generation 0 that holds the object. *)
Definition NewXRefTableEntryGen0 (obj : Object) : XRefTableEntry :=
  mkEntry false None (Some 0) obj false None None.

(** *** Bytes of the xref stream *)

Definition byte_of_Z (z : Z) : Byte.byte :=
  default Byte.x00 (Byte.of_N (Z.to_N (Z.land z 255))).

Definition Z_of_byte (b : Byte.byte) : Z := Z.of_N (Byte.to_N b).

(** The first loop of [int64ToBuf]: the bytes [k & 0xff] of [k], low byte
    first, while [k > 0]. *)
Equations? low_bytes (k : Z) : list Byte.byte by wf (Z.to_nat k) lt :=
  low_bytes k with decide (0 < k) := {
    | left _ => byte_of_Z (Z.land k 255) :: low_bytes (Z.shiftr k 8)
    | right _ => [] }.
Proof.
  rewrite Z.shiftr_div_pow2 by lia.
  assert (k / 2 ^ 8 < k) by (apply Z.div_lt; lia).
  assert (0 <= k / 2 ^ 8) by (apply Z.div_pos; lia).
  lia.
Qed.

(** [int64ToBuf]: [j] counts the bytes of the first loop, the second loop
    reverses them, and zero bytes pad the front up to [byteCount]. *)
Definition int64ToBuf (i : Z) (byteCount : Z) : list Byte.byte :=
  let b := rev (low_bytes i) in
  let j := Z.of_nat (length b) in
  if j <? byteCount then replicate (Z.to_nat (byteCount - j)) Byte.x00 ++ b else b.

(** The closure [i2] of [writeXRefStream]: the number of right shifts by 8
    that bring [i] down to 0. *)
Equations? byteCount (i : Z) : Z by wf (Z.to_nat i) lt :=
  byteCount i with decide (0 < i) := {
    | left _ => byteCount (Z.shiftr i 8) + 1
    | right _ => 0 }.
Proof.
  rewrite Z.shiftr_div_pow2 by lia.
  assert (i / 2 ^ 8 < i) by (apply Z.div_lt; lia).
  assert (0 <= i / 2 ^ 8) by (apply Z.div_pos; lia).
  lia.
Qed.

(** The keys of the xref section: the object numbers that are free or have a
    write offset, sorted ([sortedWritableKeys], and the same loop in
    [createXRefStream]). *)
Definition sortedWritableKeys (ctx : Context) : list Z :=
  merge_sort Z.le
    (fst <$> filter (fun p => orb (Free (snd p)) (HasWriteOffset (Write ctx) (fst p)) = true)
       (map_to_list (Table (ctx_XRefTable ctx)))).

(** The three fields of the xref-stream entry of object [j]. *)
Definition xrefStreamEntry (ctx : Context) (i1 i2 i3 : Z) (i j : Z) (entry : XRefTableEntry)
    : option (list Byte.byte + error) :=
  if Free entry then
    off ← Offset entry; gen ← Generation entry;
    Some (inl (int64ToBuf 0 i1 ++ int64ToBuf off i2 ++ int64ToBuf gen i3))
  else if Compressed entry then
    os ← ObjectStream entry; ind ← ObjectStreamInd entry;
    Some (inl (int64ToBuf 2 i1 ++ int64ToBuf os i2 ++ int64ToBuf ind i3))
  else
    match write_Table (Write ctx) !! j with
    | None =>
        Some (inr (Errorf "createXRefStream: missing write offset for obj #%d\n" [ArgInt i]))
    | Some off =>
        gen ← Generation entry;
        Some (inl (int64ToBuf 1 i1 ++ int64ToBuf off i2 ++ int64ToBuf gen i3))
    end.

(** The loop of [createXRefStream] over [keys[i:]]; [prev] is [keys[i-1]]. *)
Fixpoint createXRefStream_loop (ctx : Context) (i1 i2 i3 : Z) (i : Z) (prev : option Z)
    (keys : list Z) (buf : list Byte.byte) (arr : Array) (start size : Z)
    : option (list Byte.byte * Array + error) :=
  match keys with
  | [] => Some (inl (buf, arr ++ [oInteger start; oInteger size]))
  | j :: rest =>
      entry ← Table (ctx_XRefTable ctx) !! j;
      r ← xrefStreamEntry ctx i1 i2 i3 i j entry;
      match r with
      | inr err => Some (inr err)
      | inl s =>
          let buf := buf ++ s in
          match prev with
          | Some p =>
              if 1 <? j - p then
                createXRefStream_loop ctx i1 i2 i3 (i + 1) (Some j) rest buf
                  (arr ++ [oInteger start; oInteger size]) j 1
              else
                createXRefStream_loop ctx i1 i2 i3 (i + 1) (Some j) rest buf arr start (size + 1)
          | None =>
              createXRefStream_loop ctx i1 i2 i3 (i + 1) (Some j) rest buf arr start (size + 1)
          end
      end
  end.

Definition createXRefStream (ctx : Context) (i1 i2 i3 : Z)
    : option (list Byte.byte * Array + error) :=
  let keys := sortedWritableKeys ctx in
  start ← head keys;
  createXRefStream_loop ctx i1 i2 i3 0 None keys [] [] start 0.

(** [XRefStreamDict] and [NewXRefStreamDict] (stream-dict source file). *)
Record XRefStreamDict : Type := mkXRefStreamDict {
  xs_StreamDict : StreamDict;
  xs_Size : Z;
  Objects : list Z;
  W : Z * Z * Z;
  PreviousOffset : option Z
}.

Definition sd_Insert (sd : StreamDict) (key : string) (value : Object) : StreamDict :=
  mkStreamDict (Dict_Insert (sd_Dict sd) key value) (StreamOffset sd) (StreamLength sd)
    (StreamLengthObjNr sd) (FilterPipeline sd) (Raw sd) (Content sd) (IsPageContent sd).

Definition xs_with_StreamDict (x : XRefStreamDict) (sd : StreamDict) : XRefStreamDict :=
  mkXRefStreamDict sd (xs_Size x) (Objects x) (W x) (PreviousOffset x).

(** Modelled from the spec: [filter.Flate], the name of the Flate filter. *)
Definition filter_Flate : string := "FlateDecode".

Definition NewXRefStreamDict (ctx : Context) : option XRefStreamDict :=
  let x := ctx_XRefTable ctx in
  let streamDict := mkStreamDict ∅ 0 None None [] [] [] false in
  let streamDict := sd_Insert streamDict "Type" (oName "XRef") in
  let streamDict := sd_Insert streamDict "Filter" (oName filter_Flate) in
  let streamDict :=
    mkStreamDict (sd_Dict streamDict) (StreamOffset streamDict) (StreamLength streamDict)
      (StreamLengthObjNr streamDict) [mkPDFFilter filter_Flate None] (Raw streamDict)
      (Content streamDict) (IsPageContent streamDict) in
  root ← Root x;
  let streamDict := sd_Insert streamDict "Root" (obj_of_ref root) in
  let streamDict :=
    match Info x with
    | Some info => sd_Insert streamDict "Info" (obj_of_ref info)
    | None => streamDict
    end in
  let streamDict :=
    match ID x with
    | Some id => sd_Insert streamDict "ID" (oArray id)
    | None => streamDict
    end in
  let streamDict :=
    match Encrypt x, EncKey x with
    | Some enc, Some _ => sd_Insert streamDict "Encrypt" (obj_of_ref enc)
    | _, _ => streamDict
    end in
  Some (mkXRefStreamDict streamDict 0 [] (0, 0, 0) None).

(** The outcome of a Go function that returns a value and an [error]. *)
Inductive outcome (A : Type) : Type :=
| Done (a : A)
| Failed (err : error).
Arguments Done {A}.
Arguments Failed {A}.

Section Write.

Context `{Collaborators}.

(** [ensureFileID]. *)
Definition ensureFileID (ctx : Context) : Context * option error :=
  match fileID ctx with
  | (_, Some err) => (ctx, Some err)
  | (fid, None) =>
      match ID (ctx_XRefTable ctx) with
      | None => (with_XRefTable ctx (with_ID (ctx_XRefTable ctx) (Some [fid; fid])), None)
      | Some arr =>
          if negb (Z.of_nat (length arr) =? 2) then
            (ctx, Some (errors_New "ID must be an array with 2 elements"))
          else
            (with_XRefTable ctx (with_ID (ctx_XRefTable ctx) (Some (<[1%nat := fid]> arr))),
             None)
      end
  end.

(** [ctx.DeleteObject(objNr)], with the object number appended to the log
    of the calls of [DeleteObject]. *)
Definition call_DeleteObject (st : Context * list Z) (objNr : Z) : Context * list Z :=
  (with_XRefTable (fst st) (DeleteObject objNr (ctx_XRefTable (fst st))),
   snd st ++ [objNr]).

(** [deleteRedundantObject]; the second component of the state is the log
    of the calls of [DeleteObject]. *)
Definition deleteRedundantObject (st : Context * list Z) (objNr : Z)
    : option (Context * list Z) :=
  let ctx := fst st in
  c1 ← (if ExtractPageNr (Write ctx) =? 0 then
          o ← Optimize ctx;
          Some (IsDuplicateFontObject o objNr || IsDuplicateImageObject o objNr)
        else Some false);
  let st := if c1 : bool then call_DeleteObject st objNr else st in
  let ctx := fst st in
  c2 ← (if IsLinearizationObject (ctx_XRefTable ctx) objNr then Some true
        else
          o ← Optimize ctx;
          if IsDuplicateInfoObject o objNr then Some true
          else
            r ← Read ctx;
            Some (IsObjectStreamObject r objNr || IsXRefStreamObject r objNr));
  Some (if c2 : bool then call_DeleteObject st objNr else st).

(** The linearization block of [deleteRedundantObjects] for an object that
    was not written. *)
Definition markHintTable (ctx : Context) (i : Z) (entry : XRefTableEntry) : option Context :=
  r ← Read ctx;
  match Linearized r, Offset entry, entry_Object entry with
  | true, Some off, oStreamDict _ =>
      let x := ctx_XRefTable ctx in
      primary ← OffsetPrimaryHintTable x;
      let x := if off =? primary
               then with_LinearizationObjs x (<[i := true]> (LinearizationObjs x))
               else x in
      let x := match OffsetOverflowHintTable x with
               | Some overflow =>
                   if off =? overflow
                   then with_LinearizationObjs x (<[i := true]> (LinearizationObjs x))
                   else x
               | None => x
               end in
      Some (with_XRefTable ctx x)
  | _, _, _ => Some ctx
  end.

(** The body of the loop of [deleteRedundantObjects] for object number [i]. *)
Definition deleteRedundantObjects_body (st : Context * list Z) (i : Z)
    : option (Context * list Z) :=
  let ctx := fst st in
  match Find (ctx_XRefTable ctx) i with
  | None => Some st
  | Some entry =>
      if Free entry then Some st
      else if HasWriteOffset (Write ctx) i then
        o ← Optimize ctx;
        Some (with_Optimize ctx
                (with_DuplicateObjs o
                   (delete i (DuplicateFontObjs o))
                   (delete i (DuplicateImageObjs o))
                   (delete i (DuplicateInfoObjects o))),
              snd st)
      else
        ctx ← markHintTable ctx i entry;
        deleteRedundantObject (ctx, snd st) i
  end.

Fixpoint deleteRedundantObjects_loop (st : Context * list Z) (objNrs : list Z)
    : option (Context * list Z) :=
  match objNrs with
  | [] => Some st
  | i :: rest =>
      st ← deleteRedundantObjects_body st i;
      deleteRedundantObjects_loop st rest
  end.

(** [deleteRedundantObjects]: the context after the call and the object
    numbers [DeleteObject] was called with, in order. *)
Definition deleteRedundantObjects (ctx : Context) : option (Context * list Z) :=
  match Optimize ctx with
  | None => Some (ctx, [])
  | Some _ =>
      size ← Size (ctx_XRefTable ctx);
      deleteRedundantObjects_loop (ctx, []) (seqZ 0 size)
  end.

(** The xref stream dict that [writeXRefStream] builds, with the object
    number it is written under: the function up to the call of
    [encodeStream], which fills in the encoded bytes before
    [writeStreamDictObject] emits the dict. *)
Definition writeXRefStream_dict (ctx : Context)
    : option (Context * outcome (Z * XRefStreamDict)) :=
  xRefStreamDict ← NewXRefStreamDict ctx;
  let xRefTableEntry := NewXRefTableEntryGen0 (oStreamDict (xs_StreamDict xRefStreamDict)) in
  let '(x, (objNumber, err)) := InsertAndUseRecycled xRefTableEntry (ctx_XRefTable ctx) in
  let ctx := with_XRefTable ctx x in
  match err with
  | Some err => Some (ctx, Failed err)
  | None =>
      let '(x, err) := EnsureValidFreeList (ctx_XRefTable ctx) in
      let ctx := with_XRefTable ctx x in
      match err with
      | Some err => Some (ctx, Failed err)
      | None =>
          size ← Size (ctx_XRefTable ctx);
          let sd := sd_Insert (xs_StreamDict xRefStreamDict) "Size" (oInteger size) in
          let offset := write_Offset (Write ctx) in
          let i2Base := size in
          let i2Base := if i2Base <? offset then offset else i2Base in
          let i1 := 1 in
          let i2 := byteCount i2Base in
          let i3 := 2 in
          let wArr := [oInteger i1; oInteger i2; oInteger i3] in
          let sd := sd_Insert sd "W" (oArray wArr) in
          r ← createXRefStream ctx i1 i2 i3;
          match r with
          | inr err => Some (ctx, Failed err)
          | inl (content, indArr) =>
              let sd := set_Content sd content in
              let sd := sd_Insert sd "Index" (oArray indArr) in
              Some (ctx, Done (objNumber, xs_with_StreamDict xRefStreamDict sd))
          end
      end
  end.

Definition with_Write (ctx : Context) (w : WriteContext) : Context :=
  mkContext (ctx_Configuration ctx) (ctx_XRefTable ctx) (Read ctx) (Optimize ctx) w.

(** The writes that end [writeXRefStream], after the stream dict object. *)
Definition writeStartXRef (ctx : Context) (offset : Z) : Context * option error :=
  let '(w, err) := WriteEol (Write ctx) in
  match err with
  | Some err => (with_Write ctx w, Some err)
  | None =>
  let '(w, err) := WriteString w "startxref" in
  match err with
  | Some err => (with_Write ctx w, Some err)
  | None =>
  let '(w, err) := WriteEol w in
  match err with
  | Some err => (with_Write ctx w, Some err)
  | None =>
  let '(w, err) := WriteString w (itoa offset) in
  match err with
  | Some err => (with_Write ctx w, Some err)
  | None =>
  let '(w, err) := WriteEol w in
  (with_Write ctx w, err)
  end end end end.

(** [writeXRefStream]. *)
Definition writeXRefStream (ctx : Context) : option (Context * option error) :=
  '(ctx, r) ← writeXRefStream_dict ctx;
  let offset := write_Offset (Write ctx) in
  match r with
  | Failed err => Some (ctx, Some err)
  | Done (objNumber, xRefStreamDict) =>
      let '(sd, err) := encodeStream (xs_StreamDict xRefStreamDict) in
      match err with
      | Some err => Some (ctx, Some err)
      | None =>
          let '(ctx, err) := writeStreamDictObject ctx objNumber 0 sd in
          match err with
          | Some err => Some (ctx, Some err)
          | None => Some (writeStartXRef ctx offset)
          end
      end
  end.

(** *** Encryption *)

Definition set_E (ctx : Context) (f : Enc -> Enc) : option Context :=
  e ← E (ctx_XRefTable ctx);
  Some (with_XRefTable ctx (with_E (ctx_XRefTable ctx) (Some (f e)))).

Definition enc_with_ID (id : list Byte.byte) (e : Enc) : Enc :=
  mkEnc id (enc_O e) (enc_U e) (enc_P e).
Definition enc_with_O (o : list Byte.byte) (e : Enc) : Enc :=
  mkEnc (enc_ID e) o (enc_U e) (enc_P e).
Definition enc_with_U (u : list Byte.byte) (e : Enc) : Enc :=
  mkEnc (enc_ID e) (enc_O e) u (enc_P e).
Definition enc_with_P (p : Z) (e : Enc) : Enc :=
  mkEnc (enc_ID e) (enc_O e) (enc_U e) p.

(** [ctx.E.O, err = o(ctx)]. *)
Definition assign_O (ctx : Context) : option (Context * option error) :=
  let '(o, err) := enc_o ctx in
  ctx ← set_E ctx (enc_with_O o);
  Some (ctx, err).

(** [ctx.E.U, ctx.EncKey, err = u(ctx)]. *)
Definition assign_U (ctx : Context) : option (Context * option error) :=
  let '(u, key, err) := enc_u ctx in
  ctx ← set_E ctx (enc_with_U u);
  Some (with_XRefTable ctx (with_EncKey (ctx_XRefTable ctx) key), err).

(** [setupEncryption]. *)
Definition setupEncryption (ctx : Context) : option (Context * option error) :=
  let c := ctx_Configuration ctx in
  let dict := newEncryptDict (EncryptUsingAES c) (EncryptUsing128BitKey c)
                (UserAccessPermissions c) in
  let '(e, err) := supportedEncryption ctx dict in
  let ctx := with_XRefTable ctx (with_E (ctx_XRefTable ctx) e) in
  match err with
  | Some err => Some (ctx, Some err)
  | None =>
  match ID (ctx_XRefTable ctx) with
  | None => Some (ctx, Some (errors_New "encrypt: missing ID"))
  | Some _ =>
  let '(id, err) := IDFirstElement (ctx_XRefTable ctx) in
  match err with
  | Some err => Some (ctx, Some err)
  | None =>
  ctx ← set_E ctx (enc_with_ID id);
  '(ctx, err) ← assign_O ctx;
  match err with
  | Some err => Some (ctx, Some err)
  | None =>
  '(ctx, err) ← assign_U ctx;
  match err with
  | Some err => Some (ctx, Some err)
  | None =>
  e ← E (ctx_XRefTable ctx);
  let dict := Dict_Update dict "U" (oHexLiteral (hex_EncodeToString (enc_U e))) in
  let dict := Dict_Update dict "O" (oHexLiteral (hex_EncodeToString (enc_O e))) in
  let xRefTableEntry := NewXRefTableEntryGen0 (oDict dict) in
  let '(x, (objNumber, err)) := InsertAndUseRecycled xRefTableEntry (ctx_XRefTable ctx) in
  let ctx := with_XRefTable ctx x in
  match err with
  | Some err => Some (ctx, Some err)
  | None =>
  Some (with_XRefTable ctx
          (with_Encrypt (ctx_XRefTable ctx) (Some (NewIndirectRef objNumber 0))), None)
  end end end end end end.

(** [d.Update(key, value)] through the pointer [d] into the xref table. *)
Definition update_EncryptDict (ctx : Context) (d : Dict) (key : string) (value : Object)
    : Context * Dict :=
  let d := Dict_Update d key value in
  (with_XRefTable ctx (storeEncryptDict (ctx_XRefTable ctx) d), d).

(** [updateEncryption]. *)
Definition updateEncryption (ctx : Context) : option (Context * option error) :=
  let '(d, err) := EncryptDict (ctx_XRefTable ctx) in
  match err with
  | Some err => Some (ctx, Some err)
  | None =>
  r ← (if decide (Mode (ctx_Configuration ctx) = ADDPERMISSIONS) then
         ctx ← set_E ctx (enc_with_P (UserAccessPermissions (ctx_Configuration ctx)));
         e ← E (ctx_XRefTable ctx);
         d ← d;
         let '(ctx, d) := update_EncryptDict ctx d "P" (oInteger (enc_P e)) in
         Some (ctx, Some d)
       else Some (ctx, d));
  let '(ctx, d) := r in
  let c := ctx_Configuration ctx in
  let c := match UserPWNew c with
           | Some pw => with_passwords c pw (OwnerPW c)
           | None => c
           end in
  let c := match OwnerPWNew c with
           | Some pw => with_passwords c (UserPW c) pw
           | None => c
           end in
  let ctx := with_Configuration ctx c in
  '(ctx, err) ← assign_O ctx;
  match err with
  | Some err => Some (ctx, Some err)
  | None =>
  e ← E (ctx_XRefTable ctx);
  d ← d;
  let '(ctx, d) := update_EncryptDict ctx d "O" (oHexLiteral (hex_EncodeToString (enc_O e))) in
  '(ctx, err) ← assign_U ctx;
  match err with
  | Some err => Some (ctx, Some err)
  | None =>
  e ← E (ctx_XRefTable ctx);
  let '(ctx, d) := update_EncryptDict ctx d "U" (oHexLiteral (hex_EncodeToString (enc_U e))) in
  Some (ctx, None)
  end end end.

(** The last statement of [handleEncryption]: write an xref stream only
    when the input used xref streams. *)
Definition forceClassicalXRef (ctx : Context) : option Context :=
  match Encrypt (ctx_XRefTable ctx), EncKey (ctx_XRefTable ctx) with
  | Some _, Some _ =>
      r ← Read ctx;
      if negb (UsingXRefStreams r) then
        Some (with_Configuration ctx (with_write_flags (ctx_Configuration ctx) false false))
      else Some ctx
  | _, _ => Some ctx
  end.

(** [handleEncryption]. *)
Definition handleEncryption (ctx : Context) : option (Context * option error) :=
  let c := ctx_Configuration ctx in
  r ← (if decide (Mode c = ENCRYPT \/ Mode c = DECRYPT) then
         if decide (Mode c = DECRYPT) then
           Some (with_XRefTable ctx (with_EncKey (ctx_XRefTable ctx) None), None)
         else setupEncryption ctx
       else if decide (is_Some (UserPWNew c) \/ is_Some (OwnerPWNew c)
                       \/ Mode c = ADDPERMISSIONS) then
         updateEncryption ctx
       else Some (ctx, None));
  let '(ctx, err) := r in
  match err with
  | Some err => Some (ctx, Some err)
  | None =>
      ctx ← forceClassicalXRef ctx;
      Some (ctx, None)
  end.

End Write.

(** ** optimize.go *)

(** [s[i]] of a slice: out of range panics. *)
Definition slice_index {A : Type} (l : list A) (i : Z) : option A :=
  if i <? 0 then None else l !! Z.to_nat i.

(** [pages[pageNumber][objNr] = true] for a slice of maps: the index must be
    in range and the map must not be nil. *)
Definition page_set_add (pages : list (option IntSet)) (pageNumber objNr : Z)
    : option (list (option IntSet)) :=
  page ← slice_index pages pageNumber;
  s ← page;
  Some (<[Z.to_nat pageNumber := Some (<[objNr := true]> s)]> pages).

(** [make([]IntSet, n)]. *)
Definition make_IntSets (n : Z) : option (list (option IntSet)) :=
  if n <? 0 then None else Some (replicate (Z.to_nat n) None).

(** The lines "Isolate fontname prefix" of [optimizeFontResourcesDict]: the
    prefix and the font name after them. *)
Definition isolatePrefix (fn : string) : string * string :=
  let i := strings_Index_byte fn "+"%char in
  if 0 <? i then (slice_to fn i, slice_from fn (i + 1)) else ("", fn).

Section Optimize.

Context `{Collaborators}.

(** The loop of [handleDuplicateFontObject] over [fontObjectNumbers]. *)
Fixpoint handleDuplicateFontObject_loop (x : XRefTable) (font : Dict)
    (resourceName : string) (objNr pageNumber : Z) (o : OptimizationContext)
    (fontObjectNumbers : list Z)
    : option (OptimizationContext * outcome (option Z)) :=
  match fontObjectNumbers with
  | [] => Some (o, Done None)
  | fontObjectNumber :: rest =>
      fontObject ← FontObjects o !! fontObjectNumber;
      match equalFontDicts (FontDict fontObject) font x with
      | (_, Some err) => Some (o, Failed err)
      | (true, None) =>
          pages ← page_set_add (PageFonts o) pageNumber fontObjectNumber;
          let o := with_PageFonts o pages in
          let fontObject :=
            mkFontObject (AddResourceName (font_ResourceNames fontObject) resourceName)
              (Prefix fontObject) (FontName fontObject) (FontDict fontObject) in
          let o := with_FontObjects o (<[fontObjectNumber := fontObject]> (FontObjects o)) in
          let o := with_DuplicateFonts o (<[objNr := font]> (DuplicateFonts o)) in
          Some (o, Done (Some fontObjectNumber))
      | (false, None) =>
          handleDuplicateFontObject_loop x font resourceName objNr pageNumber o rest
      end
  end.

(** [handleDuplicateFontObject]. *)
Definition handleDuplicateFontObject (ctx : Context) (font : Dict)
    (fontName resourceName : string) (objNr pageNumber : Z)
    : option (Context * outcome (option Z)) :=
  o ← Optimize ctx;
  match Fonts o !! fontName with
  | None => Some (ctx, Done None)
  | Some fontObjectNumbers =>
      _ ← slice_index (PageFonts o) pageNumber;
      '(o, r) ← handleDuplicateFontObject_loop (ctx_XRefTable ctx) font resourceName
                  objNr pageNumber o fontObjectNumbers;
      Some (with_Optimize ctx o, r)
  end.

(** [pageFonts]: the set of the page, allocated when it is nil. *)
Definition pageFonts (ctx : Context) (pageNumber : Z) : option Context :=
  o ← Optimize ctx;
  page ← slice_index (PageFonts o) pageNumber;
  match page with
  | Some _ => Some ctx
  | None =>
      Some (with_Optimize ctx
              (with_PageFonts o (<[Z.to_nat pageNumber := Some ∅]> (PageFonts o))))
  end.

(** [fontName]. *)
Definition fontName (ctx : Context) (fontDict : Dict) (objNumber : Z)
    : option (outcome string) :=
  subtype ← Dict_Subtype fontDict;
  let named (o : Object) : option (outcome string) :=
    match Dereference (ctx_XRefTable ctx) o with
    | (_, Some err) => Some (Failed err)
    | (oName baseFont, None) => Some (Done baseFont)
    | (_, None) => Some (Failed (errors_New "fontName: corrupt fontDict entry BaseFont"))
    end in
  if negb (String.eqb subtype "Type3") then
    match Dict_Find fontDict "BaseFont" with
    | Some o => named o
    | None =>
        match Dict_Find fontDict "Name" with
        | Some o => named o
        | None =>
            Some (Failed (errors_New
              ("fontName: missing fontDict entries " +:+ dquote +:+ "BaseFont" +:+ dquote
               +:+ " and " +:+ dquote +:+ "Name" +:+ dquote)))
        end
    end
  else
    match Dict_Find fontDict "Name" with
    | Some o => named o
    | None => Some (Done ("Type3_" +:+ itoa objNumber))
    end.

(** [ctx.Optimize.PageFonts[pageNumber][objNr] = true]. *)
Definition add_pageFont (ctx : Context) (pageNumber objNr : Z) : option Context :=
  o ← Optimize ctx;
  pages ← page_set_add (PageFonts o) pageNumber objNr;
  Some (with_Optimize ctx (with_PageFonts o pages)).

(** The registration of a new font object in [optimizeFontResourcesDict]. *)
Definition registerFont (ctx : Context) (fontDict : Dict) (prefix fn resourceName : string)
    (objectNumber pageNumber : Z) : option Context :=
  o ← Optimize ctx;
  let fonts :=
    match Fonts o !! fn with
    | Some fontObjectNumbers => <[fn := fontObjectNumbers ++ [objectNumber]]> (Fonts o)
    | None => <[fn := [objectNumber]]> (Fonts o)
    end in
  let o := with_Fonts o fonts in
  let o := with_FontObjects o
             (<[objectNumber := mkFontObject [resourceName] prefix fn fontDict]>
                (FontObjects o)) in
  add_pageFont (with_Optimize ctx o) pageNumber objectNumber.

(** The body of the loop of [optimizeFontResourcesDict] for the entry
    [resourceName] of the font resources dict. *)
Definition optimizeFontResource (ctx : Context) (fontResourcesDict : Dict)
    (pageNumber : Z) (resourceName : string) (v : Object)
    : option (Context * Dict * option error) :=
  match v with
  | oIndirectRef objectNumber generationNumber =>
      o ← Optimize ctx;
      match FontObjects o !! objectNumber with
      | Some _ =>
          ctx ← add_pageFont ctx pageNumber objectNumber;
          Some (ctx, fontResourcesDict, None)
      | None =>
      match Dereference (ctx_XRefTable ctx) v with
      | (_, Some err) =>
          Some (ctx, fontResourcesDict,
                Some (Errorf "optimizeFontResourcesDict: missing obj for indirect object ref %d:\n%s"
                        [ArgInt objectNumber; ArgErr err]))
      | (oDict fontDict, None) =>
          match Dict_Type fontDict with
          | None =>
              Some (ctx, fontResourcesDict,
                    Some (Errorf "optimizeFontResourcesDict: missing dict type %s\n" [ArgObj v]))
          | Some type =>
          if negb (String.eqb type "Font") then
            Some (ctx, fontResourcesDict,
                  Some (Errorf "optimizeFontResourcesDict: expected Type=Font, unexpected Type: %s"
                          [ArgStr type]))
          else
          r ← fontName ctx fontDict objectNumber;
          match r with
          | Failed err => Some (ctx, fontResourcesDict, Some err)
          | Done fn =>
          let '(prefix, fn) := isolatePrefix fn in
          '(ctx, r) ← handleDuplicateFontObject ctx fontDict fn resourceName
                        objectNumber pageNumber;
          match r with
          | Failed err => Some (ctx, fontResourcesDict, Some err)
          | Done None =>
              ctx ← registerFont ctx fontDict prefix fn resourceName objectNumber pageNumber;
              Some (ctx, fontResourcesDict, None)
          | Done (Some uniqueFontObjNr) =>
              Some (ctx,
                    <[resourceName := obj_of_ref (NewIndirectRef uniqueFontObjNr 0)]>
                      fontResourcesDict,
                    None)
          end end end
      | (_, None) => None
      end end
  | _ =>
      Some (ctx, fontResourcesDict,
            Some (Errorf "optimizeFontResourcesDict: missing indirect object ref for Font: %s\n"
                    [ArgStr resourceName]))
  end.

(** The loop of [optimizeFontResourcesDict]; [order] lists the keys of the
    dict in the order the [range] visits them. *)
Fixpoint optimizeFontResources_loop (ctx : Context) (fontResourcesDict : Dict)
    (pageNumber : Z) (order : list string) : option (Context * Dict * option error) :=
  match order with
  | [] => Some (ctx, fontResourcesDict, None)
  | resourceName :: rest =>
      match fontResourcesDict !! resourceName with
      | None => optimizeFontResources_loop ctx fontResourcesDict pageNumber rest
      | Some v =>
          '(ctx, fontResourcesDict, err) ←
            optimizeFontResource ctx fontResourcesDict pageNumber resourceName v;
          match err with
          | Some err => Some (ctx, fontResourcesDict, Some err)
          | None => optimizeFontResources_loop ctx fontResourcesDict pageNumber rest
          end
      end
  end.

(** [optimizeFontResourcesDict]: the context and the font resources dict
    after the call. *)
Definition optimizeFontResourcesDict (order : list string) (ctx : Context)
    (fontResourcesDict : Dict) (pageNumber pageObjNumber : Z)
    : option (Context * Dict * option error) :=
  ctx ← pageFonts ctx pageNumber;
  optimizeFontResources_loop ctx fontResourcesDict pageNumber order.

(** The loop of [handleDuplicateImageObject]; [order] lists the keys of
    [ImageObjects] in the order the [range] visits them. *)
Fixpoint handleDuplicateImageObject_loop (x : XRefTable) (image : StreamDict)
    (resourceName : string) (objNr pageNumber : Z) (o : OptimizationContext)
    (order : list Z) : option (OptimizationContext * outcome (option Z)) :=
  match order with
  | [] => Some (o, Done None)
  | imageObjectNumber :: rest =>
      match ImageObjects o !! imageObjectNumber with
      | None =>
          handleDuplicateImageObject_loop x image resourceName objNr pageNumber o rest
      | Some imageObject =>
          match equalStreamDicts (ImageDict imageObject) image x with
          | (_, Some err) => Some (o, Failed err)
          | (true, None) =>
              pages ← page_set_add (PageImages o) pageNumber imageObjectNumber;
              let o := with_PageImages o pages in
              let imageObject :=
                mkImageObject (AddResourceName (image_ResourceNames imageObject) resourceName)
                  (ImageDict imageObject) in
              let o := with_ImageObjects o
                         (<[imageObjectNumber := imageObject]> (ImageObjects o)) in
              let o := with_DuplicateImages o (<[objNr := image]> (DuplicateImages o)) in
              _ ← StreamLength image;
              Some (o, Done (Some imageObjectNumber))
          | (false, None) =>
              handleDuplicateImageObject_loop x image resourceName objNr pageNumber o rest
          end
      end
  end.

(** [handleDuplicateImageObject]. *)
Definition handleDuplicateImageObject (order : list Z) (ctx : Context) (image : StreamDict)
    (resourceName : string) (objNr pageNumber : Z)
    : option (Context * outcome (option Z)) :=
  o ← Optimize ctx;
  _ ← slice_index (PageImages o) pageNumber;
  '(o, r) ← handleDuplicateImageObject_loop (ctx_XRefTable ctx) image resourceName
              objNr pageNumber o order;
  Some (with_Optimize ctx o, r).

(** The page-tree walk and the statistics of [optimize.go], which the
    checks at the start of [optimizeFontAndImages] do not depend on. *)
Variable parsePagesDict : Context -> Dict -> Z -> option (Context * (Z * option error)).
Variable calcRedundantObjects : Context -> option (Context * option error).
Variable calcBinarySizes : Context -> option (Context * option error).

(** [optimizeFontAndImages] from "Prepare optimization environment" on. *)
Definition optimizePages (ctx : Context) (pageTreeRootDict : Dict)
    : option (Context * option error) :=
  o ← Optimize ctx;
  pages ← make_IntSets (PageCount (ctx_XRefTable ctx));
  let o := with_PageFonts o pages in
  let ctx := with_Optimize ctx o in
  pages ← make_IntSets (PageCount (ctx_XRefTable ctx));
  let o := with_PageImages o pages in
  let ctx := with_Optimize ctx o in
  '(ctx, (_, err)) ← parsePagesDict ctx pageTreeRootDict 0;
  match err with
  | Some err => Some (ctx, Some err)
  | None => calcRedundantObjects ctx
  end.

(** [optimizeFontAndImages]. *)
Definition optimizeFontAndImages (ctx : Context) : option (Context * option error) :=
  match Pages (ctx_XRefTable ctx) with
  | (_, Some err) => Some (ctx, Some err)
  | (indRefPages, None) =>
  indRefPages ← indRefPages;
  match DereferenceDict (ctx_XRefTable ctx) (obj_of_ref indRefPages) with
  | (_, Some err) => Some (ctx, Some err)
  | (pageTreeRootDict, None) =>
  pageTreeRootDict ← pageTreeRootDict;
  match IntEntry pageTreeRootDict "Count" with
  | None =>
      Some (ctx, Some (errors_New
        ("optimizeFontAndImagess: missing " +:+ dquote +:+ "Count" +:+ dquote
         +:+ " in page root dict")))
  | Some pageCount =>
  let x := ctx_XRefTable ctx in
  if (0 <? PageCount x) && negb (PageCount x =? pageCount) then
    Some (ctx, Some (errors_New
      "optimizeFontAndImagess: unexpected page root dict pageCount discrepancy"))
  else
    let ctx := if PageCount x =? 0
               then with_XRefTable ctx (with_PageCount x pageCount)
               else ctx in
    optimizePages ctx pageTreeRootDict
  end end end.

(** [OptimizeXRefTable]. *)
Definition OptimizeXRefTable (ctx : Context) : option (Context * option error) :=
  '(ctx, err) ← optimizeFontAndImages ctx;
  match err with
  | Some err => Some (ctx, Some err)
  | None =>
      '(ctx, err) ← calcBinarySizes ctx;
      match err with
      | Some err => Some (ctx, Some err)
      | None =>
          Some (with_XRefTable ctx (with_Optimized (ctx_XRefTable ctx) true), None)
      end
  end.

End Optimize.

(** ** A simple instance of the collaborators

    Enough of the collaborators to run the embedded functions on sample
    documents: dereferencing by table lookup, fonts compared by their
    [BaseFont] and images by their raw bytes, object numbers taken from the
    free list or the end of the table, and a writer that only counts bytes. *)
Module Sample.

Definition dereference (x : XRefTable) (o : Object) : Object * option error :=
  match o with
  | oIndirectRef n _ =>
      match Table x !! n with
      | Some e => (entry_Object e, None)
      | None => (oNil, None)
      end
  | _ => (o, None)
  end.

Definition dereferenceDict (x : XRefTable) (o : Object) : option Dict * option error :=
  match fst (dereference x o) with
  | oDict d => (Some d, None)
  | oNil => (None, None)
  | _ => (None, Some (errors_New "dereferenceDict: wrong type"))
  end.

Definition pages (x : XRefTable) : option IndirectRef * option error :=
  match Root x with
  | Some root =>
      match dereferenceDict x (obj_of_ref root) with
      | (Some catalog, None) =>
          match catalog !! "Pages" with
          | Some (oIndirectRef n g) => (Some (mkIndirectRef n g), None)
          | _ => (None, Some (errors_New "pages: missing indirect ref"))
          end
      | (_, _) => (None, Some (errors_New "pages: missing catalog"))
      end
  | None => (None, Some (errors_New "pages: missing root"))
  end.

Definition same_BaseFont (a b : Dict) (x : XRefTable) : bool * option error :=
  (bool_decide (NameEntry a "BaseFont" = NameEntry b "BaseFont"), None).

Definition same_Raw (a b : StreamDict) (x : XRefTable) : bool * option error :=
  (bool_decide (Raw a = Raw b), None).

Definition append_entry (e : XRefTableEntry) (x : XRefTable)
    : XRefTable * (Z * option error) :=
  match Size x with
  | Some n =>
      (mkXRefTable (<[n := e]> (Table x)) (Some (n + 1)) (PageCount x) (Root x) (Info x)
         (ID x) (Encrypt x) (E x) (EncKey x) (OffsetPrimaryHintTable x)
         (OffsetOverflowHintTable x) (LinearizationObjs x) (Optimized x),
       (n, None))
  | None => (x, (0, Some (errors_New "InsertAndUseRecycled: missing size")))
  end.

(** The entry takes the first object of the free list, or is appended at
    [Size] when the list is empty. *)
Definition insert_recycled (e : XRefTableEntry) (x : XRefTable)
    : XRefTable * (Z * option error) :=
  match Table x !! 0 with
  | Some head =>
      match Offset head with
      | Some n =>
          match Table x !! n with
          | Some recycled =>
              if negb (n =? 0) && Free recycled then
                (with_Table x
                   (<[0 := mkEntry (Free head) (Offset recycled) (Generation head)
                             (entry_Object head) (Compressed head) (ObjectStream head)
                             (ObjectStreamInd head)]>
                      (<[n := e]> (Table x))),
                 (n, None))
              else append_entry e x
          | None => append_entry e x
          end
      | None => append_entry e x
      end
  | None => append_entry e x
  end.

Definition copy_Content (sd : StreamDict) : StreamDict * option error :=
  (mkStreamDict (sd_Dict sd) (StreamOffset sd) (Some (Z.of_nat (length (Content sd))))
     (StreamLengthObjNr sd) (FilterPipeline sd) (Content sd) (Content sd)
     (IsPageContent sd), None).

Definition encrypt_dict (x : XRefTable) : option Dict * option error :=
  match Encrypt x with
  | Some r => dereferenceDict x (obj_of_ref r)
  | None => (None, Some (errors_New "encrypt_dict: missing Encrypt"))
  end.

Definition store_encrypt_dict (x : XRefTable) (d : Dict) : XRefTable :=
  match Encrypt x with
  | Some r =>
      match Table x !! ObjectNumber r with
      | Some e =>
          with_Table x
            (<[ObjectNumber r := mkEntry (Free e) (Offset e) (Generation e) (oDict d)
                                   (Compressed e) (ObjectStream e) (ObjectStreamInd e)]>
               (Table x))
      | None => x
      end
  | None => x
  end.

Definition advance (w : WriteContext) (n : Z) : WriteContext :=
  mkWriteContext (write_Offset w + n) (write_Table w) (ExtractPageNr w).

Definition count_stream_dict (ctx : Context) (objNumber genNumber : Z) (sd : StreamDict)
    : Context * option error :=
  let w := Write ctx in
  (mkContext (ctx_Configuration ctx) (ctx_XRefTable ctx) (Read ctx) (Optimize ctx)
     (mkWriteContext (write_Offset w + Z.of_nat (length (Raw sd)))
        (<[objNumber := write_Offset w]> (write_Table w)) (ExtractPageNr w)),
   None).

#[global] Instance collaborators : Collaborators := {|
  fileID := fun _ => (oHexLiteral "0f1e2d3c4b5a69788796a5b4c3d2e1f0", None);
  Dereference := dereference;
  DereferenceDict := dereferenceDict;
  Pages := pages;
  equalFontDicts := same_BaseFont;
  equalStreamDicts := same_Raw;
  InsertAndUseRecycled := insert_recycled;
  EnsureValidFreeList := fun x => (x, None);
  encodeStream := copy_Content;
  newEncryptDict := fun _ _ p => {[ "Filter" := oName "Standard"; "P" := oInteger p ]};
  supportedEncryption := fun _ _ => (Some (mkEnc [] [] [] 0), None);
  IDFirstElement := fun _ => ([], None);
  enc_o := fun _ => ([], None);
  enc_u := fun _ => ([], Some [], None);
  hex_EncodeToString := fun _ => "";
  EncryptDict := encrypt_dict;
  storeEncryptDict := store_encrypt_dict;
  writeStreamDictObject := count_stream_dict;
  WriteString := fun w s => (advance w (Z.of_nat (String.length s)), None);
  WriteEol := fun w => (advance w 1, None)
|}.

(** *** Sample documents *)

Definition configuration (mode : CommandMode) : Configuration :=
  mkConfiguration mode true true "" None "" None false false 0.

Definition free_head : XRefTableEntry := mkEntry true (Some 0) (Some 65535) oNil false None None.

Definition in_use (obj : Object) (offset : Z) : XRefTableEntry :=
  mkEntry false (Some offset) (Some 0) obj false None None.

Definition xref (table : gmap Z XRefTableEntry) (size : Z) : XRefTable :=
  mkXRefTable table (Some size) 0 (Some (mkIndirectRef 1 0)) None None None None None
    None None ∅ false.

Definition reader : ReadContext := mkReadContext false false ∅ ∅.

Definition optimizer : OptimizationContext :=
  mkOptimizationContext [] ∅ ∅ [] ∅ ∅ ∅ ∅ ∅ ∅.

Definition helvetica : Dict :=
  {[ "Type" := oName "Font"; "Subtype" := oName "Type1"; "BaseFont" := oName "Helvetica" ]}.

Definition times_subset : Dict :=
  {[ "Type" := oName "Font"; "Subtype" := oName "TrueType";
     "BaseFont" := oName "ABCDEF+Times-Roman" ]}.

(** A document with two identical Helvetica font dicts, objects 10 and 15,
    and a subset font, object 20; the optimizer has registered object 10 for
    the resource name F1 on page 0. *)
Definition fonts_doc : Context :=
  mkContext (configuration OPTIMIZE)
    (xref {[ 0 := free_head; 1 := in_use (oDict ∅) 15;
             10 := in_use (oDict helvetica) 100; 15 := in_use (oDict helvetica) 200;
             20 := in_use (oDict times_subset) 300 ]} 21)
    (Some reader)
    (Some (mkOptimizationContext [Some {[ 10 := true ]}]
             {[ 10 := mkFontObject ["F1"] "" "Helvetica" helvetica ]}
             {[ "Helvetica" := [10] ]} [None] ∅ ∅ ∅ ∅ ∅ ∅))
    (mkWriteContext 0 ∅ 0).

Definition font_resources : Dict :=
  {[ "F1" := oIndirectRef 10 0; "F2" := oIndirectRef 15 0; "F3" := oIndirectRef 20 0 ]}.

Definition image (raw : list Byte.byte) : StreamDict :=
  mkStreamDict {[ "Type" := oName "XObject"; "Subtype" := oName "Image" ]} 0
    (Some (Z.of_nat (length raw))) None [] raw [] false.

(** A document whose optimizer has registered the image objects 3 and 7,
    with the same raw bytes. *)
Definition images_doc : Context :=
  mkContext (configuration OPTIMIZE)
    (xref {[ 0 := free_head; 1 := in_use (oDict ∅) 15 ]} 10)
    (Some reader)
    (Some (mkOptimizationContext [None] ∅ ∅ [Some ∅] 
             {[ 3 := mkImageObject ["Im3"] (image [Byte.x89; Byte.x50]);
                7 := mkImageObject ["Im7"] (image [Byte.x89; Byte.x50]) ]}
             ∅ ∅ ∅ ∅ ∅))
    (mkWriteContext 0 ∅ 0).

(** A document whose objects 1 (catalog) and 2 (a font) were written and
    whose object 5 (a second font) was not; 2 and 5 are marked as potential
    duplicates. *)
Definition written_doc : Context :=
  mkContext (configuration OPTIMIZE)
    (xref {[ 0 := free_head; 1 := in_use (oDict ∅) 15; 2 := in_use (oDict helvetica) 70;
             5 := in_use (oDict helvetica) 130 ]} 6)
    (Some reader)
    (Some (with_DuplicateObjs optimizer {[ 2 := true; 5 := true ]} ∅ ∅))
    (mkWriteContext 200 {[ 1 := 15; 2 := 60 ]} 0).

(** The same document while page 3 is extracted. *)
Definition extract_doc : Context :=
  mkContext (ctx_Configuration written_doc) (ctx_XRefTable written_doc) (Read written_doc)
    (Optimize written_doc) (mkWriteContext 200 {[ 1 := 15; 2 := 60 ]} 3).

(** A document ready for its xref stream: objects 1 and 2 were written, the
    next byte goes to offset 256, and object 2 has a generation number that
    needs three bytes. *)
Definition xref_doc : Context :=
  mkContext (configuration OPTIMIZE)
    (xref {[ 0 := free_head; 1 := in_use (oDict ∅) 15;
             2 := mkEntry false (Some 70) (Some 70000) (oDict helvetica) false None None ]} 3)
    (Some reader) (Some optimizer)
    (mkWriteContext 256 {[ 1 := 15; 2 := 60 ]} 0).

(** An encrypted document read from a file with a classical xref table. *)
Definition encrypted_doc : Context :=
  mkContext (configuration READ)
    (with_EncKey
       (with_Encrypt
          (xref {[ 0 := free_head; 1 := in_use (oDict ∅) 15;
                   2 := in_use (oDict {[ "Filter" := oName "Standard" ]}) 70 ]} 3)
          (Some (mkIndirectRef 2 0)))
       (Some []))
    (Some reader) (Some optimizer)
    (mkWriteContext 0 ∅ 0).

(** A document with a page tree of three pages that was not validated:
    [PageCount] is still 0. *)
Definition pages_doc : Context :=
  mkContext (configuration OPTIMIZE)
    (xref {[ 0 := free_head;
             1 := in_use (oDict {[ "Type" := oName "Catalog"; "Pages" := oIndirectRef 2 0 ]}) 15;
             2 := in_use (oDict {[ "Type" := oName "Pages"; "Count" := oInteger 3;
                                   "Kids" := oArray [] ]}) 70 ]} 3)
    (Some reader) (Some optimizer)
    (mkWriteContext 0 ∅ 0).

(** A page-tree walk that visits nothing. *)
Definition no_walk (ctx : Context) (pagesDict : Dict) (pageNumber : Z)
    : option (Context * (Z * option error)) :=
  Some (ctx, (pageNumber, None)).

Definition no_pass (ctx : Context) : option (Context * option error) := Some (ctx, None).

End Sample.

(** ** Notions the properties are stated with *)

(** The dynamic type of an object. *)
Inductive Variant : Type :=
| VNil | VBoolean | VInteger | VFloat | VName | VStringLiteral | VHexLiteral
| VArray | VDict | VStreamDict | VIndirectRef.

#[global] Instance Variant_eq_dec : EqDecision Variant.
Proof. solve_decision. Defined.

Definition variant_of (o : Object) : Variant :=
  match o with
  | oNil => VNil
  | oBoolean _ => VBoolean
  | oInteger _ => VInteger
  | oFloat _ => VFloat
  | oName _ => VName
  | oStringLiteral _ => VStringLiteral
  | oHexLiteral _ => VHexLiteral
  | oArray _ => VArray
  | oDict _ => VDict
  | oStreamDict _ => VStreamDict
  | oIndirectRef _ _ => VIndirectRef
  end.

(** [ceil(log256(n))] for [n >= 1]. *)
Definition ceil_log256 (n : Z) : Z := (Z.log2_up n + 7) / 8.

(** The number a byte sequence denotes, high byte first. *)
Definition be_value (bs : list Byte.byte) : Z :=
  fold_left (fun acc b => acc * 256 + Z_of_byte b) bs 0.

(** The three fields of the xref-stream entry of an object, in the words of
    the specification: Free gives (0, nextFree, generation), InUse gives
    (1, offset, generation) and Compressed gives (2, objectStreamNr,
    indexWithinStream). *)
Definition xref_fields (ctx : Context) (j : Z) (entry : XRefTableEntry) : option (Z * Z * Z) :=
  if Free entry then
    nextFree ← Offset entry; generation ← Generation entry; Some (0, nextFree, generation)
  else if Compressed entry then
    objectStreamNr ← ObjectStream entry; index ← ObjectStreamInd entry;
    Some (2, objectStreamNr, index)
  else
    offset ← write_Table (Write ctx) !! j; generation ← Generation entry;
    Some (1, offset, generation).

(** An entry of the xref stream for the fields [(t, v2, v3)] under the
    widths [1, w2, 2]: three big-endian fields; a field is as wide as
    declared unless its value needs more bytes, and a negative value is
    written as zero. *)
Definition xref_entry_bytes (w2 : Z) (fields : Z * Z * Z) (s : list Byte.byte) : Prop :=
  let '(t, v2, v3) := fields in
  exists b1 b2 b3,
    s = b1 ++ b2 ++ b3 /\
    length b1 = 1%nat /\ be_value b1 = t /\
    Z.of_nat (length b2) = Z.max w2 (byteCount v2) /\ be_value b2 = Z.max 0 v2 /\
    Z.of_nat (length b3) = Z.max 2 (byteCount v3) /\ be_value b3 = Z.max 0 v3.

(** The two output flags that [handleEncryption] may clear. *)
Definition write_flags (ctx : Context) : bool * bool :=
  (WriteObjectStream (ctx_Configuration ctx), WriteXRefStream (ctx_Configuration ctx)).

(** Encryption is active and the input did not use xref streams. *)
Definition encrypted_classical (ctx : Context) : Prop :=
  is_Some (Encrypt (ctx_XRefTable ctx)) /\ is_Some (EncKey (ctx_XRefTable ctx)) /\
  exists r, Read ctx = Some r /\ UsingXRefStreams r = false.

(** What the encryption set-up leaves alone: the two output flags and the
    reader context. *)
Definition same_flags (ctx ctx' : Context) : Prop :=
  write_flags ctx' = write_flags ctx /\ Read ctx' = Read ctx.

Ltac step_option :=
  match goal with
  | H : _ ≫= _ = Some _ |- _ => apply bind_Some in H as (? & ? & H)
  | H : Some _ = Some _ |- _ => inversion H; subst; clear H
  | H : None = Some _ |- _ => discriminate H
  | H : context [match ?x with _ => _ end] |- _ => destruct x eqn:?; simpl in H
  end.





(** A registered image that the probe visits without a match: a key that is
    absent is not visited at all. *)
Definition image_differs `{Collaborators} (o : OptimizationContext) (image : StreamDict)
    (x : XRefTable) (m : Z) : Prop :=
  match ImageObjects o !! m with
  | Some im => equalStreamDicts (ImageDict im) image x = (false, None)
  | None => True
  end.

(** ** Sample documents with several equal candidates *)

Module Ties.

Definition helvetica_subset : Dict :=
  {[ "Type" := oName "Font"; "Subtype" := oName "Type1";
     "BaseFont" := oName "ABCDEF+Helvetica" ]}.

(** An optimizer that has registered three font objects under the name
    Helvetica, in this order: the subset font 12, which differs from the
    full font, and the full fonts 10 and 11, which are equal. *)
Definition fonts_optimizer : OptimizationContext :=
  mkOptimizationContext [Some {[ 10 := true; 11 := true; 12 := true ]}]
    {[ 10 := mkFontObject ["F1"] "" "Helvetica" Sample.helvetica;
       11 := mkFontObject ["F4"] "" "Helvetica" Sample.helvetica;
       12 := mkFontObject ["F0"] "ABCDEF" "Helvetica" helvetica_subset ]}
    {[ "Helvetica" := [12; 10; 11] ]} [None] ∅ ∅ ∅ ∅ ∅ ∅.

(** A document with these fonts; object 15 is one more full Helvetica. *)
Definition fonts_doc : Context :=
  mkContext (Sample.configuration OPTIMIZE)
    (Sample.xref {[ 0 := Sample.free_head; 1 := Sample.in_use (oDict ∅) 15;
                    10 := Sample.in_use (oDict Sample.helvetica) 100;
                    11 := Sample.in_use (oDict Sample.helvetica) 150;
                    12 := Sample.in_use (oDict helvetica_subset) 50;
                    15 := Sample.in_use (oDict Sample.helvetica) 200 ]} 16)
    (Some Sample.reader) (Some fonts_optimizer) (mkWriteContext 0 ∅ 0).

(** An optimizer that has registered the image objects 2, 3 and 7; 3 and 7
    have the same raw bytes, 2 has others. *)
Definition images_optimizer : OptimizationContext :=
  mkOptimizationContext [None] ∅ ∅ [Some ∅]
    {[ 2 := mkImageObject ["Im2"] (Sample.image [Byte.x00]);
       3 := mkImageObject ["Im3"] (Sample.image [Byte.x89; Byte.x50]);
       7 := mkImageObject ["Im7"] (Sample.image [Byte.x89; Byte.x50]) ]}
    ∅ ∅ ∅ ∅ ∅.

Definition images_doc : Context :=
  mkContext (Sample.configuration OPTIMIZE)
    (Sample.xref {[ 0 := Sample.free_head; 1 := Sample.in_use (oDict ∅) 15 ]} 10)
    (Some Sample.reader) (Some images_optimizer) (mkWriteContext 0 ∅ 0).

End Ties.

(** ** Reading the [Index] array of an xref stream *)

(** The [Index] array of a list of (start, count) pairs. *)
Definition index_array (pairs : list (Z * Z)) : Array :=
  concat ((fun p => [oInteger (fst p); oInteger (snd p)]) <$> pairs).

(** The object numbers that a list of (start, count) pairs stands for. *)
Definition index_objects (pairs : list (Z * Z)) : list Z :=
  concat ((fun p => seqZ (fst p) (snd p)) <$> pairs).

(** Consecutive runs are maximal: a run has at least one object number, and
    the next run does not start right after it. *)
Fixpoint runs_apart (pairs : list (Z * Z)) : Prop :=
  match pairs with
  | [] => True
  | (start, count) :: rest =>
      1 <= count /\
      match rest with
      | [] => True
      | (start', _) :: _ => start + count < start'
      end /\
      runs_apart rest
  end.

(** The pointer fields of an entry that [createXRefStream] dereferences. *)
Definition entry_complete (e : XRefTableEntry) : Prop :=
  if Free e then is_Some (Offset e) /\ is_Some (Generation e)
  else if Compressed e then is_Some (ObjectStream e) /\ is_Some (ObjectStreamInd e)
  else is_Some (Generation e).

(** An object number is a key of the xref section. *)
Definition writable (ctx : Context) (i : Z) : Prop :=
  exists e, Table (ctx_XRefTable ctx) !! i = Some e /\
    (Free e = true \/ HasWriteOffset (Write ctx) i = true).

(** ** The classical xref table (write.go) *)

(** A string of [n] bytes [c]. *)
Definition strings_Repeat (c : ascii) (n : nat) : string :=
  string_of_list_ascii (replicate n c).

(** [%0<width>d] of [fmt.Sprintf]: the decimal digits with zeros in front up
    to the width, which counts the sign of a negative number. *)
Definition fmt_0d (width : nat) (z : Z) : string :=
  if z <? 0 then
    "-" +:+ strings_Repeat "0" (width - 1 - String.length (itoa (- z))) +:+ itoa (- z)
  else strings_Repeat "0" (width - String.length (itoa z)) +:+ itoa z.

(** What [writeXRefTable] and the functions it calls hand to the writer, in
    order: a string for a call of [WriteString], [wEol] for a call of
    [WriteEol]. *)
Inductive written : Type :=
| wString (s : string)
| wEol.

Section XRefTableWriter.

Context `{Collaborators}.

(** The field [Eol] of the write context, which the record of the write
    context does not carry, and [utf8.RuneCountInString], which [%2s] pads
    by. *)
Variable Eol : WriteContext -> string.
Variable RuneCountInString : string -> nat.

(** [PDFString()] of the object model. *)
Variable PDFString : Object -> string.

(** [%<width>s] of [fmt.Sprintf]: spaces in front up to the width, which is
    counted in runes. *)
Definition fmt_s (width : nat) (s : string) : string :=
  strings_Repeat " " (width - RuneCountInString s) +:+ s.

(** [ctx.Write.WriteString(s)] and [ctx.Write.WriteEol()], with the call
    appended to the log of what was handed to the writer. *)
Definition log_WriteString (st : Context * list written) (s : string)
    : (Context * list written) * option error :=
  let '(w, err) := WriteString (Write (fst st)) s in
  ((with_Write (fst st) w, snd st ++ [wString s]), err).

Definition log_WriteEol (st : Context * list written)
    : (Context * list written) * option error :=
  let '(w, err) := WriteEol (Write (fst st)) in
  ((with_Write (fst st) w, snd st ++ [wEol]), err).

(** The line of [writeXRefSubsection] for object [i]. *)
Definition xrefTableLine (ctx : Context) (i : Z) (entry : XRefTableEntry) : option string :=
  if Free entry then
    off ← Offset entry; gen ← Generation entry;
    Some (fmt_0d 10 off +:+ " " +:+ fmt_0d 5 gen +:+ " f" +:+ fmt_s 2 (Eol (Write ctx)))
  else
    let off := default 0 (write_Table (Write ctx) !! i) in
    gen ← Generation entry;
    Some (fmt_0d 10 off +:+ " " +:+ fmt_0d 5 gen +:+ " n" +:+ fmt_s 2 (Eol (Write ctx))).

(** The loop of [writeXRefSubsection] over the object numbers
    [start .. start+size-1]. *)
Fixpoint writeXRefSubsection_loop (st : Context * list written) (objNrs : list Z)
    : option ((Context * list written) * option error) :=
  match objNrs with
  | [] => Some (st, None)
  | i :: rest =>
      entry ← Table (ctx_XRefTable (fst st)) !! i;
      if Compressed entry then
        Some (st, Some (errors_New "writeXRefSubsection: compressed entries present"))
      else
        s ← xrefTableLine (fst st) i entry;
        let '(st, err) := log_WriteString st s in
        match err with
        | Some err => Some (st, Some err)
        | None => writeXRefSubsection_loop st rest
        end
  end.

(** [writeXRefSubsection]. *)
Definition writeXRefSubsection (st : Context * list written) (start size : Z)
    : option ((Context * list written) * option error) :=
  let '(st, err) :=
    log_WriteString st (itoa start +:+ " " +:+ itoa size +:+ Eol (Write (fst st))) in
  match err with
  | Some err => Some (st, Some err)
  | None => writeXRefSubsection_loop st (seqZ start size)
  end.

(** The dict that [writeTrailerDict] builds. *)
Definition trailerDict (ctx : Context) : option Dict :=
  let xRefTable := ctx_XRefTable ctx in
  let dict : Dict := ∅ in
  size ← Size xRefTable;
  let dict := Dict_Insert dict "Size" (oInteger size) in
  root ← Root xRefTable;
  let dict := Dict_Insert dict "Root" (obj_of_ref root) in
  let dict :=
    match Info xRefTable with
    | Some info => Dict_Insert dict "Info" (obj_of_ref info)
    | None => dict
    end in
  let dict :=
    match Encrypt xRefTable, EncKey xRefTable with
    | Some enc, Some _ => Dict_Insert dict "Encrypt" (obj_of_ref enc)
    | _, _ => dict
    end in
  let dict :=
    match ID xRefTable with
    | Some id => Dict_Insert dict "ID" (oArray id)
    | None => dict
    end in
  Some dict.

(** [writeTrailerDict]. *)
Definition writeTrailerDict (st : Context * list written)
    : option ((Context * list written) * option error) :=
  let '(st, err) := log_WriteString st "trailer" in
  match err with
  | Some err => Some (st, Some err)
  | None =>
  let '(st, err) := log_WriteEol st in
  match err with
  | Some err => Some (st, Some err)
  | None =>
  dict ← trailerDict (fst st);
  let '(st, err) := log_WriteString st (PDFString (oDict dict)) in
  Some (st, err)
  end end.

(** The loop of [writeXRefTable] over [keys[1:]]; [prev] is [keys[i-1]].
    It returns the run that is still open. *)
Fixpoint writeXRefTable_loop (st : Context * list written) (prev : Z) (keys : list Z)
    (start size : Z) : option ((Context * list written) * outcome (Z * Z)) :=
  match keys with
  | [] => Some (st, Done (start, size))
  | k :: rest =>
      if 1 <? k - prev then
        '(st, err) ← writeXRefSubsection st start size;
        match err with
        | Some err => Some (st, Failed err)
        | None => writeXRefTable_loop st k rest k 1
        end
      else writeXRefTable_loop st k rest start (size + 1)
  end.

(** The writes that end [writeXRefTable], after the trailer dict. *)
Definition log_writeStartXRef (st : Context * list written)
    : (Context * list written) * option error :=
  let '(st, err) := log_WriteEol st in
  match err with
  | Some err => (st, Some err)
  | None =>
  let '(st, err) := log_WriteString st "startxref" in
  match err with
  | Some err => (st, Some err)
  | None =>
  let '(st, err) := log_WriteEol st in
  match err with
  | Some err => (st, Some err)
  | None =>
  let '(st, err) := log_WriteString st (itoa (write_Offset (Write (fst st)))) in
  match err with
  | Some err => (st, Some err)
  | None => log_WriteEol st
  end end end end.

(** [writeXRefTable]. *)
Definition writeXRefTable (st : Context * list written)
    : option ((Context * list written) * option error) :=
  let '(x, err) := EnsureValidFreeList (ctx_XRefTable (fst st)) in
  let st := (with_XRefTable (fst st) x, snd st) in
  match err with
  | Some err => Some (st, Some err)
  | None =>
  let keys := sortedWritableKeys (fst st) in
  let '(st, err) := log_WriteString st "xref" in
  match err with
  | Some err => Some (st, Some err)
  | None =>
  let '(st, err) := log_WriteEol st in
  match err with
  | Some err => Some (st, Some err)
  | None =>
  start ← head keys;
  '(st, r) ← writeXRefTable_loop st start (tail keys) start 1;
  match r with
  | Failed err => Some (st, Some err)
  | Done (start, size) =>
  '(st, err) ← writeXRefSubsection st start size;
  match err with
  | Some err => Some (st, Some err)
  | None =>
  '(st, err) ← writeTrailerDict st;
  match err with
  | Some err => Some (st, Some err)
  | None => Some (log_writeStartXRef st)
  end end end end end end.

(** *** Notions the properties of the xref table are stated with *)

(** The writer only appends output: a call leaves the end-of-line sequence
    and the recorded write offsets of the write context as they are. *)
Definition steady_writer : Prop :=
  (forall w s, Eol (fst (WriteString w s)) = Eol w /\
               write_Table (fst (WriteString w s)) = write_Table w) /\
  (forall w, Eol (fst (WriteEol w)) = Eol w /\
             write_Table (fst (WriteEol w)) = write_Table w).

(** The writer does not move [ctx.Write.Offset], which the callers advance. *)
Definition writer_keeps_offset : Prop :=
  (forall w s, write_Offset (fst (WriteString w s)) = write_Offset w) /\
  (forall w, write_Offset (fst (WriteEol w)) = write_Offset w).

(** The state shows the xref table, the end-of-line sequence and the write
    offsets of [ctx]. *)
Definition same_view (ctx : Context) (st : Context * list written) : Prop :=
  ctx_XRefTable (fst st) = ctx_XRefTable ctx /\
  Eol (Write (fst st)) = Eol (Write ctx) /\
  write_Table (Write (fst st)) = write_Table (Write ctx).

(** [s] is the line of object [i], whose entry is not compressed. *)
Definition xrefTable_line (ctx : Context) (i : Z) (s : string) : Prop :=
  exists entry, Table (ctx_XRefTable ctx) !! i = Some entry /\
    Compressed entry = false /\ xrefTableLine ctx i entry = Some s.

(** A subsection of the xref table: the line "start count" and the lines of
    the object numbers of the run. *)
Definition xrefTable_section (ctx : Context) (p : Z * Z) (section : list written) : Prop :=
  exists lines,
    Forall2 (xrefTable_line ctx) (seqZ (fst p) (snd p)) lines /\
    section = wString (itoa (fst p) +:+ " " +:+ itoa (snd p) +:+ Eol (Write ctx))
              :: (wString <$> lines).

End XRefTableWriter.

(** ** Sample documents and writers for the properties below *)

Module Cases.

(** The end-of-line sequences: line feed, and carriage return with line
    feed. *)
Definition lf : string := String (ascii_of_nat 10) EmptyString.
Definition crlf : string := String (ascii_of_nat 13) lf.

(** A serialization that only names the variant of the object. *)
Definition variant_name (o : Object) : string :=
  match o with
  | oNil => "null"
  | oBoolean _ => "bool"
  | oInteger z => itoa z
  | oFloat _ => "float"
  | oName s => "/" +:+ s
  | oStringLiteral s => "(" +:+ s +:+ ")"
  | oHexLiteral s => "<" +:+ s +:+ ">"
  | oArray _ => "[]"
  | oDict _ => "<<>>"
  | oStreamDict _ => "stream"
  | oIndirectRef n g => itoa n +:+ " " +:+ itoa g +:+ " R"
  end.

(** A document whose objects 1, 2 and 5 were written; object 3 was not. *)
Definition gap_doc : Context :=
  mkContext (Sample.configuration OPTIMIZE)
    (Sample.xref {[ 0 := Sample.free_head; 1 := Sample.in_use (oDict ∅) 15;
                    2 := Sample.in_use (oDict Sample.helvetica) 70;
                    3 := Sample.in_use (oDict Sample.helvetica) 130;
                    5 := Sample.in_use (oInteger 7) 190 ]} 6)
    (Some Sample.reader) (Some Sample.optimizer)
    (mkWriteContext 300 {[ 1 := 15; 2 := 60; 5 := 120 ]} 0).

End Cases.

(** ** Notions for the deletion of redundant objects *)

(** What deleting the objects [deleted] may do to an xref table: the size
    and the object numbers of the table stay, a free entry stays free, and
    the entry of an object in use that is not among [deleted] stays as it
    is. *)
Definition frees_only (x x' : XRefTable) (deleted : list Z) : Prop :=
  Size x' = Size x /\
  (forall k, Table x' !! k = None <-> Table x !! k = None) /\
  (forall k e, Table x !! k = Some e -> Free e = true ->
     exists e', Table x' !! k = Some e' /\ Free e' = true) /\
  (forall k e, Table x !! k = Some e -> Free e = false -> k ∉ deleted ->
     Table x' !! k = Some e).

(** The reasons for which [deleteRedundantObject] deletes object [i]. *)
Definition redundant (ctx : Context) (o : OptimizationContext) (r : ReadContext) (i : Z)
    : bool :=
  (ExtractPageNr (Write ctx) =? 0)
    && (IsDuplicateFontObject o i || IsDuplicateImageObject o i)
  || IsLinearizationObject (ctx_XRefTable ctx) i || IsDuplicateInfoObject o i
  || IsObjectStreamObject r i || IsXRefStreamObject r i.

(** The entry is a hint table of a linearized input: a stream dict at the
    offset of the primary or of the overflow hint table. *)
Definition hint_table (ctx : Context) (r : ReadContext) (entry : XRefTableEntry) : bool :=
  Linearized r &&
  match Offset entry, entry_Object entry with
  | Some off, oStreamDict _ =>
      bool_decide (OffsetPrimaryHintTable (ctx_XRefTable ctx) = Some off)
      || bool_decide (OffsetOverflowHintTable (ctx_XRefTable ctx) = Some off)
  | _, _ => false
  end.

(** Object [i], with the entry [entry], is due for deletion in [ctx]. *)
Definition due (ctx : Context) (i : Z) (entry : XRefTableEntry) : Prop :=
  exists o r,
    Optimize ctx = Some o /\ Read ctx = Some r /\
    Table (ctx_XRefTable ctx) !! i = Some entry /\
    (redundant ctx o r i = true \/ hint_table ctx r entry = true).

(** ** Filling an object stream (stream-dict source file) *)

(** [NewObjectStreamDict]. *)
Definition NewObjectStreamDict : ObjectStreamDict :=
  let streamDict := mkStreamDict ∅ 0 None None [] [] [] false in
  let streamDict := sd_Insert streamDict "Type" (oName "ObjStm") in
  let streamDict := sd_Insert streamDict "Filter" (oName filter_Flate) in
  let streamDict :=
    mkStreamDict (sd_Dict streamDict) (StreamOffset streamDict) (StreamLength streamDict)
      (StreamLengthObjNr streamDict) [mkPDFFilter filter_Flate None] (Raw streamDict)
      (Content streamDict) (IsPageContent streamDict) in
  mkObjectStreamDict streamDict [] 0 0 None.

(** [HasSoleFilterNamed]. *)
Definition HasSoleFilterNamed (streamDict : StreamDict) (filterName : string) : bool :=
  match FilterPipeline streamDict with
  | [soleFilter] => String.eqb (filter_Name soleFilter) filterName
  | _ => false
  end.

Section ObjectStreamNotions.

Variable PDFString : Object -> string.

(** [AddObject] for each object of a list in turn, up to the first error. *)
Fixpoint AddObjects (os : ObjectStreamDict) (objs : list (Z * XRefTableEntry))
    : ObjectStreamDict * option error :=
  match objs with
  | [] => (os, None)
  | (objNumber, entry) :: rest =>
      let '(os, err) := AddObject PDFString os objNumber entry in
      match err with
      | Some err => (os, Some err)
      | None => AddObjects os rest
      end
  end.

(** The bytes an object is serialized to. *)
Definition serialized (p : Z * XRefTableEntry) : list Byte.byte :=
  bytes_of (PDFString (entry_Object (snd p))).

(** The pairs of object number and offset that belong to a list of objects
    whose first one is put at [offset]. *)
Fixpoint prolog_pairs (offset : nat) (objs : list (Z * XRefTableEntry)) : list (Z * Z) :=
  match objs with
  | [] => []
  | p :: rest =>
      (fst p, Z.of_nat offset) :: prolog_pairs (offset + length (serialized p)) rest
  end.

End ObjectStreamNotions.

(** The pairs written one after the other, separated by a space; [count] is
    the number of pairs that precede them. *)
Fixpoint prolog_string (count : Z) (pairs : list (Z * Z)) : string :=
  match pairs with
  | [] => EmptyString
  | (objNumber, offset) :: rest =>
      (if 0 <? count then " " else "") +:+ itoa objNumber +:+ " " +:+ itoa offset
      +:+ prolog_string (count + 1) rest
  end.

(** The objects that [AddObject] serializes. *)
Definition packable (o : Object) : Prop :=
  variant_of o ∈
    [VDict; VArray; VInteger; VFloat; VStringLiteral; VHexLiteral; VBoolean; VName].

(** ** Writing the encryption dict (write.go) *)

Section EncryptDictWriter.

Context `{Collaborators}.

(** [PDFString()] of the object model and [writeObject], whose sources are
    not embedded. *)
Variable PDFString : Object -> string.
Variable writeObject : Context -> Z -> Z -> string -> Context * option error.

(** [writeEncryptDict]. *)
Definition writeEncryptDict (ctx : Context) : option (Context * option error) :=
  match Encrypt (ctx_XRefTable ctx), EncKey (ctx_XRefTable ctx) with
  | Some indRef, Some _ =>
      let objNumber := ObjectNumber indRef in
      let genNumber := GenerationNumber indRef in
      match DereferenceDict (ctx_XRefTable ctx) (obj_of_ref indRef) with
      | (_, Some err) => Some (ctx, Some err)
      | (dict, None) =>
          dict ← dict;
          Some (writeObject ctx objNumber genNumber (PDFString (oDict dict)))
      end
  | _, _ => Some (ctx, None)
  end.

End EncryptDictWriter.

(** ** Notions for the font resources *)


Section FontSteps.

Context `{Collaborators}.



End FontSteps.

(** * Properties *)

(** ** Helper lemmas *)

Lemma length_bytes_of (s : string) : length (bytes_of s) = String.length s.
Proof.
  unfold bytes_of, list_byte_of_string. rewrite length_map.
  induction s as [|a s IH]; simpl; [done | by rewrite IH].
Qed.

Lemma string_length_app (s t : string) :
  String.length (s +:+ t) = (String.length s + String.length t)%nat.
Proof. induction s as [|a s IH]; simpl; [done | by rewrite IH]. Qed.

(** ** Object streams *)

(** C10: [AddObject] is not atomic on error.  For an entry whose object is
    not a Dict, Array, Integer, Float, StringLiteral, HexLiteral, Boolean or
    Name, the call returns an error; the prolog has already been extended by
    the pair "objNr offset" (after a space when the stream holds objects, and
    with the length of the content before the call as offset), while the
    content and the object count are unchanged. *)
Theorem AddObject_error_extends_prolog (PDFString : Object -> string)
    (oStreamDict : ObjectStreamDict) (objNumber : Z) (entry : XRefTableEntry) :
  variant_of (entry_Object entry) ∉
    [VDict; VArray; VInteger; VFloat; VStringLiteral; VHexLiteral; VBoolean; VName] ->
  let r := AddObject PDFString oStreamDict objNumber entry in
  let pair := itoa objNumber +:+ " "
              +:+ itoa (Z.of_nat (length (Content (os_StreamDict oStreamDict)))) in
  is_Some (snd r) /\
  Prolog (fst r) =
    Prolog oStreamDict
    ++ bytes_of ((if bool_decide (0 < ObjCount oStreamDict) then " " else "") +:+ pair) /\
  (length (Prolog oStreamDict) < length (Prolog (fst r)))%nat /\
  os_StreamDict (fst r) = os_StreamDict oStreamDict /\
  Content (os_StreamDict (fst r)) = Content (os_StreamDict oStreamDict) /\
  ObjCount (fst r) = ObjCount oStreamDict.
Proof.
  intros Hvar r pair.
  assert (Hsep : (if 0 <? ObjCount oStreamDict then " " else "")
                 = (if bool_decide (0 < ObjCount oStreamDict) then " " else "")).
  { case_bool_decide; destruct (Z.ltb_spec 0 (ObjCount oStreamDict)); done || lia. }
  subst r. unfold AddObject. rewrite Hsep.
  destruct (entry_Object entry); simpl in Hvar |- *;
    try (exfalso; apply Hvar; set_solver);
    (split; [by eexists|]); (split; [done|]);
    (split; [|done]);
    rewrite length_app, length_bytes_of, !string_length_app; simpl; lia.
Qed.

(** A stream dict is refused by an object stream that already holds an
    object: the prolog grows by " 7 3". *)
Lemma AddObject_error_extends_prolog_witness :
  let o := mkObjectStreamDict
             (mkStreamDict ∅ 0 None None [] [] (bytes_of "4 0") false)
             (bytes_of "5 0") 1 0 None in
  let entry := mkEntry false None (Some 0)
                 (oStreamDict (mkStreamDict ∅ 0 None None [] [] [] false)) false None None in
  let r := AddObject (fun _ => "") o 7 entry in
  is_Some (snd r) /\ Prolog (fst r) = bytes_of "5 0 7 3" /\ ObjCount (fst r) = 1.
Proof.
  intros o entry r.
  destruct (AddObject_error_extends_prolog (fun _ => "") o 7 entry) as (He & Hp & _ & _ & _ & Hc).
  { vm_compute. intros Hin. repeat (inversion Hin as [|? ? ? Hin']; clear Hin; rename Hin' into Hin). }
  subst r. split; [exact He|]. split; [rewrite Hp; reflexivity | exact Hc].
Defined.

(** ** File ID *)

(** C8: [ensureFileID], when [fileID] yields the digest [fid].  A nil
    [ctx.ID] becomes the two-element array [fid; fid].  An array of exactly
    two elements keeps element 0 and gets [fid] as element 1.  An array of any
    other length gives an error and the context is not modified.  Nothing but
    [ctx.ID] changes in any case. *)
Theorem ensureFileID_two_elements `{Collaborators} (ctx : Context) (fid : Object) :
  fileID ctx = (fid, None) ->
  let ctx' := fst (ensureFileID ctx) in
  let err := snd (ensureFileID ctx) in
  (ID (ctx_XRefTable ctx) = None ->
     err = None /\ ID (ctx_XRefTable ctx') = Some [fid; fid]) /\
  (forall arr, ID (ctx_XRefTable ctx) = Some arr -> length arr = 2%nat ->
     err = None /\
     exists arr', ID (ctx_XRefTable ctx') = Some arr' /\ length arr' = 2%nat /\
       arr' !! 0%nat = arr !! 0%nat /\ arr' !! 1%nat = Some fid) /\
  (forall arr, ID (ctx_XRefTable ctx) = Some arr -> length arr <> 2%nat ->
     is_Some err /\ ctx' = ctx) /\
  ctx' = with_XRefTable ctx (with_ID (ctx_XRefTable ctx) (ID (ctx_XRefTable ctx'))).
Proof.
  intros Hfid ctx' err. subst ctx' err. unfold ensureFileID. rewrite Hfid.
  destruct ctx as [c x r o w], x as [t sz pc rt inf id en e ek ph oh lo op]; simpl.
  destruct id as [arr|]; simpl.
  - destruct (Z.eqb_spec (Z.of_nat (length arr)) 2) as [Hlen|Hlen]; simpl.
    + split; [done|]. split; [|split; [|done]].
      * intros ? [= <-] _. split; [done|].
        exists (<[1%nat:=fid]> arr). split; [done|].
        rewrite length_insert. split; [lia|].
        split; [by rewrite list_lookup_insert_ne | apply list_lookup_insert_eq; lia].
      * intros ? [= <-] Hne. lia.
    + split; [done|]. split; [|split; [|done]].
      * intros ? [= <-] Hl. lia.
      * intros ? [= <-] _. split; [by eexists | done].
  - split; [done|]. split; [done|]. split; done.
Qed.

(** An existing File ID keeps its first element. *)
Lemma ensureFileID_two_elements_witness :
  let ctx := with_XRefTable Sample.written_doc
               (with_ID (ctx_XRefTable Sample.written_doc)
                  (Some [oHexLiteral "aa"; oHexLiteral "bb"])) in
  snd (ensureFileID ctx) = None /\
  exists arr', ID (ctx_XRefTable (fst (ensureFileID ctx))) = Some arr' /\
    arr' !! 0%nat = Some (oHexLiteral "aa") /\
    arr' !! 1%nat = Some (oHexLiteral "0f1e2d3c4b5a69788796a5b4c3d2e1f0").
Proof.
  intros ctx.
  assert (Hfid : fileID ctx = (oHexLiteral "0f1e2d3c4b5a69788796a5b4c3d2e1f0", None))
    by reflexivity.
  destruct (ensureFileID_two_elements ctx _ Hfid) as (_ & Htwo & _ & _).
  assert (Hid0 : ID (ctx_XRefTable ctx) = Some [oHexLiteral "aa"; oHexLiteral "bb"])
    by reflexivity.
  destruct (Htwo _ Hid0 eq_refl) as (Herr & arr' & Hid & _ & H0 & H1).
  split; [exact Herr|]. exists arr'. split; [exact Hid|]. split; [exact H0 | exact H1].
Defined.

(** ** Redundant objects *)

Lemma DeleteObject_lookup_other (x : XRefTable) (i j : Z) (e : XRefTableEntry) :
  Table x !! i = Some e -> Free e = false -> j <> i ->
  Table (DeleteObject j x) !! i = Some e.
Proof.
  intros Hi Hfree Hne. unfold DeleteObject.
  destruct (Table x !! 0) as [head|] eqn:Hhead; [|done].
  destruct (Table x !! j) as [entry|] eqn:Hj; [|done].
  destruct (Free head) eqn:Hfh; simpl; [|done].
  destruct (Free entry); simpl; [done|].
  destruct (decide (i = 0)) as [->|Hi0]; [congruence|].
  rewrite lookup_insert_ne by done. by rewrite lookup_insert_ne.
Qed.

Lemma DeleteObject_idempotent (x : XRefTable) (j : Z) :
  DeleteObject j (DeleteObject j x) = DeleteObject j x.
Proof.
  unfold DeleteObject at 2.
  destruct (Table x !! 0) as [head|] eqn:Hhead; [|unfold DeleteObject; by rewrite Hhead].
  destruct (Table x !! j) as [entry|] eqn:Hj;
    [|unfold DeleteObject; by rewrite Hhead, Hj].
  destruct (Free head) eqn:Hfh; simpl;
    [|unfold DeleteObject; by rewrite Hhead, Hj, Hfh].
  destruct (Free entry) eqn:Hfe; simpl;
    [unfold DeleteObject; by rewrite Hhead, Hj, Hfh, Hfe|].
  assert (j <> 0) by congruence.
  unfold DeleteObject; simpl.
  rewrite lookup_insert_eq, lookup_insert_ne, lookup_insert_eq by done. simpl.
  rewrite Hhead, Hj, Hfh, Hfe. done.
Qed.

Lemma DeleteObject_frame (x : XRefTable) (j : Z) :
  DeleteObject j x = with_Table x (Table (DeleteObject j x)).
Proof.
  unfold DeleteObject. destruct x; simpl.
  repeat case_match; done.
Qed.

(** The state after [deleteRedundantObject] when the optimizer and reader
    contexts are present. *)
Lemma deleteRedundantObject_eq (st : Context * list Z) (j : Z)
    (o : OptimizationContext) (r : ReadContext) :
  Optimize (fst st) = Some o -> Read (fst st) = Some r ->
  let x := ctx_XRefTable (fst st) in
  let dedup := (ExtractPageNr (Write (fst st)) =? 0)
               && (IsDuplicateFontObject o j || IsDuplicateImageObject o j) in
  let other := IsLinearizationObject x j || IsDuplicateInfoObject o j
               || IsObjectStreamObject r j || IsXRefStreamObject r j in
  deleteRedundantObject st j =
    Some (if dedup || other then with_XRefTable (fst st) (DeleteObject j x) else fst st,
          snd st ++ (if dedup then [j] else []) ++ (if other then [j] else [])).
Proof.
  intros Ho Hr x dedup other. subst x dedup other.
  destruct st as [ctx log]; simpl in *.
  unfold deleteRedundantObject, call_DeleteObject, with_XRefTable; simpl.
  rewrite Ho; simpl.
  assert (Hlin : forall y, IsLinearizationObject (DeleteObject j y) j = IsLinearizationObject y j).
  { intros y. rewrite (DeleteObject_frame y j). by destruct y. }
  destruct (ExtractPageNr (Write ctx) =? 0); simpl.
  - destruct (IsDuplicateFontObject o j || IsDuplicateImageObject o j) eqn:Hd; simpl.
    + rewrite ?Ho, ?Hr, Hlin; simpl.
      destruct (IsLinearizationObject (ctx_XRefTable ctx) j); simpl.
      { rewrite DeleteObject_idempotent. by rewrite <- app_assoc. }
      destruct (IsDuplicateInfoObject o j); simpl.
      { rewrite DeleteObject_idempotent. by rewrite <- app_assoc. }
      destruct (IsObjectStreamObject r j || IsXRefStreamObject r j); simpl.
      { rewrite DeleteObject_idempotent. by rewrite <- app_assoc. }
      by rewrite ?app_nil_r.
    + rewrite ?Ho, ?Hr.
      destruct (IsLinearizationObject (ctx_XRefTable ctx) j); simpl; [done|].
      destruct (IsDuplicateInfoObject o j); simpl; [done|].
      destruct (IsObjectStreamObject r j || IsXRefStreamObject r j); simpl; [done|].
      by rewrite ?app_nil_r.
  - rewrite ?Ho, ?Hr.
    destruct (IsLinearizationObject (ctx_XRefTable ctx) j); simpl; [done|].
    destruct (IsDuplicateInfoObject o j); simpl; [done|].
    destruct (IsObjectStreamObject r j || IsXRefStreamObject r j); simpl; [done|].
    by rewrite ?app_nil_r.
Qed.

Lemma DeleteObject_frees (x : XRefTable) (i : Z) (head e : XRefTableEntry) :
  Table x !! 0 = Some head -> Free head = true ->
  Table x !! i = Some e -> Free e = false ->
  exists e', Table (DeleteObject i x) !! i = Some e' /\ Free e' = true.
Proof.
  intros Hhead Hfh Hi Hfe. unfold DeleteObject. rewrite Hhead, Hi, Hfh, Hfe; simpl.
  assert (i <> 0) by congruence.
  rewrite lookup_insert_ne, lookup_insert_eq by done. by eexists.
Qed.

(** C2, as the specification states it, fails: with [ExtractPageNr == 0] the
    object 5 of the sample document, which was not written, is not free and is
    a potential font duplicate and nothing else, is passed to [DeleteObject]
    and ends up free. *)
Lemma deleteRedundantObject_zero_counterexample :
  ExtractPageNr (Write Sample.written_doc) = 0 /\
  HasWriteOffset (Write Sample.written_doc) 5 = false /\
  (exists e, Find (ctx_XRefTable Sample.written_doc) 5 = Some e /\ Free e = false) /\
  (exists o r, Optimize Sample.written_doc = Some o /\ Read Sample.written_doc = Some r /\
     IsDuplicateFontObject o 5 = true /\
     IsLinearizationObject (ctx_XRefTable Sample.written_doc) 5 = false /\
     IsDuplicateInfoObject o 5 = false /\
     IsObjectStreamObject r 5 = false /\ IsXRefStreamObject r 5 = false) /\
  exists ctx',
    deleteRedundantObject (Sample.written_doc, []) 5 = Some (ctx', [5]) /\
    exists e', Find (ctx_XRefTable ctx') 5 = Some e' /\ Free e' = true.
Proof.
  split; [reflexivity|]. split; [reflexivity|].
  split; [eexists; split; reflexivity|].
  split; [do 2 eexists; repeat split; reflexivity|].
  eexists. split; [vm_compute; reflexivity|].
  eexists. split; vm_compute; reflexivity.
Qed.

(** C2, amended: [deleteRedundantObject] with the optimizer and reader
    contexts present.  The deletion of a potential font or image duplicate is
    suppressed when [ExtractPageNr != 0]: an object that is nothing else is
    then left alone.  When [ExtractPageNr == 0] a potential font or image
    duplicate is passed to [DeleteObject].  Linearization objects, duplicate
    Info objects and the object-stream and xref-stream objects of the input
    are passed to [DeleteObject] whatever [ExtractPageNr] is. *)
Theorem deleteRedundantObject_policy (st : Context * list Z) (i : Z)
    (o : OptimizationContext) (r : ReadContext) :
  Optimize (fst st) = Some o -> Read (fst st) = Some r ->
  let x := ctx_XRefTable (fst st) in
  let duplicate := IsDuplicateFontObject o i || IsDuplicateImageObject o i in
  let other := IsLinearizationObject x i || IsDuplicateInfoObject o i
               || IsObjectStreamObject r i || IsXRefStreamObject r i in
  exists ctx' log',
    deleteRedundantObject st i = Some (ctx', log') /\
    (ExtractPageNr (Write (fst st)) <> 0 -> other = false ->
       ctx' = fst st /\ log' = snd st) /\
    (ExtractPageNr (Write (fst st)) = 0 -> duplicate = true ->
       i ∈ log' /\ ctx' = with_XRefTable (fst st) (DeleteObject i x)) /\
    (other = true ->
       i ∈ log' /\ ctx' = with_XRefTable (fst st) (DeleteObject i x)).
Proof.
  intros Ho Hr x duplicate other.
  rewrite (deleteRedundantObject_eq st i o r Ho Hr).
  fold x. fold duplicate. fold other.
  do 2 eexists. split; [reflexivity|].
  split; [|split].
  - intros Hne Hother. rewrite Hother.
    destruct (Z.eqb_spec (ExtractPageNr (Write st.1)) 0) as [?|_]; [done|]. simpl.
    by rewrite app_nil_r.
  - intros Hz Hdup. rewrite Hz, Hdup. simpl. split; [set_solver | done].
  - intros Hother. rewrite Hother, orb_true_r. split; [set_solver | done].
Qed.

(** While page 3 is extracted, the potential font duplicate 5 is left alone. *)
Lemma deleteRedundantObject_policy_witness :
  deleteRedundantObject (Sample.extract_doc, []) 5 = Some (Sample.extract_doc, []).
Proof.
  destruct (deleteRedundantObject_policy (Sample.extract_doc, []) 5
              (with_DuplicateObjs Sample.optimizer {[ 2 := true; 5 := true ]} ∅ ∅)
              Sample.reader eq_refl eq_refl)
    as (ctx' & log' & Heq & Hsuppressed & _ & _).
  destruct Hsuppressed as [-> ->]; [vm_compute; discriminate | reflexivity |].
  exact Heq.
Defined.

Lemma markHintTable_frame (ctx ctx' : Context) (i : Z) (entry : XRefTableEntry) :
  markHintTable ctx i entry = Some ctx' ->
  Table (ctx_XRefTable ctx') = Table (ctx_XRefTable ctx) /\
  Write ctx' = Write ctx /\ Optimize ctx' = Optimize ctx /\ Read ctx' = Read ctx.
Proof.
  unfold markHintTable. intros Hm.
  destruct (Read ctx) as [r|] eqn:Hr; simpl in Hm; [|done].
  destruct (Linearized r); [|by inversion Hm; subst].
  destruct (Offset entry) as [off|]; [|by inversion Hm; subst].
  destruct (entry_Object entry); try by (inversion Hm; subst).
  destruct (OffsetPrimaryHintTable (ctx_XRefTable ctx)) as [primary|] eqn:Hp;
    simpl in Hm; [|done].
  inversion Hm; subst; clear Hm. destruct ctx as [c x r' o w]; simpl in *.
  repeat split; repeat case_match; done.
Qed.






(** ** Xref stream *)

Lemma byteCount_step (i : Z) :
  byteCount i = if decide (0 < i) then byteCount (Z.shiftr i 8) + 1 else 0.
Proof. funelim (byteCount i); rewrite Heq; done. Qed.

Lemma low_bytes_step (k : Z) :
  low_bytes k = if decide (0 < k)
                then byte_of_Z (Z.land k 255) :: low_bytes (Z.shiftr k 8) else [].
Proof. funelim (low_bytes k); rewrite Heq; done. Qed.

Lemma byteCount_nonpos (i : Z) : i <= 0 -> byteCount i = 0.
Proof. intros Hi. rewrite byteCount_step. case_decide; [lia | done]. Qed.

Lemma shiftr8_div (i : Z) : Z.shiftr i 8 = i / 256.
Proof. rewrite Z.shiftr_div_pow2 by lia. done. Qed.

Lemma byteCount_nonneg (i : Z) : 0 <= byteCount i.
Proof.
  funelim (byteCount i); lia.
Qed.

Lemma pow256_succ (k : Z) : 0 <= k -> 256 ^ (k + 1) = 256 * 256 ^ k.
Proof. intros Hk. rewrite Z.pow_add_r by lia. lia. Qed.

(** [byteCount i] is the number of base-256 digits of a positive [i]. *)
Lemma byteCount_bounds (i : Z) :
  0 < i -> 1 <= byteCount i /\ 256 ^ (byteCount i - 1) <= i < 256 ^ byteCount i.
Proof.
  funelim (byteCount i); [|lia]. intros _. clear Heqcall Heq.
  rewrite shiftr8_div in *.
  pose proof (Z.div_mod i 256 ltac:(lia)) as Hdm.
  pose proof (Z.mod_pos_bound i 256 ltac:(lia)) as Hmod.
  destruct (decide (0 < i / 256)) as [Hq|Hq].
  - destruct (H Hq) as (Hk & Hlo & Hhi).
    set (k := byteCount (i / 256)) in *.
    replace (k + 1 - 1) with ((k - 1) + 1) by lia.
    rewrite !pow256_succ by lia.
    split; [lia|]. split; lia.
  - assert (Hz : i / 256 = 0) by (pose proof (Z.div_pos i 256); lia).
    rewrite Hz, byteCount_nonpos by lia. simpl. lia.
Qed.

Lemma pow256_mono (a b : Z) : 0 <= a <= b -> 256 ^ a <= 256 ^ b.
Proof. intros. apply Z.pow_le_mono_r; lia. Qed.

(** The number of base-256 digits is determined by its bounds. *)
Lemma digits256_unique (m k1 k2 : Z) :
  1 <= k1 -> 1 <= k2 ->
  256 ^ (k1 - 1) <= m < 256 ^ k1 -> 256 ^ (k2 - 1) <= m < 256 ^ k2 -> k1 = k2.
Proof.
  intros H1 H2 [Hl1 Hh1] [Hl2 Hh2].
  destruct (Z.lt_trichotomy k1 k2) as [Hlt|[Heq|Hgt]]; [|done|].
  - pose proof (pow256_mono k1 (k2 - 1) ltac:(lia)). lia.
  - pose proof (pow256_mono k2 (k1 - 1) ltac:(lia)). lia.
Qed.

(** [ceil_log256] is the ceiling of the logarithm to base 256. *)
Lemma ceil_log256_spec (n : Z) :
  1 < n -> 1 <= ceil_log256 n /\ 256 ^ (ceil_log256 n - 1) < n <= 256 ^ ceil_log256 n.
Proof.
  intros Hn. unfold ceil_log256.
  pose proof (Z.log2_up_spec n Hn) as [Hlo Hhi].
  pose proof (Z.log2_up_pos n Hn) as Hpos.
  set (L := Z.log2_up n) in *.
  pose proof (Z.div_mod (L + 7) 8 ltac:(lia)) as Hdm.
  pose proof (Z.mod_pos_bound (L + 7) 8 ltac:(lia)) as Hmod.
  set (c := (L + 7) / 8) in *.
  assert (Hc : 1 <= c) by lia.
  assert (H256 : forall k, 0 <= k -> 256 ^ k = 2 ^ (8 * k)).
  { intros k Hk. rewrite Z.pow_mul_r by lia. done. }
  rewrite !H256 by lia.
  split; [done|]. split.
  - eapply Z.le_lt_trans; [|exact Hlo].
    apply Z.pow_le_mono_r; lia.
  - etransitivity; [exact Hhi|]. apply Z.pow_le_mono_r; lia.
Qed.

(** [byteCount m] is [ceil(log256(m + 1))]. *)
Lemma byteCount_ceil_log256 (m : Z) : 0 <= m -> byteCount m = ceil_log256 (m + 1).
Proof.
  intros Hm. destruct (decide (m = 0)) as [->|Hne].
  - by rewrite byteCount_nonpos.
  - destruct (byteCount_bounds m ltac:(lia)) as (Hk & Hb).
    destruct (ceil_log256_spec (m + 1) ltac:(lia)) as (Hc & Hcb).
    apply (digits256_unique m); [done | done | done | lia].
Qed.

Lemma Z_of_byte_of_Z (z : Z) : Z_of_byte (byte_of_Z z) = z mod 256.
Proof.
  unfold Z_of_byte, byte_of_Z.
  change 255 with (Z.ones 8). rewrite Z.land_ones by lia. change (2 ^ 8) with 256.
  pose proof (Z.mod_pos_bound z 256 ltac:(lia)) as Hb.
  destruct (Byte.of_N (Z.to_N (z mod 256))) as [b|] eqn:Hof; simpl.
  - apply Byte.to_of_N in Hof. rewrite Hof. lia.
  - apply Byte.of_N_None_iff in Hof. lia.
Qed.

Lemma be_value_snoc (bs : list Byte.byte) (b : Byte.byte) :
  be_value (bs ++ [b]) = be_value bs * 256 + Z_of_byte b.
Proof. unfold be_value. by rewrite fold_left_app. Qed.

Lemma be_value_zeros (n : nat) (bs : list Byte.byte) :
  be_value (replicate n Byte.x00 ++ bs) = be_value bs.
Proof.
  unfold be_value. rewrite fold_left_app. f_equal.
  induction n as [|n IH]; simpl; [done | exact IH].
Qed.

Lemma low_bytes_length (k : Z) : Z.of_nat (length (low_bytes k)) = byteCount k.
Proof.
  funelim (low_bytes k).
  - rewrite (byteCount_step k). rewrite decide_True by done.
    simpl length. rewrite Nat2Z.inj_succ, H. lia.
  - rewrite byteCount_nonpos by lia. done.
Qed.

Lemma low_bytes_value (k : Z) : be_value (rev (low_bytes k)) = Z.max 0 k.
Proof.
  funelim (low_bytes k).
  - simpl rev. rewrite be_value_snoc, H, Z_of_byte_of_Z, shiftr8_div.
    change 255 with (Z.ones 8). rewrite Z.land_ones by lia. change (2 ^ 8) with 256.
    rewrite Z.mod_mod by lia.
    pose proof (Z.div_mod k 256 ltac:(lia)).
    pose proof (Z.div_pos k 256 ltac:(lia) ltac:(lia)). lia.
  - simpl. unfold be_value; simpl. lia.
Qed.

(** [int64ToBuf] gives at least [byteCount] bytes, and more only when the
    value needs more. *)
Lemma int64ToBuf_length (v w : Z) :
  Z.of_nat (length (int64ToBuf v w)) = Z.max w (byteCount v).
Proof.
  unfold int64ToBuf. rewrite length_rev, low_bytes_length.
  pose proof (byteCount_nonneg v).
  destruct (Z.ltb_spec (byteCount v) w).
  - rewrite length_app, length_replicate, length_rev, Nat2Z.inj_add, low_bytes_length. lia.
  - rewrite length_rev, low_bytes_length. lia.
Qed.

(** [int64ToBuf] is big-endian; a negative value is written as zero. *)
Lemma int64ToBuf_value (v w : Z) : be_value (int64ToBuf v w) = Z.max 0 v.
Proof.
  unfold int64ToBuf. case_match; rewrite ?be_value_zeros; apply low_bytes_value.
Qed.

Lemma xref_entry_bytes_intro (w2 t v2 v3 : Z) :
  0 <= t <= 2 ->
  xref_entry_bytes w2 (t, v2, v3) (int64ToBuf t 1 ++ int64ToBuf v2 w2 ++ int64ToBuf v3 2).
Proof.
  intros Ht. exists (int64ToBuf t 1), (int64ToBuf v2 w2), (int64ToBuf v3 2).
  split; [done|].
  rewrite !int64ToBuf_value, !int64ToBuf_length.
  assert (Hlen : Z.of_nat (length (int64ToBuf t 1)) = 1).
  { rewrite int64ToBuf_length.
    assert (t = 0 \/ t = 1 \/ t = 2) as [->|[->| ->]] by lia; reflexivity. }
  repeat split; lia.
Qed.

Lemma xrefStreamEntry_bytes (ctx : Context) (w2 i j : Z) (entry : XRefTableEntry)
    (s : list Byte.byte) :
  xrefStreamEntry ctx 1 w2 2 i j entry = Some (inl s) ->
  exists fields, xref_fields ctx j entry = Some fields /\ xref_entry_bytes w2 fields s.
Proof.
  unfold xrefStreamEntry, xref_fields. intros He.
  destruct (Free entry).
  - destruct (Offset entry) as [off|]; simpl in *; [|done].
    destruct (Generation entry) as [gen|]; simpl in *; [|done].
    inversion He; subst. eexists. split; [done|]. by apply xref_entry_bytes_intro.
  - destruct (Compressed entry).
    + destruct (ObjectStream entry) as [os|]; simpl in *; [|done].
      destruct (ObjectStreamInd entry) as [ind|]; simpl in *; [|done].
      inversion He; subst. eexists. split; [done|]. by apply xref_entry_bytes_intro.
    + destruct (write_Table (Write ctx) !! j) as [off|]; simpl in *; [|done].
      destruct (Generation entry) as [gen|]; simpl in *; [|done].
      inversion He; subst. eexists. split; [done|]. by apply xref_entry_bytes_intro.
Qed.

(** The content built by the loop of [createXRefStream]: one entry per key. *)
Lemma createXRefStream_loop_entries (ctx : Context) (w2 : Z) (keys : list Z) :
  forall i prev buf arr start size content indArr,
    createXRefStream_loop ctx 1 w2 2 i prev keys buf arr start size
      = Some (inl (content, indArr)) ->
    exists entries,
      content = buf ++ concat entries /\
      Forall2 (fun j s => exists entry fields,
                 Table (ctx_XRefTable ctx) !! j = Some entry /\
                 xref_fields ctx j entry = Some fields /\
                 xref_entry_bytes w2 fields s) keys entries.
Proof.
  induction keys as [|j rest IH]; intros i prev buf arr start size content indArr Hloop;
    simpl in Hloop.
  - inversion Hloop; subst. exists []. split; [by rewrite app_nil_r | constructor].
  - destruct (Table (ctx_XRefTable ctx) !! j) as [entry|] eqn:Hj; simpl in Hloop; [|done].
    destruct (xrefStreamEntry ctx 1 w2 2 i j entry) as [[s|err]|] eqn:He;
      simpl in Hloop; [|done|done].
    destruct (xrefStreamEntry_bytes _ _ _ _ _ _ He) as (fields & Hf & Hb).
    assert (Hrest : exists entries,
               content = (buf ++ s) ++ concat entries /\
               Forall2 (fun j s => exists entry fields,
                          Table (ctx_XRefTable ctx) !! j = Some entry /\
                          xref_fields ctx j entry = Some fields /\
                          xref_entry_bytes w2 fields s) rest entries).
    { destruct prev as [p|]; [destruct (1 <? j - p)|]; eapply IH; exact Hloop. }
    destruct Hrest as (entries & -> & Hall).
    exists (s :: entries). split; [by rewrite <- app_assoc|].
    constructor; [by exists entry, fields | done].
Qed.

Lemma Dict_Insert_lookup_ne (d : Dict) (k k' : string) (v : Object) :
  k <> k' -> Dict_Insert d k v !! k' = d !! k'.
Proof.
  intros Hne. unfold Dict_Insert. destruct (d !! k); [done|]. by rewrite lookup_insert_ne.
Qed.

Lemma Dict_Insert_lookup_fresh (d : Dict) (k : string) (v : Object) :
  d !! k = None -> Dict_Insert d k v !! k = Some v.
Proof. intros Hk. unfold Dict_Insert. rewrite Hk. apply lookup_insert_eq. Qed.

Lemma NewXRefStreamDict_no_W (ctx : Context) (xsd : XRefStreamDict) :
  NewXRefStreamDict ctx = Some xsd ->
  sd_Dict (xs_StreamDict xsd) !! "W" = None /\ Content (xs_StreamDict xsd) = [].
Proof.
  unfold NewXRefStreamDict. intros Hn.
  destruct (Root (ctx_XRefTable ctx)) as [root|]; simpl in Hn; [|done].
  inversion Hn; subst; clear Hn. simpl.
  split.
  - repeat case_match; simpl; rewrite ?Dict_Insert_lookup_ne by done; done.
  - repeat case_match; done.
Qed.

Lemma byteCount_mono (a b : Z) : a <= b -> byteCount a <= byteCount b.
Proof.
  intros Hab. destruct (decide (0 < a)) as [Ha|Ha].
  - destruct (byteCount_bounds a Ha) as (Hka & Hla & Hha).
    destruct (byteCount_bounds b ltac:(lia)) as (Hkb & Hlb & Hhb).
    destruct (decide (byteCount a <= byteCount b)) as [|Hgt]; [done|].
    pose proof (pow256_mono (byteCount b) (byteCount a - 1) ltac:(lia)). lia.
  - rewrite (byteCount_nonpos a) by lia. apply byteCount_nonneg.
Qed.

Lemma xref_entry_bytes_exact (w2 m t v2 v3 : Z) (s : list Byte.byte) :
  w2 = byteCount m -> xref_entry_bytes w2 (t, v2, v3) s ->
  v2 <= m -> v3 < 65536 -> Z.of_nat (length s) = 1 + w2 + 2.
Proof.
  intros -> (b1 & b2 & b3 & -> & H1 & _ & H2 & _ & H3 & _) Hv2 Hv3.
  rewrite !length_app, !Nat2Z.inj_add, H1, H2, H3.
  pose proof (byteCount_mono v2 m Hv2).
  pose proof (byteCount_mono v3 65535 ltac:(lia)) as Hg.
  change (byteCount 65535) with 2 in Hg. lia.
Qed.

(** C6, amended: the field widths of the xref stream.  The dict that
    [writeXRefStream] builds has [/W [1 w2 2]], where [w2] is the number of
    base-256 digits of [m = max(size, currentOffset)], that is
    [ceil(log256(m + 1))]: [256^(w2-1) <= m < 256^w2] for a positive [m];
    [size] is the table size after the xref stream's own object was inserted
    and [currentOffset] the offset at which the stream object begins.  The
    content is one entry per free or written object, of three big-endian
    fields; an entry has exactly [1 + w2 + 2] bytes when its second field is
    at most [m] and its third field is less than 65536, and a field whose
    value needs more bytes than declared is written in full. *)
Theorem writeXRefStream_field_widths `{Collaborators} (ctx ctx' : Context) (objNumber : Z)
    (xsd : XRefStreamDict) :
  writeXRefStream_dict ctx = Some (ctx', Done (objNumber, xsd)) ->
  exists size, Size (ctx_XRefTable ctx') = Some size /\
    Write ctx' = Write ctx /\
    let m := Z.max size (write_Offset (Write ctx)) in
    let w2 := byteCount m in
    sd_Dict (xs_StreamDict xsd) !! "W" = Some (oArray [oInteger 1; oInteger w2; oInteger 2]) /\
    (m <= 0 -> w2 = 0) /\
    (0 < m -> 256 ^ (w2 - 1) <= m < 256 ^ w2) /\
    (0 <= m -> w2 = ceil_log256 (m + 1)) /\
    exists entries,
      Content (xs_StreamDict xsd) = concat entries /\
      Forall2 (fun j s => exists entry fields,
                 Table (ctx_XRefTable ctx') !! j = Some entry /\
                 xref_fields ctx' j entry = Some fields /\
                 xref_entry_bytes w2 fields s /\
                 (snd (fst fields) <= m -> snd fields < 65536 ->
                    Z.of_nat (length s) = 1 + w2 + 2))
              (sortedWritableKeys ctx') entries.
Proof.
  unfold writeXRefStream_dict. intros Hw.
  apply bind_Some in Hw as (xsd0 & Hnew & Hw).
  apply NewXRefStreamDict_no_W in Hnew as [HnoW Hc0].
  destruct (InsertAndUseRecycled _ _) as [x1 [n1 e1]].
  destruct e1 as [e1|]; [by inversion Hw|].
  destruct (EnsureValidFreeList _) as [x2 e2] eqn:Hens. simpl in Hens.
  destruct e2 as [e2|]; [by inversion Hw|].
  set (ctx2 := with_XRefTable (with_XRefTable ctx x1) x2) in *.
  apply bind_Some in Hw as (size & Hsize & Hw).
  assert (Hmax : (if size <? write_Offset (Write ctx2) then write_Offset (Write ctx2) else size)
                 = Z.max size (write_Offset (Write ctx))).
  { simpl. destruct (Z.ltb_spec size (write_Offset (Write ctx))); lia. }
  rewrite Hmax in Hw. clear Hmax.
  set (m := Z.max size (write_Offset (Write ctx))) in *.
  apply bind_Some in Hw as (r & Hcreate & Hw).
  destruct r as [[content indArr]|err]; [|by inversion Hw].
  inversion Hw; subst ctx' objNumber xsd; clear Hw.
  exists size. split; [exact Hsize|]. split; [done|]. simpl.
  split.
  { rewrite Dict_Insert_lookup_ne by done.
    apply Dict_Insert_lookup_fresh. by rewrite Dict_Insert_lookup_ne. }
  split; [apply byteCount_nonpos|].
  split; [intros Hm; apply (byteCount_bounds m Hm)|].
  split; [apply byteCount_ceil_log256|].
  unfold createXRefStream in Hcreate.
  apply bind_Some in Hcreate as (start & _ & Hloop).
  apply createXRefStream_loop_entries in Hloop as (entries & -> & Hall).
  exists entries. split; [done|].
  eapply Forall2_impl; [exact Hall|]. simpl.
  intros j s (entry & [[t v2] v3] & Hj & Hf & Hb).
  exists entry, (t, v2, v3). repeat split; try done.
  simpl. intros Hv2 Hv3. by eapply xref_entry_bytes_exact.
Qed.

(** C6, as the specification states it, fails on the sample document: the
    xref stream begins at offset 256 and the table has 4 objects, so that
    [ceil(log256(max(size, currentOffset)))] is 1, while the emitted [/W] is
    [1 2 2] (offset 256 does not fit in one byte).  The entry of object 2,
    whose generation number is 70000, has [1 + 2 + 3] bytes. *)
Lemma writeXRefStream_W_counterexample :
  exists ctx' objNumber xsd,
    writeXRefStream_dict Sample.xref_doc = Some (ctx', Done (objNumber, xsd)) /\
    Size (ctx_XRefTable ctx') = Some 4 /\
    write_Offset (Write Sample.xref_doc) = 256 /\
    ceil_log256 (Z.max 4 256) = 1 /\
    sd_Dict (xs_StreamDict xsd) !! "W"
      = Some (oArray [oInteger 1; oInteger 2; oInteger 2]) /\
    (exists entry, Table (ctx_XRefTable ctx') !! 2 = Some entry /\
       xrefStreamEntry ctx' 1 2 2 2 2 entry
         = Some (inl [Byte.x01; Byte.x00; Byte.x3c; Byte.x01; Byte.x11; Byte.x70])) /\
    Content (xs_StreamDict xsd)
      = [Byte.x00; Byte.x00; Byte.x00; Byte.xff; Byte.xff;
         Byte.x01; Byte.x00; Byte.x0f; Byte.x00; Byte.x00;
         Byte.x01; Byte.x00; Byte.x3c; Byte.x01; Byte.x11; Byte.x70].
Proof.
  destruct (writeXRefStream_dict Sample.xref_doc) as [[ctx' [[objNumber xsd]|]]|] eqn:Hrun;
    try (vm_compute in Hrun; discriminate).
  exists ctx', objNumber, xsd. split; [reflexivity|].
  vm_compute in Hrun. inversion Hrun; subst; clear Hrun.
  split; [reflexivity|]. split; [reflexivity|]. split; [reflexivity|].
  split; [vm_compute; reflexivity|].
  split; [|vm_compute; reflexivity].
  eexists. split; vm_compute; reflexivity.
Qed.

(** On the sample document the widths are [1 2 2]. *)
Lemma writeXRefStream_field_widths_witness :
  exists ctx' objNumber xsd,
    writeXRefStream_dict Sample.xref_doc = Some (ctx', Done (objNumber, xsd)) /\
    sd_Dict (xs_StreamDict xsd) !! "W"
      = Some (oArray [oInteger 1; oInteger 2; oInteger 2]).
Proof.
  destruct (writeXRefStream_dict Sample.xref_doc) as [[ctx' [[objNumber xsd]|]]|] eqn:Hrun;
    try (vm_compute in Hrun; discriminate).
  exists ctx', objNumber, xsd. split; [reflexivity|].
  destruct (writeXRefStream_field_widths _ _ _ _ Hrun) as (size & Hsize & _ & HW & _).
  assert (Hsize' : Size (ctx_XRefTable ctx') = Some 4).
  { vm_compute in Hrun. inversion Hrun; subst. reflexivity. }
  rewrite Hsize' in Hsize. inversion Hsize; subst size. exact HW.
Defined.

(** ** Encryption *)


Lemma set_E_flags `{Collaborators} (ctx ctx' : Context) (f : Enc -> Enc) :
  set_E ctx f = Some ctx' -> same_flags ctx ctx'.
Proof. unfold set_E. intros Hs. repeat step_option. done. Qed.

Lemma same_flags_trans (a b c : Context) : same_flags a b -> same_flags b c -> same_flags a c.
Proof. unfold same_flags. intros [-> ->] [-> ->]. done. Qed.

Lemma assign_O_flags `{Collaborators} (ctx ctx' : Context) (err : option error) :
  assign_O ctx = Some (ctx', err) -> same_flags ctx ctx'.
Proof.
  unfold assign_O. intros Ha. destruct (enc_o ctx) as [o e]. repeat step_option.
  by eapply set_E_flags.
Qed.

Lemma assign_U_flags `{Collaborators} (ctx ctx' : Context) (err : option error) :
  assign_U ctx = Some (ctx', err) -> same_flags ctx ctx'.
Proof.
  unfold assign_U. intros Ha. destruct (enc_u ctx) as [[u k] e]. repeat step_option.
  eapply same_flags_trans; [by eapply set_E_flags | done].
Qed.

Lemma setupEncryption_flags `{Collaborators} (ctx ctx' : Context) (err : option error) :
  setupEncryption ctx = Some (ctx', err) -> same_flags ctx ctx'.
Proof.
  unfold setupEncryption. intros Hs.
  destruct (supportedEncryption _ _) as [e e1].
  destruct e1; [by inversion Hs|].
  simpl in Hs.
  destruct (ID (ctx_XRefTable ctx)); [|by inversion Hs].
  destruct (IDFirstElement _) as [id e2]. destruct e2; [by inversion Hs|].
  apply bind_Some in Hs as (c1 & H1 & Hs). apply set_E_flags in H1.
  apply bind_Some in Hs as ([c2 e3] & H2 & Hs). apply assign_O_flags in H2.
  destruct e3; [inversion Hs; subst; by repeat (eapply same_flags_trans; [eassumption|])|].
  apply bind_Some in Hs as ([c3 e4] & H3 & Hs). apply assign_U_flags in H3.
  assert (H03 : same_flags ctx c3).
  { eapply same_flags_trans; [|exact H3]. eapply same_flags_trans; [|exact H2]. exact H1. }
  destruct e4; [by inversion Hs; subst|].
  apply bind_Some in Hs as (? & _ & Hs).
  destruct (InsertAndUseRecycled _ _) as [xt [nr e6]].
  destruct e6; inversion Hs; subst; exact H03.
Qed.

Lemma update_EncryptDict_flags `{Collaborators} (ctx : Context) (d : Dict) (key : string)
    (value : Object) :
  same_flags ctx (fst (update_EncryptDict ctx d key value)).
Proof. done. Qed.

Lemma updateEncryption_flags `{Collaborators} (ctx ctx' : Context) (err : option error) :
  updateEncryption ctx = Some (ctx', err) -> same_flags ctx ctx'.
Proof.
  unfold updateEncryption. intros Hu.
  destruct (EncryptDict _) as [d e1]. destruct e1; [by inversion Hu|].
  apply bind_Some in Hu as ([c1 d1] & H1 & Hu).
  assert (H01 : same_flags ctx c1).
  { destruct (decide _); [|by inversion H1].
    apply bind_Some in H1 as (c0 & H0 & H1). apply set_E_flags in H0.
    apply bind_Some in H1 as (? & _ & H1). apply bind_Some in H1 as (? & _ & H1).
    inversion H1; subst. exact H0. }
  clear H1.
  set (c2 := with_Configuration c1 _) in Hu.
  assert (H12 : same_flags c1 c2).
  { subst c2. unfold same_flags, write_flags; simpl. repeat case_match; done. }
  apply bind_Some in Hu as ([c3 e3] & H3 & Hu). apply assign_O_flags in H3.
  assert (H03 : same_flags ctx c3).
  { eapply same_flags_trans; [|exact H3]. eapply same_flags_trans; [exact H01 | exact H12]. }
  destruct e3; [by inversion Hu; subst|].
  apply bind_Some in Hu as (? & _ & Hu). apply bind_Some in Hu as (? & _ & Hu).
  simpl in Hu.
  apply bind_Some in Hu as ([c4 e4] & H4 & Hu). apply assign_U_flags in H4.
  assert (H04 : same_flags ctx c4).
  { eapply same_flags_trans; [exact H03 | exact H4]. }
  destruct e4; [by inversion Hu; subst|].
  apply bind_Some in Hu as (? & _ & Hu). inversion Hu; subst. exact H04.
Qed.

(** C7: encryption forces classical output.  After a [handleEncryption]
    that returns no error: if [ctx.Encrypt] and [ctx.EncKey] are non-nil and
    the input did not use xref streams, [WriteObjectStream] and
    [WriteXRefStream] are both false; in every other case the two flags are
    as they were before the call.  A call that returns an error leaves the two
    flags unchanged as well. *)
Theorem handleEncryption_forces_classical `{Collaborators} (ctx ctx' : Context)
    (err : option error) :
  handleEncryption ctx = Some (ctx', err) ->
  (err = None ->
     (encrypted_classical ctx' -> write_flags ctx' = (false, false)) /\
     (~ encrypted_classical ctx' -> write_flags ctx' = write_flags ctx)) /\
  (is_Some err -> write_flags ctx' = write_flags ctx).
Proof.
  unfold handleEncryption. intros Hh.
  apply bind_Some in Hh as ([c1 e1] & Hmode & Hh).
  assert (H01 : same_flags ctx c1).
  { destruct (decide (_ \/ _)).
    - destruct (decide _); [by inversion Hmode; subst|].
      by eapply setupEncryption_flags.
    - destruct (decide _); [by eapply updateEncryption_flags|].
      by inversion Hmode; subst. }
  clear Hmode. destruct H01 as [Hflags Hread].
  destruct e1 as [e1|].
  { inversion Hh; subst. split; [done|]. by intros _. }
  apply bind_Some in Hh as (c2 & Hforce & Hh). inversion Hh; subst; clear Hh.
  split; [|by intros [? ?]]. intros _.
  unfold forceClassicalXRef in Hforce.
  destruct (Encrypt (ctx_XRefTable c1)) as [enc|] eqn:Henc.
  2:{ inversion Hforce; subst. split; [|done].
      intros ([? Hx] & _). rewrite Henc in Hx. done. }
  destruct (EncKey (ctx_XRefTable c1)) as [key|] eqn:Hkey.
  2:{ inversion Hforce; subst. split; [|done].
      intros (_ & [? Hx] & _). rewrite Hkey in Hx. done. }
  apply bind_Some in Hforce as (r & Hr & Hforce).
  destruct (UsingXRefStreams r) eqn:Hx; simpl in Hforce; inversion Hforce; subst; clear Hforce.
  - split; [|done]. intros (_ & _ & r' & Hr' & Hx'). rewrite Hr in Hr'.
    inversion Hr'; subst. congruence.
  - split; [done|]. intros Hnot. exfalso. apply Hnot.
    split; [by eexists|]. split; [by eexists|]. by exists r.
Qed.

(** On the encrypted sample document, read from a classical xref table, both
    flags are cleared. *)
Lemma handleEncryption_forces_classical_witness :
  exists ctx',
    handleEncryption Sample.encrypted_doc = Some (ctx', None) /\
    write_flags Sample.encrypted_doc = (true, true) /\
    write_flags ctx' = (false, false).
Proof.
  destruct (handleEncryption Sample.encrypted_doc) as [[ctx' [err|]]|] eqn:Hrun;
    try (vm_compute in Hrun; discriminate).
  exists ctx'. split; [reflexivity|]. split; [reflexivity|].
  destruct (handleEncryption_forces_classical _ _ _ Hrun) as [Hok _].
  destruct (Hok eq_refl) as [Hforce _]. apply Hforce.
  vm_compute in Hrun. inversion Hrun; subst; clear Hrun.
  split; [by eexists|]. split; [by eexists|]. by eexists.
Defined.

(** ** Page count *)

(** C9: the page-count check of [optimizeFontAndImages], and hence of
    [OptimizeXRefTable], for a page-tree root dict [root].  Without a [Count]
    entry the call returns an error.  When [ctx.PageCount] is greater than 0
    and differs from [Count], it returns the page-count-discrepancy error.
    When [ctx.PageCount] is 0, it sets [ctx.PageCount] to [Count] and proceeds
    with the optimization of the pages. *)
Theorem optimizeFontAndImages_page_count `{Collaborators}
    (parsePagesDict : Context -> Dict -> Z -> option (Context * (Z * option error)))
    (calcRedundantObjects calcBinarySizes : Context -> option (Context * option error))
    (ctx : Context) (indRefPages : IndirectRef) (root : Dict) :
  Pages (ctx_XRefTable ctx) = (Some indRefPages, None) ->
  DereferenceDict (ctx_XRefTable ctx) (obj_of_ref indRefPages) = (Some root, None) ->
  let run := optimizeFontAndImages parsePagesDict calcRedundantObjects in
  let top := OptimizeXRefTable parsePagesDict calcRedundantObjects calcBinarySizes in
  (Dict_Find root "Count" = None ->
     exists err, run ctx = Some (ctx, Some err) /\ top ctx = Some (ctx, Some err)) /\
  (forall count, IntEntry root "Count" = Some count ->
     0 < PageCount (ctx_XRefTable ctx) -> PageCount (ctx_XRefTable ctx) <> count ->
     let err := errors_New
       "optimizeFontAndImagess: unexpected page root dict pageCount discrepancy" in
     run ctx = Some (ctx, Some err) /\ top ctx = Some (ctx, Some err)) /\
  (forall count, IntEntry root "Count" = Some count ->
     PageCount (ctx_XRefTable ctx) = 0 ->
     let ctx1 := with_XRefTable ctx (with_PageCount (ctx_XRefTable ctx) count) in
     PageCount (ctx_XRefTable ctx1) = count /\
     run ctx = optimizePages parsePagesDict calcRedundantObjects ctx1 root).
Proof.
  intros HPages Hroot run top. subst run top.
  unfold OptimizeXRefTable, optimizeFontAndImages. rewrite HPages; simpl. rewrite Hroot; simpl.
  split; [|split].
  - intros Hcount. unfold IntEntry. unfold Dict_Find in Hcount. rewrite Hcount.
    eexists. split; reflexivity.
  - intros count Hcount Hpos Hne. rewrite Hcount.
    destruct (Z.ltb_spec 0 (PageCount (ctx_XRefTable ctx))); [|lia].
    destruct (Z.eqb_spec (PageCount (ctx_XRefTable ctx)) count); [done|].
    simpl. split; reflexivity.
  - intros count Hcount Hzero. rewrite Hcount, Hzero. simpl.
    split; [by destruct ctx as [? []] | done].
Qed.

(** The unvalidated sample document gets the page count 3 of its page-tree
    root. *)
Lemma optimizeFontAndImages_page_count_witness :
  exists ctx',
    optimizeFontAndImages Sample.no_walk Sample.no_pass Sample.pages_doc = Some (ctx', None) /\
    PageCount (ctx_XRefTable Sample.pages_doc) = 0 /\
    PageCount (ctx_XRefTable ctx') = 3.
Proof.
  set (root := {[ "Type" := oName "Pages"; "Count" := oInteger 3; "Kids" := oArray [] ]} : Dict).
  assert (HPages : Pages (ctx_XRefTable Sample.pages_doc) = (Some (mkIndirectRef 2 0), None))
    by (vm_compute; reflexivity).
  assert (Hroot : DereferenceDict (ctx_XRefTable Sample.pages_doc)
                    (obj_of_ref (mkIndirectRef 2 0)) = (Some root, None))
    by (vm_compute; reflexivity).
  destruct (optimizeFontAndImages_page_count Sample.no_walk Sample.no_pass Sample.no_pass
              Sample.pages_doc (mkIndirectRef 2 0) root HPages Hroot) as (_ & _ & Hset).
  assert (Hcount : IntEntry root "Count" = Some 3) by (vm_compute; reflexivity).
  destruct (Hset 3 Hcount eq_refl) as [_ Hrun].
  eexists. split; [rewrite Hrun; vm_compute; reflexivity|].
  split; reflexivity.
Defined.

(** ** Font names *)





Lemma substring_skip (p t : string) (m : nat) :
  substring (String.length p) m (p +:+ t) = substring 0 m t.
Proof. induction p as [|a p IH]; simpl; [done | exact IH]. Qed.




(** ** Duplicate fonts *)

(** The outcome of the loop of [handleDuplicateFontObject]: either the first
    registered font object that compares equal is found, and the state is
    patched for it, or nothing changes. *)
Lemma handleDuplicateFontObject_loop_outcome `{Collaborators} (x : XRefTable) (font : Dict)
    (resourceName : string) (objNr pageNumber : Z) (o o' : OptimizationContext)
    (fontObjectNumbers : list Z) (r : outcome (option Z)) :
  handleDuplicateFontObject_loop x font resourceName objNr pageNumber o fontObjectNumbers
    = Some (o', r) ->
  match r with
  | Done (Some canon) =>
      exists before after fo pages,
        fontObjectNumbers = before ++ canon :: after /\
        Forall (fun m => exists fm, FontObjects o !! m = Some fm /\
                  equalFontDicts (FontDict fm) font x = (false, None)) before /\
        FontObjects o !! canon = Some fo /\
        equalFontDicts (FontDict fo) font x = (true, None) /\
        page_set_add (PageFonts o) pageNumber canon = Some pages /\
        o' = with_DuplicateFonts
               (with_FontObjects (with_PageFonts o pages)
                  (<[canon := mkFontObject
                                (AddResourceName (font_ResourceNames fo) resourceName)
                                (Prefix fo) (FontName fo) (FontDict fo)]> (FontObjects o)))
               (<[objNr := font]> (DuplicateFonts o))
  | Done None =>
      o' = o /\
      Forall (fun m => exists fm, FontObjects o !! m = Some fm /\
                equalFontDicts (FontDict fm) font x = (false, None)) fontObjectNumbers
  | Failed _ => o' = o
  end.
Proof.
  revert r. induction fontObjectNumbers as [|m rest IH]; intros r Hloop; simpl in Hloop.
  - inversion Hloop; subst. split; [done | constructor].
  - destruct (FontObjects o !! m) as [fm|] eqn:Hm; simpl in Hloop; [|done].
    destruct (equalFontDicts (FontDict fm) font x) as [[|] [err|]] eqn:Heq.
    + by inversion Hloop; subst.
    + apply bind_Some in Hloop as (pages & Hpages & Hloop). inversion Hloop; subst.
      exists [], rest, fm, pages. by repeat split.
    + by inversion Hloop; subst.
    + specialize (IH r Hloop). destruct r as [[canon|]|err]; [| |done].
      * destruct IH as (before & after & fo & pages & -> & Hall & Hfo & Hequal & Hp & ->).
        exists (m :: before), after, fo, pages. repeat split; try done.
        constructor; [by exists fm | done].
      * destruct IH as [-> Hall]. split; [done|]. constructor; [by exists fm | done].
Qed.

Lemma AddResourceName_elem (names : list string) (resourceName : string) :
  resourceName ∈ AddResourceName names resourceName.
Proof.
  unfold AddResourceName. case_bool_decide; [done|].
  apply elem_of_app. right. by left.
Qed.

(** C3: dedup soundness and rewrite.  [optimizeFontResourcesDict] handles
    the entry [resourceName -> n g R] of a font resources dict, for a font
    object [n] that is not registered yet, with font dict [fontDict] and bare
    font name [bare].  When [handleDuplicateFontObject] records [n] in
    [DuplicateFonts], which it does exactly when it returns a canonical object
    number [canon]: [canon] was registered before under the same bare name,
    [equalFontDicts] returned true on its font dict and [fontDict], the
    resource name is in the resource names of the canonical font object, and
    the entry of the resources dict is rewritten to [canon 0 R]. *)
Theorem duplicate_font_sound_and_rewritten `{Collaborators} (ctx : Context)
    (fontResourcesDict : Dict) (pageNumber : Z) (resourceName : string) (n g : Z)
    (o : OptimizationContext) (fontDict : Dict) (full : string) :
  Optimize ctx = Some o -> FontObjects o !! n = None ->
  Dereference (ctx_XRefTable ctx) (oIndirectRef n g) = (oDict fontDict, None) ->
  Dict_Type fontDict = Some "Font" ->
  fontName ctx fontDict n = Some (Done full) ->
  let bare := snd (isolatePrefix full) in
  forall ctx' r,
    handleDuplicateFontObject ctx fontDict bare resourceName n pageNumber = Some (ctx', r) ->
    exists o', Optimize ctx' = Some o' /\
    match r with
    | Done (Some canon) =>
        DuplicateFonts o' = <[n := fontDict]> (DuplicateFonts o) /\
        (exists registered, Fonts o !! bare = Some registered /\ canon ∈ registered) /\
        (exists fo, FontObjects o !! canon = Some fo /\
           equalFontDicts (FontDict fo) fontDict (ctx_XRefTable ctx) = (true, None) /\
           exists fo', FontObjects o' !! canon = Some fo' /\
             resourceName ∈ font_ResourceNames fo' /\ FontDict fo' = FontDict fo) /\
        optimizeFontResource ctx fontResourcesDict pageNumber resourceName (oIndirectRef n g)
          = Some (ctx', <[resourceName := oIndirectRef canon 0]> fontResourcesDict, None)
    | _ => DuplicateFonts o' = DuplicateFonts o
    end.
Proof.
  intros Ho Hnew Hderef Htype Hname bare ctx' r Hhandle.
  assert (Hbody : optimizeFontResource ctx fontResourcesDict pageNumber resourceName
                    (oIndirectRef n g)
                  = match r with
                    | Failed err => Some (ctx', fontResourcesDict, Some err)
                    | Done None =>
                        ctx2 ← registerFont ctx' fontDict (fst (isolatePrefix full)) bare
                                 resourceName n pageNumber;
                        Some (ctx2, fontResourcesDict, None)
                    | Done (Some canon) =>
                        Some (ctx', <[resourceName := oIndirectRef canon 0]> fontResourcesDict,
                              None)
                    end).
  { unfold optimizeFontResource. rewrite Ho; simpl. rewrite Hnew, Hderef, Htype; simpl.
    rewrite Hname; simpl. subst bare. destruct (isolatePrefix full) as [prefix fn]; simpl in *.
    rewrite Hhandle; simpl. by destruct r as [[canon|]|err]. }
  unfold handleDuplicateFontObject in Hhandle. rewrite Ho in Hhandle; simpl in Hhandle.
  destruct (Fonts o !! bare) as [registered|] eqn:Hfonts.
  2:{ inversion Hhandle; subst. exists o. split; [done | done]. }
  apply bind_Some in Hhandle as (? & _ & Hhandle).
  apply bind_Some in Hhandle as ([o' r'] & Hloop & Hhandle).
  inversion Hhandle; subst ctx' r'; clear Hhandle.
  exists o'. split; [done|].
  apply handleDuplicateFontObject_loop_outcome in Hloop.
  destruct r as [[canon|]|err].
  - destruct Hloop as (before & after & fo & pages & -> & _ & Hfo & Hequal & _ & ->).
    simpl. split; [done|]. split.
    { exists (before ++ canon :: after). split; [done|].
      apply elem_of_app. right. by left. }
    split; [|exact Hbody].
    exists fo. split; [done|]. split; [done|].
    eexists. split; [apply lookup_insert_eq|]. simpl.
    split; [apply AddResourceName_elem | done].
  - by destruct Hloop as [-> _].
  - by subst.
Qed.

(** The second Helvetica of the sample document, object 15, is a duplicate
    of object 10: the entry F2 is rewritten to [10 0 R]. *)
Lemma duplicate_font_sound_and_rewritten_witness :
  exists ctx' o',
    Optimize ctx' = Some o' /\
    DuplicateFonts o' !! 15 = Some Sample.helvetica /\
    optimizeFontResource Sample.fonts_doc Sample.font_resources 0 "F2" (oIndirectRef 15 0)
      = Some (ctx', <["F2" := oIndirectRef 10 0]> Sample.font_resources, None).
Proof.
  destruct (handleDuplicateFontObject Sample.fonts_doc Sample.helvetica
              (snd (isolatePrefix "Helvetica")) "F2" 15 0) as [[ctx' r]|] eqn:Hhandle;
    [|vm_compute in Hhandle; discriminate].
  assert (Hr : r = Done (Some 10)).
  { pose proof Hhandle as Hc. vm_compute in Hc. by inversion Hc. }
  assert (Ho : Optimize Sample.fonts_doc
               = Some (mkOptimizationContext [Some {[ 10 := true ]}]
                         {[ 10 := mkFontObject ["F1"] "" "Helvetica" Sample.helvetica ]}
                         {[ "Helvetica" := [10] ]} [None] ∅ ∅ ∅ ∅ ∅ ∅)) by reflexivity.
  destruct (duplicate_font_sound_and_rewritten Sample.fonts_doc Sample.font_resources 0
              "F2" 15 0 _ Sample.helvetica "Helvetica" Ho
              ltac:(vm_compute; reflexivity) ltac:(vm_compute; reflexivity)
              ltac:(vm_compute; reflexivity) ltac:(vm_compute; reflexivity)
              ctx' r Hhandle) as (o' & Ho' & Hmatch).
  subst r. destruct Hmatch as (Hdup & _ & _ & Hbody).
  exists ctx', o'. split; [exact Ho'|]. split; [|exact Hbody].
  rewrite Hdup. apply lookup_insert_eq.
Defined.





(** ** Tie-breaking *)






(** ** Sample runs *)

(** Identical-font dedup on the sample document, from a fresh optimizer: the
    second Helvetica collapses into object 10 and the subset font is
    registered under its bare name. *)
Example optimizeFontResourcesDict_sample :
  let fresh := mkContext (ctx_Configuration Sample.fonts_doc)
                 (ctx_XRefTable Sample.fonts_doc) (Read Sample.fonts_doc)
                 (Some (with_PageFonts Sample.optimizer [None])) (Write Sample.fonts_doc) in
  exists ctx' o',
    optimizeFontResourcesDict ["F1"; "F2"; "F3"] fresh Sample.font_resources 0 4
      = Some (ctx', {[ "F1" := oIndirectRef 10 0; "F2" := oIndirectRef 10 0;
                       "F3" := oIndirectRef 20 0 ]}, None) /\
    Optimize ctx' = Some o' /\
    Fonts o' = {[ "Helvetica" := [10]; "Times-Roman" := [20] ]} /\
    DuplicateFonts o' = {[ 15 := Sample.helvetica ]} /\
    PageFonts o' = [Some {[ 10 := true; 20 := true ]}].
Proof.
  intros fresh.
  destruct (optimizeFontResourcesDict ["F1"; "F2"; "F3"] fresh Sample.font_resources 0 4)
    as [[[ctx' dict'] err]|] eqn:Hrun; [|vm_compute in Hrun; discriminate].
  vm_compute in Hrun. inversion Hrun; subst; clear Hrun.
  do 2 eexists. split.
  { apply (f_equal Some).
    apply f_equal2; [apply f_equal2; [reflexivity | vm_compute; reflexivity] | reflexivity]. }
  split; [reflexivity|].
  repeat split; vm_compute; reflexivity.
Qed.

(** The free-list head is relinked when an object is deleted. *)
Example DeleteObject_sample :
  let x := DeleteObject 5 (ctx_XRefTable Sample.written_doc) in
  Table x !! 0 = Some (mkEntry true (Some 5) (Some 65535) oNil false None None) /\
  Table x !! 5 = Some (mkEntry true (Some 0) (Some 0) oNil false None None).
Proof. split; vm_compute; reflexivity. Qed.

(** [int64ToBuf] pads on the left and never truncates. *)
Example int64ToBuf_sample :
  int64ToBuf 258 3 = [Byte.x00; Byte.x01; Byte.x02] /\
  int64ToBuf 70000 2 = [Byte.x01; Byte.x11; Byte.x70] /\
  int64ToBuf 0 1 = [Byte.x00].
Proof. repeat split; vm_compute; reflexivity. Qed.


(** ** The keys of the xref section *)

Lemma StronglySorted_le_lt (l : list Z) :
  StronglySorted Z.le l -> NoDup l -> StronglySorted Z.lt l.
Proof.
  induction 1 as [|a l Hl IH Hall]; intros Hnd; [constructor|].
  apply NoDup_cons in Hnd as [Hnotin Hnd].
  constructor; [by apply IH|].
  rewrite Forall_forall in Hall |- *. intros b Hb.
  specialize (Hall b Hb). assert (a <> b) by (intros ->; contradiction). lia.
Qed.

Lemma sortedWritableKeys_elem (ctx : Context) (i : Z) :
  i ∈ sortedWritableKeys ctx <-> writable ctx i.
Proof.
  unfold sortedWritableKeys, writable.
  rewrite merge_sort_Permutation, list_elem_of_fmap. split.
  - intros ([j e] & -> & Hin). apply list_elem_of_filter in Hin as [Hp Hin].
    apply elem_of_map_to_list in Hin. simpl in *.
    exists e. split; [done|]. by apply orb_true_iff.
  - intros (e & Hlook & Hor). exists (i, e). split; [done|].
    apply list_elem_of_filter. split.
    + simpl. by apply orb_true_iff.
    + by apply elem_of_map_to_list.
Qed.

Lemma sortedWritableKeys_sorted (ctx : Context) :
  StronglySorted Z.lt (sortedWritableKeys ctx).
Proof.
  apply StronglySorted_le_lt.
  - unfold sortedWritableKeys. apply (StronglySorted_merge_sort Z.le).
  - unfold sortedWritableKeys. rewrite merge_sort_Permutation.
    eapply NoDup_fmap_fst.
    + intros j e1 e2 H1 H2.
      apply list_elem_of_filter in H1 as [_ H1]. apply list_elem_of_filter in H2 as [_ H2].
      apply elem_of_map_to_list in H1. apply elem_of_map_to_list in H2. congruence.
    + apply NoDup_filter, NoDup_map_to_list.
Qed.

(** X1. [sortedWritableKeys] returns the object numbers of the table that
    are free or have a write offset, each once and in strictly increasing
    order. *)
Theorem sortedWritableKeys_spec (ctx : Context) :
  StronglySorted Z.lt (sortedWritableKeys ctx) /\
  NoDup (sortedWritableKeys ctx) /\
  forall i, i ∈ sortedWritableKeys ctx <->
    exists e, Table (ctx_XRefTable ctx) !! i = Some e /\
      (Free e = true \/ HasWriteOffset (Write ctx) i = true).
Proof.
  split; [apply sortedWritableKeys_sorted|]. split.
  - pose proof (sortedWritableKeys_sorted ctx) as Hs.
    induction Hs as [|a l Hl IH Hall]; constructor; [|done].
    intros Hin. rewrite Forall_forall in Hall. specialize (Hall a Hin). lia.
  - intros i. apply sortedWritableKeys_elem.
Qed.

(** ** [createXRefStream] *)

Lemma xrefStreamEntry_writable (ctx : Context) (i1 i2 i3 i j : Z) (entry : XRefTableEntry)
    (err : error) :
  Table (ctx_XRefTable ctx) !! j = Some entry -> writable ctx j ->
  xrefStreamEntry ctx i1 i2 i3 i j entry <> Some (inr err).
Proof.
  intros Hlook (e & He & Hor) Hrun. rewrite Hlook in He. injection He as <-.
  unfold xrefStreamEntry in Hrun.
  destruct (Free entry) eqn:Hfree.
  - destruct (Offset entry), (Generation entry); simpl in Hrun; congruence.
  - destruct (Compressed entry).
    + destruct (ObjectStream entry), (ObjectStreamInd entry); simpl in Hrun; congruence.
    + destruct Hor as [?|Hw]; [congruence|].
      unfold HasWriteOffset in Hw. apply bool_decide_eq_true in Hw as [off Hoff].
      rewrite Hoff in Hrun. destruct (Generation entry); simpl in Hrun; congruence.
Qed.

Lemma createXRefStream_loop_no_error (ctx : Context) (i1 i2 i3 : Z) (keys : list Z) :
  Forall (writable ctx) keys ->
  forall i prev buf arr start size err,
    createXRefStream_loop ctx i1 i2 i3 i prev keys buf arr start size <> Some (inr err).
Proof.
  induction 1 as [|j keys Hj Hkeys IH]; intros i prev buf arr start size err; simpl; [done|].
  destruct (Table (ctx_XRefTable ctx) !! j) as [entry|] eqn:Hlook; simpl; [|done].
  destruct (xrefStreamEntry ctx i1 i2 i3 i j entry) as [[s|e]|] eqn:Hentry; simpl; [| |done].
  - destruct prev as [p|]; [destruct (1 <? j - p)|]; apply IH.
  - exfalso. by eapply xrefStreamEntry_writable.
Qed.

Lemma sortedWritableKeys_Forall (ctx : Context) : Forall (writable ctx) (sortedWritableKeys ctx).
Proof. apply Forall_forall. intros i. apply sortedWritableKeys_elem. Qed.

(** X2. [createXRefStream] never returns its error: the keys it visits are
    free or have a write offset, so the branch "missing write offset" is not
    reached, whatever the context and the field widths are; and it panics at
    [keys[0]] when the table has no free and no written object. *)
Theorem createXRefStream_never_fails (ctx : Context) (i1 i2 i3 : Z) :
  (forall err, createXRefStream ctx i1 i2 i3 <> Some (inr err)) /\
  ((forall i, ~ writable ctx i) -> createXRefStream ctx i1 i2 i3 = None).
Proof.
  split.
  - intros err. unfold createXRefStream.
    destruct (head (sortedWritableKeys ctx)) as [start|]; simpl; [|done].
    apply createXRefStream_loop_no_error, sortedWritableKeys_Forall.
  - intros Hnone. unfold createXRefStream.
    destruct (sortedWritableKeys ctx) as [|k keys] eqn:Hkeys; [done|].
    exfalso. apply (Hnone k), sortedWritableKeys_elem. rewrite Hkeys. by left.
Qed.

Lemma createXRefStream_never_fails_witness :
  createXRefStream (with_XRefTable Sample.xref_doc (Sample.xref ∅ 0)) 1 2 2 = None.
Proof.
  apply (createXRefStream_never_fails (with_XRefTable Sample.xref_doc (Sample.xref ∅ 0)) 1 2 2).
  intros i (e & Hlook & _). simpl in Hlook. by rewrite lookup_empty in Hlook.
Defined.

Lemma xrefStreamEntry_complete (ctx : Context) (i1 i2 i3 i j : Z) (entry : XRefTableEntry) :
  Table (ctx_XRefTable ctx) !! j = Some entry -> writable ctx j -> entry_complete entry ->
  exists s, xrefStreamEntry ctx i1 i2 i3 i j entry = Some (inl s).
Proof.
  intros Hlook (e & He & Hor) Hc. rewrite Hlook in He. injection He as <-.
  unfold xrefStreamEntry, entry_complete in *.
  destruct (Free entry) eqn:Hfree.
  - destruct Hc as [[off ->] [gen ->]]. simpl. eauto.
  - destruct (Compressed entry).
    + destruct Hc as [[os ->] [ind ->]]. simpl. eauto.
    + destruct Hor as [?|Hw]; [congruence|].
      unfold HasWriteOffset in Hw. apply bool_decide_eq_true in Hw as [off Hoff].
      rewrite Hoff. destruct Hc as [gen ->]. simpl. eauto.
Qed.

Lemma createXRefStream_loop_returns (ctx : Context) (i1 i2 i3 : Z) (keys : list Z) :
  Forall (fun j => writable ctx j /\
            forall e, Table (ctx_XRefTable ctx) !! j = Some e -> entry_complete e) keys ->
  forall i prev buf arr start size,
    exists content indArr,
      createXRefStream_loop ctx i1 i2 i3 i prev keys buf arr start size
        = Some (inl (content, indArr)).
Proof.
  induction 1 as [|j keys [Hw Hc] Hkeys IH]; intros i prev buf arr start size; simpl; [eauto|].
  pose proof Hw as (entry & Hlook & _). rewrite Hlook. simpl.
  destruct (xrefStreamEntry_complete ctx i1 i2 i3 i j entry Hlook Hw (Hc _ Hlook)) as [s ->].
  simpl. destruct prev as [p|]; [destruct (1 <? j - p)|]; apply IH.
Qed.

(** X3. [createXRefStream] returns the stream content and the [Index] array
    whenever the table has a free or written object and the entries of these
    objects have the pointer fields of their kind: the next free object and
    the generation of a free entry, the object stream and the index of a
    compressed entry, the generation of an entry in use. *)
Theorem createXRefStream_returns (ctx : Context) (i1 i2 i3 : Z) (k : Z) :
  writable ctx k ->
  (forall i e, Table (ctx_XRefTable ctx) !! i = Some e -> writable ctx i -> entry_complete e) ->
  exists content indArr, createXRefStream ctx i1 i2 i3 = Some (inl (content, indArr)).
Proof.
  intros Hk Hall. unfold createXRefStream.
  apply sortedWritableKeys_elem in Hk.
  destruct (head (sortedWritableKeys ctx)) as [start|] eqn:Hhead; simpl.
  2: { apply head_None in Hhead. rewrite Hhead in Hk. by apply elem_of_nil in Hk. }
  apply createXRefStream_loop_returns.
  apply Forall_forall. intros j Hj. apply sortedWritableKeys_elem in Hj. split; [done|].
  intros e He. by apply (Hall j).
Qed.

Lemma createXRefStream_returns_witness :
  exists content indArr,
    createXRefStream Sample.xref_doc 1 2 2 = Some (inl (content, indArr)).
Proof.
  apply (createXRefStream_returns Sample.xref_doc 1 2 2 0).
  - exists Sample.free_head. split; [vm_compute; reflexivity|by left].
  - intros i e Hlook _. apply elem_of_map_to_list in Hlook.
    assert (Forall (fun p => entry_complete (snd p))
              (map_to_list (Table (ctx_XRefTable Sample.xref_doc)))) as Hall
      by (vm_compute; repeat (constructor || eexists)).
    rewrite Forall_forall in Hall. apply (Hall _ Hlook).
Defined.

Lemma index_array_app (p q : list (Z * Z)) : index_array (p ++ q) = index_array p ++ index_array q.
Proof. unfold index_array. by rewrite fmap_app, concat_app. Qed.

Lemma seqZ_snoc (m n : Z) : 0 <= n -> seqZ m (n + 1) = seqZ m n ++ [m + n].
Proof.
  intros Hn. rewrite <- (Z2Nat.id n Hn) at 1 2.
  replace (Z.of_nat (Z.to_nat n) + 1) with (Z.of_nat (S (Z.to_nat n))) by lia.
  rewrite seqZ_S. by rewrite Z2Nat.id.
Qed.

(** The loop of [createXRefStream] after the first key: [p] is the key
    before, which ends the run that [start] and [size] describe. *)
Lemma createXRefStream_loop_index (ctx : Context) (i1 i2 i3 : Z) (keys : list Z) :
  forall i p buf pairs0 start size content indArr,
    1 <= size -> p = start + size - 1 -> StronglySorted Z.lt (p :: keys) ->
    createXRefStream_loop ctx i1 i2 i3 i (Some p) keys buf (index_array pairs0) start size
      = Some (inl (content, indArr)) ->
    exists count more,
      indArr = index_array (pairs0 ++ (start, count) :: more) /\
      size <= count /\
      runs_apart ((start, count) :: more) /\
      index_objects ((start, count) :: more) = seqZ start size ++ keys.
Proof.
  induction keys as [|j keys IH]; intros i p buf pairs0 start size content indArr
    Hsize Hp Hsorted Hrun; simpl in Hrun.
  - injection Hrun as <- <-. exists size, []. split; [|split; [lia|split]].
    + by rewrite index_array_app.
    + simpl. repeat split; lia.
    + unfold index_objects. simpl. by rewrite !app_nil_r.
  - apply StronglySorted_inv in Hsorted as [Hkeys Hlt].
    apply Forall_cons in Hlt as [Hpj Hlt].
    destruct (Table (ctx_XRefTable ctx) !! j) as [entry|]; simpl in Hrun; [|done].
    destruct (xrefStreamEntry ctx i1 i2 i3 i j entry) as [[s|e]|]; simpl in Hrun; [|done|done].
    destruct (1 <? j - p) eqn:Hgap.
    + apply Z.ltb_lt in Hgap.
      change (index_array pairs0 ++ [oInteger start; oInteger size])
        with (index_array pairs0 ++ index_array [(start, size)]) in Hrun.
      rewrite <- index_array_app in Hrun.
      apply IH in Hrun as (count & more & -> & Hcount & Hruns & Hobjs); [|lia|lia|done].
      exists size, ((j, count) :: more). split; [|split; [lia|split]].
      * by rewrite <- app_assoc.
      * simpl. simpl in Hruns. repeat split; try lia; apply Hruns.
      * unfold index_objects in *. rewrite fmap_cons, concat_cons. simpl fst. simpl snd.
        rewrite Hobjs. by rewrite (seqZ_cons j 1), (seqZ_nil _ (Z.pred 1)) by lia.
    + apply Z.ltb_ge in Hgap. assert (j = start + size) as Hj by lia.
      apply IH in Hrun as (count & more & -> & Hcount & Hruns & Hobjs); [|lia|lia|done].
      exists count, more. split; [done|]. split; [lia|]. split; [done|].
      rewrite Hobjs, seqZ_snoc by lia. rewrite <- app_assoc. simpl. by rewrite Hj.
Qed.

(** X4. The [Index] array that [createXRefStream] returns lists runs of
    consecutive object numbers: read as (start, count) pairs it stands for
    exactly the sorted keys of the xref section, every run has at least one
    object number, and a run never continues the one before. *)
Theorem createXRefStream_Index_runs (ctx : Context) (i1 i2 i3 : Z)
    (content : list Byte.byte) (indArr : Array) :
  createXRefStream ctx i1 i2 i3 = Some (inl (content, indArr)) ->
  exists pairs,
    indArr = index_array pairs /\
    index_objects pairs = sortedWritableKeys ctx /\
    runs_apart pairs.
Proof.
  unfold createXRefStream. intros Hrun.
  pose proof (sortedWritableKeys_sorted ctx) as Hsorted.
  destruct (sortedWritableKeys ctx) as [|start keys]; [done|].
  simpl in Hrun.
  destruct (Table (ctx_XRefTable ctx) !! start) as [entry|]; simpl in Hrun; [|done].
  destruct (xrefStreamEntry ctx i1 i2 i3 0 start entry) as [[s|e]|]; simpl in Hrun;
    [|done|done].
  change (@nil Object) with (index_array []) in Hrun.
  apply createXRefStream_loop_index in Hrun as (count & more & -> & _ & Hruns & Hobjs);
    [|lia|lia|done].
  exists ((start, count) :: more). split; [done|]. split; [|done].
  rewrite Hobjs, Z.add_0_l. by rewrite (seqZ_cons start 1), (seqZ_nil _ (Z.pred 1)) by lia.
Qed.

Lemma createXRefStream_Index_runs_witness :
  createXRefStream Cases.gap_doc 1 2 2
    = Some (inl (int64ToBuf 0 1 ++ int64ToBuf 0 2 ++ int64ToBuf 65535 2
                 ++ int64ToBuf 1 1 ++ int64ToBuf 15 2 ++ int64ToBuf 0 2
                 ++ int64ToBuf 1 1 ++ int64ToBuf 60 2 ++ int64ToBuf 0 2
                 ++ int64ToBuf 1 1 ++ int64ToBuf 120 2 ++ int64ToBuf 0 2,
                 index_array [(0, 3); (5, 1)])) /\
  exists pairs,
    index_array [(0, 3); (5, 1)] = index_array pairs /\
    index_objects pairs = sortedWritableKeys Cases.gap_doc /\
    runs_apart pairs.
Proof.
  assert (createXRefStream Cases.gap_doc 1 2 2
          = Some (inl (int64ToBuf 0 1 ++ int64ToBuf 0 2 ++ int64ToBuf 65535 2
                       ++ int64ToBuf 1 1 ++ int64ToBuf 15 2 ++ int64ToBuf 0 2
                       ++ int64ToBuf 1 1 ++ int64ToBuf 60 2 ++ int64ToBuf 0 2
                       ++ int64ToBuf 1 1 ++ int64ToBuf 120 2 ++ int64ToBuf 0 2,
                       index_array [(0, 3); (5, 1)]))) as Hrun
    by (vm_compute; reflexivity).
  split; [exact Hrun|]. exact (createXRefStream_Index_runs _ _ _ _ _ _ Hrun).
Defined.

(** ** [int64ToBuf] *)

(** X5. [int64ToBuf] writes a number big-endian and never truncates it: the
    bytes of a number [v >= 0] denote [v]; they are [w] bytes when [v] fits
    into [w] bytes and otherwise the more bytes that [v] needs; and what is
    not positive is written as [w] zero bytes. *)
Theorem int64ToBuf_round_trip (v w : Z) :
  0 <= w ->
  (0 <= v -> be_value (int64ToBuf v w) = v) /\
  (0 <= v < 256 ^ w -> Z.of_nat (length (int64ToBuf v w)) = w) /\
  (256 ^ w <= v ->
     w < Z.of_nat (length (int64ToBuf v w)) /\
     256 ^ (Z.of_nat (length (int64ToBuf v w)) - 1) <= v
       < 256 ^ Z.of_nat (length (int64ToBuf v w))) /\
  (v <= 0 -> int64ToBuf v w = replicate (Z.to_nat w) Byte.x00).
Proof.
  intros Hw. split; [|split; [|split]].
  - intros Hv. rewrite int64ToBuf_value. lia.
  - intros [Hv Hfit]. rewrite int64ToBuf_length.
    destruct (decide (v = 0)) as [->|Hne]; [rewrite byteCount_nonpos by lia; lia|].
    destruct (byteCount_bounds v) as [Hone [Hlow Hup]]; [lia|].
    destruct (decide (byteCount v <= w)) as [|Hgt]; [lia|].
    assert (256 ^ w <= 256 ^ (byteCount v - 1)) by (apply pow256_mono; lia). lia.
  - intros Hv. rewrite int64ToBuf_length.
    assert (0 < 256 ^ w) by (apply Z.pow_pos_nonneg; lia).
    destruct (byteCount_bounds v) as [Hone [Hlow Hup]]; [lia|].
    assert (w < byteCount v) as Hlt.
    { destruct (decide (w < byteCount v)) as [|Hge]; [done|].
      assert (256 ^ byteCount v <= 256 ^ w) by (apply pow256_mono; lia). lia. }
    rewrite Z.max_r by lia. done.
  - intros Hv. unfold int64ToBuf. rewrite low_bytes_step.
    destruct (decide (0 < v)); [lia|]. simpl. change (Z.of_nat 0) with 0.
    destruct (0 <? w) eqn:Hpos.
    + by rewrite app_nil_r, Z.sub_0_r.
    + apply Z.ltb_ge in Hpos. by replace w with 0 by lia.
Qed.

Lemma int64ToBuf_round_trip_witness :
  be_value (int64ToBuf 70000 2) = 70000 /\
  Z.of_nat (length (int64ToBuf 258 3)) = 3 /\
  2 < Z.of_nat (length (int64ToBuf 70000 2)) /\
  int64ToBuf (-5) 2 = [Byte.x00; Byte.x00].
Proof.
  destruct (int64ToBuf_round_trip 70000 2 ltac:(lia)) as (Hvalue & _ & Hlong & _).
  destruct (int64ToBuf_round_trip 258 3 ltac:(lia)) as (_ & Hfit & _ & _).
  destruct (int64ToBuf_round_trip (-5) 2 ltac:(lia)) as (_ & _ & _ & Hzero).
  split; [apply Hvalue; lia|]. split; [apply Hfit; lia|].
  split; [apply Hlong; lia|]. apply Hzero; lia.
Defined.

(** ** The decimal digits of [itoa] *)

Lemma string_of_uint_length (d : Decimal.uint) :
  String.length (NilEmpty.string_of_uint d) = Decimal.nb_digits d.
Proof. induction d; simpl; congruence. Qed.

Lemma of_lu_upper (l : Decimal.uint) :
  (DecimalPos.Unsigned.of_lu l < 10 ^ N.of_nat (Decimal.nb_digits l))%N.
Proof.
  induction l; simpl Decimal.nb_digits; [simpl; lia|..];
    rewrite Nat2N.inj_succ, N.pow_succ_r'; simpl DecimalPos.Unsigned.of_lu; lia.
Qed.

Lemma of_lu_lower (l : Decimal.uint) :
  DecimalFacts.nztail l = l -> l <> Decimal.Nil ->
  (10 ^ N.of_nat (Decimal.nb_digits l) <= 10 * DecimalPos.Unsigned.of_lu l)%N.
Proof.
  induction l as [|l IH|l IH|l IH|l IH|l IH|l IH|l IH|l IH|l IH|l IH];
    intros Hnz Hnil; [done|..];
    simpl Decimal.nb_digits; rewrite Nat2N.inj_succ, N.pow_succ_r';
    simpl DecimalPos.Unsigned.of_lu; simpl in Hnz.
  1: { destruct (DecimalFacts.nztail l) eqn:Hl; [done|..];
         injection Hnz as Hnz; rewrite <- Hnz in IH at 1;
         (assert (l <> Decimal.Nil) as Hl' by (intros ->; discriminate Hnz));
         specialize (IH eq_refl Hl'); lia. }
  all: injection Hnz as Hnz;
    destruct l as [|l'|l'|l'|l'|l'|l'|l'|l'|l'|l'];
    [simpl; lia|specialize (IH Hnz ltac:(discriminate)); lia ..].
Qed.

Lemma to_little_uint_value (p : positive) :
  DecimalPos.Unsigned.of_lu (Pos.to_little_uint p) = N.pos p.
Proof.
  rewrite <- DecimalPos.Unsigned.of_lu_rev. apply DecimalPos.Unsigned.of_to.
Qed.

Lemma to_little_uint_normal (p : positive) :
  DecimalFacts.nztail (Pos.to_little_uint p) = Pos.to_little_uint p /\
  Pos.to_little_uint p <> Decimal.Nil.
Proof.
  pose proof (DecimalPos.Unsigned.to_of_lu (Pos.to_little_uint p)) as Hnorm.
  rewrite to_little_uint_value in Hnorm. simpl in Hnorm.
  unfold DecimalFacts.lnorm in Hnorm.
  destruct (DecimalFacts.nztail (Pos.to_little_uint p)) eqn:Hnz.
  - apply DecimalPos.Unsigned.of_lu_0 in Hnz. by rewrite to_little_uint_value in Hnz.
  - split; [done|]. rewrite Hnorm. discriminate.
  - split; [done|]. rewrite Hnorm. discriminate.
  - split; [done|]. rewrite Hnorm. discriminate.
  - split; [done|]. rewrite Hnorm. discriminate.
  - split; [done|]. rewrite Hnorm. discriminate.
  - split; [done|]. rewrite Hnorm. discriminate.
  - split; [done|]. rewrite Hnorm. discriminate.
  - split; [done|]. rewrite Hnorm. discriminate.
  - split; [done|]. rewrite Hnorm. discriminate.
  - split; [done|]. rewrite Hnorm. discriminate.
Qed.

Lemma itoa_pos_length (p : positive) :
  String.length (itoa (Z.pos p)) = Decimal.nb_digits (Pos.to_little_uint p).
Proof.
  unfold itoa. simpl. unfold NilZero.string_of_uint.
  pose proof (DecimalPos.Unsigned.to_uint_nonnil p) as Hnil.
  destruct (Pos.to_uint p) eqn:Hp; [done|..]; rewrite <- Hp;
    rewrite string_of_uint_length; unfold Pos.to_uint; apply DecimalFacts.nb_digits_rev.
Qed.

(** The number of decimal digits of a positive number. *)
Lemma itoa_digits (z : Z) :
  0 < z ->
  let k := Z.of_nat (String.length (itoa z)) in
  z < 10 ^ k /\ 10 ^ k <= 10 * z.
Proof.
  intros Hz. destruct z as [|p|p]; try lia. rewrite itoa_pos_length.
  pose proof (of_lu_upper (Pos.to_little_uint p)) as Hup.
  destruct (to_little_uint_normal p) as [Hnz Hnil].
  pose proof (of_lu_lower _ Hnz Hnil) as Hlow.
  rewrite to_little_uint_value in Hup, Hlow.
  set (n := Decimal.nb_digits (Pos.to_little_uint p)) in *. simpl.
  assert (10 ^ Z.of_nat n = Z.of_N (10 ^ N.of_nat n)) as ->.
  { rewrite N2Z.inj_pow. by rewrite nat_N_Z. }
  lia.
Qed.

Lemma itoa_length_le (z : Z) (n : nat) :
  0 <= z -> z < 10 ^ Z.of_nat n -> (1 <= n)%nat -> (String.length (itoa z) <= n)%nat.
Proof.
  intros Hz Hlt Hn. destruct (decide (z = 0)) as [->|Hne]; [simpl; lia|].
  destruct (itoa_digits z) as [_ Hlow]; [lia|].
  assert (10 ^ Z.of_nat (String.length (itoa z)) < 10 ^ (Z.of_nat n + 1)) as Hpow.
  { rewrite Z.pow_add_r by lia. lia. }
  apply Z.pow_lt_mono_r_iff in Hpow; lia.
Qed.

Lemma itoa_length_gt (z : Z) (n : nat) :
  10 ^ Z.of_nat n <= z -> (n < String.length (itoa z))%nat.
Proof.
  intros Hle. assert (0 < z) as Hz by (pose proof (Z.pow_pos_nonneg 10 (Z.of_nat n)); lia).
  destruct (itoa_digits z Hz) as [Hup _].
  assert (10 ^ Z.of_nat n < 10 ^ Z.of_nat (String.length (itoa z))) as Hpow by lia.
  apply Z.pow_lt_mono_r_iff in Hpow; lia.
Qed.
(** ** The classical xref table *)

Lemma strings_Repeat_length (c : ascii) (n : nat) : String.length (strings_Repeat c n) = n.
Proof. unfold strings_Repeat. induction n; simpl; congruence. Qed.

Lemma fmt_0d_length (width : nat) (z : Z) :
  (1 <= width)%nat -> 0 <= z < 10 ^ Z.of_nat width ->
  String.length (fmt_0d width z) = width.
Proof.
  intros Hw [Hz Hlt]. unfold fmt_0d.
  destruct (z <? 0) eqn:Hneg; [apply Z.ltb_lt in Hneg; lia|].
  rewrite string_length_app, strings_Repeat_length.
  pose proof (itoa_length_le z width Hz Hlt Hw). lia.
Qed.

Lemma fmt_0d_long (width : nat) (z : Z) :
  10 ^ Z.of_nat width <= z -> (width < String.length (fmt_0d width z))%nat.
Proof.
  intros Hle. unfold fmt_0d.
  assert (0 < z) by (pose proof (Z.pow_pos_nonneg 10 (Z.of_nat width)); lia).
  destruct (z <? 0) eqn:Hneg; [apply Z.ltb_lt in Hneg; lia|].
  rewrite string_length_app, strings_Repeat_length.
  pose proof (itoa_length_gt z width Hle). lia.
Qed.

Section XRefTableFacts.

Context `{Collaborators}.
Variable Eol : WriteContext -> string.
Variable RuneCountInString : string -> nat.
Variable PDFString : Object -> string.

(** X6. A line of the classical xref table has exactly 20 bytes: ten digits
    of the offset, five digits of the generation, the letter [f] or [n], and
    an end-of-line sequence that [%2s] pads to two bytes with a space in
    front.  This needs an offset below [10^10], a generation below [10^5]
    and an end-of-line sequence of at most two bytes that are one rune
    each; an offset from [10^10] on makes the line longer. *)
Theorem xrefTableLine_20_bytes (ctx : Context) (i : Z) (entry : XRefTableEntry) (off gen : Z) :
  let eol := Eol (Write ctx) in
  (if Free entry then Offset entry = Some off
   else default 0 (write_Table (Write ctx) !! i) = off) ->
  Generation entry = Some gen -> 0 <= gen < 10 ^ 5 -> 0 <= off ->
  RuneCountInString eol = String.length eol -> (String.length eol <= 2)%nat ->
  exists s,
    xrefTableLine Eol RuneCountInString ctx i entry = Some s /\
    s = fmt_0d 10 off +:+ " " +:+ fmt_0d 5 gen +:+ (if Free entry then " f" else " n")
        +:+ strings_Repeat " " (2 - String.length eol) +:+ eol /\
    (off < 10 ^ 10 -> String.length s = 20%nat) /\
    (10 ^ 10 <= off -> (20 < String.length s)%nat).
Proof.
  intros eol Hoff Hgen Hgenb Hoffb Hrune Hlen.
  exists (fmt_0d 10 off +:+ " " +:+ fmt_0d 5 gen +:+ (if Free entry then " f" else " n")
          +:+ strings_Repeat " " (2 - String.length eol) +:+ eol).
  split; [|split; [done|]].
  - unfold xrefTableLine, fmt_s. fold eol. rewrite Hrune, Hgen.
    destruct (Free entry); [rewrite Hoff|rewrite <- Hoff]; simpl; done.
  - assert (String.length (fmt_0d 5 gen) = 5%nat) as Hg by (by apply fmt_0d_length; [lia|]).
    assert (forall x : string,
              String.length (fmt_0d 10 off +:+ " " +:+ fmt_0d 5 gen
                             +:+ (if Free entry then " f" else " n")
                             +:+ strings_Repeat " " (2 - String.length eol) +:+ eol)
              = (String.length (fmt_0d 10 off) + 10)%nat) as Htotal.
    { intros _. rewrite !string_length_app, Hg, strings_Repeat_length.
      destruct (Free entry); simpl; lia. }
    rewrite (Htotal EmptyString). split.
    + intros Hlt. rewrite fmt_0d_length; [done|lia|]. simpl Z.of_nat. lia.
    + intros Hge. pose proof (fmt_0d_long 10 off Hge). lia.
Qed.

Lemma log_WriteString_view (ctx : Context) (st st' : Context * list written) (s : string)
    (err : option error) :
  steady_writer Eol -> same_view Eol ctx st -> log_WriteString st s = (st', err) ->
  same_view Eol ctx st' /\ snd st' = snd st ++ [wString s] /\
  (writer_keeps_offset -> write_Offset (Write (fst st')) = write_Offset (Write (fst st))).
Proof.
  intros [Hs _] (Hx & Heol & Htable). unfold log_WriteString.
  specialize (Hs (Write (fst st)) s).
  destruct (WriteString (Write (fst st)) s) as [w e] eqn:Hw. simpl in Hs.
  intros [= <- <-]. split; [|split; [done|]].
  - unfold same_view. simpl. destruct Hs as [-> ->]. done.
  - intros [Hk _]. simpl. specialize (Hk (Write (fst st)) s). by rewrite Hw in Hk.
Qed.

Lemma log_WriteEol_view (ctx : Context) (st st' : Context * list written)
    (err : option error) :
  steady_writer Eol -> same_view Eol ctx st -> log_WriteEol st = (st', err) ->
  same_view Eol ctx st' /\ snd st' = snd st ++ [wEol] /\
  (writer_keeps_offset -> write_Offset (Write (fst st')) = write_Offset (Write (fst st))).
Proof.
  intros [_ Hs] (Hx & Heol & Htable). unfold log_WriteEol.
  specialize (Hs (Write (fst st))).
  destruct (WriteEol (Write (fst st))) as [w e] eqn:Hw. simpl in Hs.
  intros [= <- <-]. split; [|split; [done|]].
  - unfold same_view. simpl. destruct Hs as [-> ->]. done.
  - intros [_ Hk]. simpl. specialize (Hk (Write (fst st))). by rewrite Hw in Hk.
Qed.

Lemma xrefTableLine_view (ctx : Context) (st : Context * list written) (i : Z)
    (entry : XRefTableEntry) :
  same_view Eol ctx st ->
  xrefTableLine Eol RuneCountInString (fst st) i entry
    = xrefTableLine Eol RuneCountInString ctx i entry.
Proof. intros (_ & Heol & Htable). unfold xrefTableLine. by rewrite Heol, Htable. Qed.

Lemma writeXRefSubsection_loop_written (ctx : Context) (objNrs : list Z) :
  steady_writer Eol ->
  forall st st',
    same_view Eol ctx st ->
    writeXRefSubsection_loop Eol RuneCountInString st objNrs = Some (st', None) ->
    same_view Eol ctx st' /\
    (writer_keeps_offset -> write_Offset (Write (fst st')) = write_Offset (Write (fst st))) /\
    exists lines,
      Forall2 (xrefTable_line Eol RuneCountInString ctx) objNrs lines /\
      snd st' = snd st ++ (wString <$> lines).
Proof.
  intros Hsteady. induction objNrs as [|i rest IH]; intros st st' Hview Hrun; simpl in Hrun.
  - injection Hrun as <-. split; [done|]. split; [done|].
    exists []. split; [constructor|]. by rewrite app_nil_r.
  - destruct (Table (ctx_XRefTable (fst st)) !! i) as [entry|] eqn:Hlook; simpl in Hrun;
      [|done].
    destruct (Compressed entry) eqn:Hc; [done|].
    destruct (xrefTableLine Eol RuneCountInString (fst st) i entry) as [s|] eqn:Hline;
      simpl in Hrun; [|done].
    destruct (log_WriteString st s) as [st1 err] eqn:Hw.
    destruct (log_WriteString_view ctx st st1 s err Hsteady Hview Hw) as (Hview1 & Hlog1 & Hoff1).
    destruct err; [done|].
    destruct (IH st1 st' Hview1 Hrun) as (Hview' & Hoff' & lines & Hlines & Hlog').
    split; [done|]. split; [intros Hk; rewrite Hoff', Hoff1; done|].
    exists (s :: lines). split.
    + constructor; [|done]. exists entry. pose proof Hview as (Hx & _).
      rewrite <- Hx. split; [done|]. split; [done|].
      rewrite <- Hline. symmetry. by apply xrefTableLine_view.
    + rewrite Hlog', Hlog1, <- app_assoc. done.
Qed.

Lemma writeXRefSubsection_written (ctx : Context) (st st' : Context * list written)
    (start size : Z) :
  steady_writer Eol -> same_view Eol ctx st ->
  writeXRefSubsection Eol RuneCountInString st start size = Some (st', None) ->
  same_view Eol ctx st' /\
  (writer_keeps_offset -> write_Offset (Write (fst st')) = write_Offset (Write (fst st))) /\
  exists section,
    xrefTable_section Eol RuneCountInString ctx (start, size) section /\
    snd st' = snd st ++ section.
Proof.
  intros Hsteady Hview. unfold writeXRefSubsection.
  destruct (log_WriteString st _) as [st1 err] eqn:Hw.
  destruct (log_WriteString_view ctx st st1 _ err Hsteady Hview Hw) as (Hview1 & Hlog1 & Hoff1).
  destruct err; [done|]. intros Hrun.
  destruct (writeXRefSubsection_loop_written ctx _ Hsteady st1 st' Hview1 Hrun)
    as (Hview' & Hoff' & lines & Hlines & Hlog').
  split; [done|]. split; [intros Hk; rewrite Hoff', Hoff1; done|].
  eexists. split.
  - exists lines. split; [exact Hlines|reflexivity].
  - rewrite Hlog', Hlog1, <- app_assoc. simpl. destruct Hview as (_ & -> & _). done.
Qed.

Lemma runs_apart_snoc (pairs : list (Z * Z)) (start count start' count' : Z) :
  runs_apart (pairs ++ [(start, count)]) -> 1 <= count' -> start + count < start' ->
  runs_apart (pairs ++ [(start, count); (start', count')]).
Proof.
  induction pairs as [|[s c] pairs IH]; simpl; intros Hruns Hc Hs.
  - repeat split; lia || apply Hruns.
  - destruct Hruns as (Hc1 & Hnext & Hruns). split; [done|]. split.
    + destruct pairs as [|[s2 c2] pairs]; simpl in *; done.
    + by apply IH.
Qed.

Lemma runs_apart_grow (pairs : list (Z * Z)) (start count : Z) :
  runs_apart (pairs ++ [(start, count)]) -> runs_apart (pairs ++ [(start, count + 1)]).
Proof.
  induction pairs as [|[s c] pairs IH]; simpl; intros Hruns.
  - repeat split; lia || apply Hruns.
  - destruct Hruns as (Hc1 & Hnext & Hruns). split; [done|]. split.
    + destruct pairs as [|[s2 c2] pairs]; simpl in *; done.
    + by apply IH.
Qed.

Lemma index_objects_app (p q : list (Z * Z)) :
  index_objects (p ++ q) = index_objects p ++ index_objects q.
Proof. unfold index_objects. by rewrite fmap_app, concat_app. Qed.

Lemma index_objects_run (start size : Z) : index_objects [(start, size)] = seqZ start size.
Proof. unfold index_objects. cbn [fmap list_fmap concat fst snd]. apply app_nil_r. Qed.

(** The loop of [writeXRefTable]: [done] are the runs written so far. *)
Lemma writeXRefTable_loop_written (ctx : Context) (keys : list Z) :
  steady_writer Eol ->
  forall st prev start size st' start' size' done sections objNrs log0,
    same_view Eol ctx st -> 1 <= size -> prev = start + size - 1 ->
    StronglySorted Z.lt (prev :: keys) ->
    Forall2 (xrefTable_section Eol RuneCountInString ctx) done sections ->
    snd st = log0 ++ concat sections ->
    runs_apart (done ++ [(start, size)]) ->
    index_objects (done ++ [(start, size)]) = objNrs ->
    writeXRefTable_loop Eol RuneCountInString st prev keys start size
      = Some (st', Done (start', size')) ->
    same_view Eol ctx st' /\
    (writer_keeps_offset -> write_Offset (Write (fst st')) = write_Offset (Write (fst st))) /\
    exists done' sections',
      Forall2 (xrefTable_section Eol RuneCountInString ctx) done' sections' /\
      runs_apart (done' ++ [(start', size')]) /\
      index_objects (done' ++ [(start', size')]) = objNrs ++ keys /\
      snd st' = log0 ++ concat sections'.
Proof.
  intros Hsteady. induction keys as [|k rest IH];
    intros st prev start size st' start' size' done sections objNrs log0
      Hview Hsize Hprev Hsorted Hdone Hlog Hruns Hobjs Hrun; simpl in Hrun.
  - injection Hrun as <- <- <-. split; [done|]. split; [done|].
    exists done, sections. rewrite app_nil_r. done.
  - apply StronglySorted_inv in Hsorted as [Hrest Hlt].
    apply Forall_cons in Hlt as [Hpk _].
    destruct (1 <? k - prev) eqn:Hgap.
    + apply Z.ltb_lt in Hgap.
      destruct (writeXRefSubsection Eol RuneCountInString st start size)
        as [[st1 err]|] eqn:Hsub; simpl in Hrun; [|done].
      destruct err; [done|].
      destruct (writeXRefSubsection_written ctx st st1 start size Hsteady Hview Hsub)
        as (Hview1 & Hoff1 & section & Hsection & Hlog1).
      eapply (IH st1 k k 1 st' start' size' (done ++ [(start, size)])
                (sections ++ [section]) (objNrs ++ [k]) log0) in Hrun; try done; try lia.
      * destruct Hrun as (Hview' & Hoff' & done' & sections' & Hd & Hr & Ho & Hlog').
        split; [done|]. split; [intros Hk; rewrite Hoff', Hoff1; done|].
        exists done', sections'. split; [done|]. split; [done|]. split; [|done].
        rewrite Ho, <- app_assoc. done.
      * by apply Forall2_app; [|constructor; [|constructor]].
      * rewrite Hlog1, Hlog, concat_app, <- app_assoc. simpl. by rewrite app_nil_r.
      * rewrite <- app_assoc. simpl. apply runs_apart_snoc; [done|lia|lia].
      * rewrite <- app_assoc. change ([(start, size); (k, 1)]) with ([(start, size)] ++ [(k, 1)]).
        rewrite app_assoc, index_objects_app, Hobjs, index_objects_run.
        by rewrite (seqZ_cons k 1), (seqZ_nil _ (Z.pred 1)) by lia.
    + apply Z.ltb_ge in Hgap. assert (k = start + size) as Hk by lia.
      eapply (IH st k start (size + 1) st' start' size' done sections (objNrs ++ [k]) log0)
        in Hrun; try done; try lia.
      * destruct Hrun as (Hview' & Hoff' & done' & sections' & Hd & Hr & Ho & Hlog').
        split; [done|]. split; [done|].
        exists done', sections'. split; [done|]. split; [done|]. split; [|done].
        rewrite Ho, <- app_assoc. done.
      * by apply runs_apart_grow.
      * rewrite index_objects_app in Hobjs |- *. rewrite <- Hobjs, <- app_assoc. f_equal.
        rewrite !index_objects_run, seqZ_snoc by lia. by rewrite Hk.
Qed.

Lemma trailerDict_view (ctx ctx' : Context) :
  ctx_XRefTable ctx' = ctx_XRefTable ctx -> trailerDict ctx' = trailerDict ctx.
Proof. intros Hx. unfold trailerDict. by rewrite Hx. Qed.

Lemma writeTrailerDict_written (ctx : Context) (st st' : Context * list written) :
  steady_writer Eol -> same_view Eol ctx st ->
  writeTrailerDict PDFString st = Some (st', None) ->
  same_view Eol ctx st' /\
  (writer_keeps_offset -> write_Offset (Write (fst st')) = write_Offset (Write (fst st))) /\
  exists dict,
    trailerDict ctx = Some dict /\
    snd st' = snd st ++ [wString "trailer"; wEol; wString (PDFString (oDict dict))].
Proof.
  intros Hsteady Hview. unfold writeTrailerDict.
  destruct (log_WriteString st "trailer") as [st1 err1] eqn:Hw1.
  destruct (log_WriteString_view ctx _ _ _ _ Hsteady Hview Hw1) as (Hview1 & Hlog1 & Hoff1).
  destruct err1; [done|].
  destruct (log_WriteEol st1) as [st2 err2] eqn:Hw2.
  destruct (log_WriteEol_view ctx _ _ _ Hsteady Hview1 Hw2) as (Hview2 & Hlog2 & Hoff2).
  destruct err2; [done|].
  destruct (trailerDict (fst st2)) as [dict|] eqn:Hdict; simpl; [|done].
  destruct (log_WriteString st2 (PDFString (oDict dict))) as [st3 err3] eqn:Hw3.
  destruct (log_WriteString_view ctx _ _ _ _ Hsteady Hview2 Hw3) as (Hview3 & Hlog3 & Hoff3).
  intros [= <- ->]. split; [done|].
  split; [intros Hk; rewrite Hoff3, Hoff2, Hoff1; done|].
  exists dict. split.
  - rewrite <- Hdict. symmetry. apply trailerDict_view. apply Hview2.
  - rewrite Hlog3, Hlog2, Hlog1, <- !app_assoc. done.
Qed.

Lemma log_writeStartXRef_written (ctx : Context) (st st' : Context * list written) :
  steady_writer Eol -> same_view Eol ctx st ->
  log_writeStartXRef st = (st', None) ->
  exists offset,
    snd st' = snd st ++ [wEol; wString "startxref"; wEol; wString (itoa offset); wEol] /\
    (writer_keeps_offset -> offset = write_Offset (Write (fst st))).
Proof.
  intros Hsteady Hview. unfold log_writeStartXRef.
  destruct (log_WriteEol st) as [st1 err1] eqn:Hw1.
  destruct (log_WriteEol_view ctx _ _ _ Hsteady Hview Hw1) as (Hview1 & Hlog1 & Hoff1).
  destruct err1; [done|].
  destruct (log_WriteString st1 "startxref") as [st2 err2] eqn:Hw2.
  destruct (log_WriteString_view ctx _ _ _ _ Hsteady Hview1 Hw2) as (Hview2 & Hlog2 & Hoff2).
  destruct err2; [done|].
  destruct (log_WriteEol st2) as [st3 err3] eqn:Hw3.
  destruct (log_WriteEol_view ctx _ _ _ Hsteady Hview2 Hw3) as (Hview3 & Hlog3 & Hoff3).
  destruct err3; [done|].
  destruct (log_WriteString st3 _) as [st4 err4] eqn:Hw4.
  destruct (log_WriteString_view ctx _ _ _ _ Hsteady Hview3 Hw4) as (Hview4 & Hlog4 & Hoff4).
  destruct err4; [done|].
  intros Hw5.
  destruct (log_WriteEol_view ctx _ _ _ Hsteady Hview4 Hw5) as (Hview5 & Hlog5 & Hoff5).
  exists (write_Offset (Write (fst st3))). split.
  - rewrite Hlog5, Hlog4, Hlog3, Hlog2, Hlog1, <- !app_assoc. done.
  - intros Hk. rewrite Hoff3, Hoff2, Hoff1; done.
Qed.

(** X7. What a successful [writeXRefTable] hands to the writer, for a writer
    that only appends output: the line "xref"; then the sorted keys of the
    xref section (the free and the written objects of the table after
    [EnsureValidFreeList]) in maximal runs of consecutive object numbers,
    for each run the line "start count" and one line per object number,
    none of them for a compressed entry; then the trailer dict, "startxref"
    and an offset, which is the offset the write context had at the call
    when the writer does not move it. *)
Theorem writeXRefTable_written (st st' : Context * list written) :
  steady_writer Eol ->
  writeXRefTable Eol RuneCountInString PDFString st = Some (st', None) ->
  let ctx := with_XRefTable (fst st) (fst (EnsureValidFreeList (ctx_XRefTable (fst st)))) in
  exists pairs sections dict offset,
    index_objects pairs = sortedWritableKeys ctx /\
    runs_apart pairs /\
    Forall2 (xrefTable_section Eol RuneCountInString ctx) pairs sections /\
    trailerDict ctx = Some dict /\
    snd st' = snd st ++ [wString "xref"; wEol] ++ concat sections
              ++ [wString "trailer"; wEol; wString (PDFString (oDict dict)); wEol;
                  wString "startxref"; wEol; wString (itoa offset); wEol] /\
    (writer_keeps_offset -> offset = write_Offset (Write (fst st))).
Proof.
  intros Hsteady. unfold writeXRefTable.
  destruct (EnsureValidFreeList (ctx_XRefTable (fst st))) as [x err0] eqn:Hfree.
  simpl fst. set (ctx := with_XRefTable (fst st) x).
  destruct err0; [done|].
  assert (same_view Eol ctx (ctx, snd st)) as Hview0 by done.
  destruct (log_WriteString (ctx, snd st) "xref") as [st1 err1] eqn:Hw1.
  destruct (log_WriteString_view ctx _ _ _ _ Hsteady Hview0 Hw1) as (Hview1 & Hlog1 & Hoff1).
  destruct err1; [done|].
  destruct (log_WriteEol st1) as [st2 err2] eqn:Hw2.
  destruct (log_WriteEol_view ctx _ _ _ Hsteady Hview1 Hw2) as (Hview2 & Hlog2 & Hoff2).
  destruct err2; [done|].
  pose proof (sortedWritableKeys_sorted ctx) as Hsorted.
  destruct (sortedWritableKeys ctx) as [|start keys] eqn:Hkeys; [done|].
  simpl head. simpl tail. simpl mbind.
  destruct (writeXRefTable_loop Eol RuneCountInString st2 start keys start 1)
    as [[st3 [[start' size']|err3]]|] eqn:Hloop; simpl; [|done|done].
  eapply (writeXRefTable_loop_written ctx keys Hsteady st2 start start 1 st3 start' size'
            [] [] [start] (snd st2)) in Hloop; try done; try lia.
  2: { simpl. by rewrite app_nil_r. }
  destruct Hloop as (Hview3 & Hoff3 & done' & sections' & Hdone & Hruns & Hobjs & Hlog3).
  destruct (writeXRefSubsection Eol RuneCountInString st3 start' size')
    as [[st4 err4]|] eqn:Hsub; simpl; [|done].
  destruct err4; [done|].
  destruct (writeXRefSubsection_written ctx _ _ _ _ Hsteady Hview3 Hsub)
    as (Hview4 & Hoff4 & section & Hsection & Hlog4).
  destruct (writeTrailerDict PDFString st4) as [[st5 err5]|] eqn:Htrailer; simpl; [|done].
  destruct err5; [done|].
  destruct (writeTrailerDict_written ctx _ _ Hsteady Hview4 Htrailer)
    as (Hview5 & Hoff5 & dict & Hdict & Hlog5).
  intros [= Hstart].
  destruct (log_writeStartXRef_written ctx _ _ Hsteady Hview5 Hstart)
    as (offset & Hlog6 & Hoff6).
  exists (done' ++ [(start', size')]), (sections' ++ [section]), dict, offset.
  split; [done|]. split; [done|].
  split; [by apply Forall2_app; [|constructor; [|constructor]]|].
  split; [done|]. split.
  - rewrite Hlog6, Hlog5, Hlog4, Hlog3, Hlog2, Hlog1, concat_app, <- !app_assoc. simpl.
    by rewrite app_nil_r.
  - intros Hk. rewrite (Hoff6 Hk), (Hoff5 Hk), (Hoff4 Hk), (Hoff3 Hk), (Hoff2 Hk), (Hoff1 Hk).
    done.
Qed.

(** X8. The trailer dict of the classical xref table and the dict of the
    xref stream name the same document: [Root], [Info], [ID] and [Encrypt]
    have the same values in both, the entries are those of the xref table,
    and [Encrypt] is there only if the document has an encryption dict and
    an encryption key. *)
Theorem trailerDict_agrees_with_xref_stream (ctx : Context) (dict : Dict)
    (xsd : XRefStreamDict) :
  trailerDict ctx = Some dict -> NewXRefStreamDict ctx = Some xsd ->
  let x := ctx_XRefTable ctx in
  let streamDict := sd_Dict (xs_StreamDict xsd) in
  dict !! "Size" = oInteger <$> Size x /\
  dict !! "Root" = obj_of_ref <$> Root x /\
  dict !! "Info" = obj_of_ref <$> Info x /\
  dict !! "ID" = oArray <$> ID x /\
  dict !! "Encrypt" = match Encrypt x, EncKey x with
                      | Some enc, Some _ => Some (obj_of_ref enc)
                      | _, _ => None
                      end /\
  Forall (fun key => streamDict !! key = dict !! key) ["Root"; "Info"; "ID"; "Encrypt"].
Proof.
  unfold trailerDict, NewXRefStreamDict. intros Hdict Hxsd. simpl.
  destruct (Size (ctx_XRefTable ctx)) as [size|]; simpl in Hdict; [|done].
  destruct (Root (ctx_XRefTable ctx)) as [root|]; simpl in Hdict, Hxsd; [|done].
  injection Hdict as <-. injection Hxsd as <-.
  destruct (Info (ctx_XRefTable ctx)), (Encrypt (ctx_XRefTable ctx)),
    (EncKey (ctx_XRefTable ctx)), (ID (ctx_XRefTable ctx));
    repeat split; try (vm_compute; reflexivity);
    repeat constructor; vm_compute; reflexivity.
Qed.

End XRefTableFacts.

Lemma xrefTableLine_20_bytes_witness :
  xrefTableLine (fun _ => Cases.lf) String.length Cases.gap_doc 2
    (Sample.in_use (oDict Sample.helvetica) 70)
    = Some ("0000000060 00000 n " +:+ Cases.lf) /\
  String.length ("0000000060 00000 n " +:+ Cases.lf) = 20%nat.
Proof.
  destruct (xrefTableLine_20_bytes (fun _ => Cases.lf) String.length Cases.gap_doc 2
              (Sample.in_use (oDict Sample.helvetica) 70) 60 0)
    as (s & Hline & Hs & Hfit & _).
  - vm_compute. reflexivity.
  - reflexivity.
  - lia.
  - lia.
  - reflexivity.
  - vm_compute. lia.
  - split.
    + rewrite Hline, Hs. vm_compute. reflexivity.
    + vm_compute. reflexivity.
Defined.

Lemma writeXRefTable_written_witness :
  exists st' pairs sections dict offset,
    writeXRefTable (fun _ => Cases.lf) String.length Cases.variant_name (Cases.gap_doc, [])
      = Some (st', None) /\
    index_objects pairs = [0; 1; 2; 5] /\
    runs_apart pairs /\
    Forall2 (xrefTable_section (fun _ => Cases.lf) String.length Cases.gap_doc)
      pairs sections /\
    snd st' = [wString "xref"; wEol] ++ concat sections
              ++ [wString "trailer"; wEol; wString (Cases.variant_name (oDict dict)); wEol;
                  wString "startxref"; wEol; wString (itoa offset); wEol].
Proof.
  assert (steady_writer (fun _ => Cases.lf)) as Hsteady by (split; intros; split; reflexivity).
  assert (snd <$> writeXRefTable (fun _ => Cases.lf) String.length Cases.variant_name
                    (Cases.gap_doc, []) = Some None) as Herr by (vm_compute; reflexivity).
  destruct (writeXRefTable (fun _ => Cases.lf) String.length Cases.variant_name
              (Cases.gap_doc, [])) as [[st' err]|] eqn:Hrun; [|discriminate Herr].
  simpl in Herr. injection Herr as ->.
  destruct (writeXRefTable_written (fun _ => Cases.lf) String.length Cases.variant_name
              (Cases.gap_doc, []) st' Hsteady Hrun)
    as (pairs & sections & dict & offset & Hobjs & Hruns & Hsections & _ & Hlog & _).
  exists st', pairs, sections, dict, offset. split; [reflexivity|].
  split; [rewrite Hobjs; vm_compute; reflexivity|]. split; [exact Hruns|].
  split; [exact Hsections|]. exact Hlog.
Defined.

Lemma trailerDict_agrees_with_xref_stream_witness :
  exists dict xsd,
    trailerDict Sample.encrypted_doc = Some dict /\
    NewXRefStreamDict Sample.encrypted_doc = Some xsd /\
    dict !! "Encrypt" = Some (oIndirectRef 2 0) /\
    sd_Dict (xs_StreamDict xsd) !! "Encrypt" = Some (oIndirectRef 2 0).
Proof.
  destruct (trailerDict Sample.encrypted_doc) as [dict|] eqn:Hdict;
    [|vm_compute in Hdict; discriminate Hdict].
  destruct (NewXRefStreamDict Sample.encrypted_doc) as [xsd|] eqn:Hxsd;
    [|vm_compute in Hxsd; discriminate Hxsd].
  destruct (trailerDict_agrees_with_xref_stream _ _ _ Hdict Hxsd)
    as (_ & _ & _ & _ & Henc & Hall).
  exists dict, xsd. split; [done|]. split; [done|].
  apply Forall_cons in Hall as [_ Hall]. apply Forall_cons in Hall as [_ Hall].
  apply Forall_cons in Hall as [_ Hall]. apply Forall_cons in Hall as [Hsame _].
  rewrite Hsame, Henc. split; reflexivity.
Defined.

(** ** What [deleteRedundantObjects] deletes *)

Lemma frees_only_refl (x : XRefTable) (deleted : list Z) : frees_only x x deleted.
Proof. split; [done|]. split; [done|]. split; [|done]. intros k e Hk Hf. by exists e. Qed.

Lemma frees_only_trans (x x' x'' : XRefTable) (d1 d2 : list Z) :
  frees_only x x' d1 -> frees_only x' x'' d2 -> frees_only x x'' (d1 ++ d2).
Proof.
  intros (Hs1 & Hd1 & Hf1 & Hu1) (Hs2 & Hd2 & Hf2 & Hu2).
  split; [congruence|]. split; [|split].
  - intros k. by rewrite Hd2, Hd1.
  - intros k e Hk Hf. destruct (Hf1 k e Hk Hf) as (e' & Hk' & Hf'). eauto.
  - intros k e Hk Hf Hnotin. rewrite elem_of_app in Hnotin.
    apply (Hu2 k e); [|done|tauto]. apply (Hu1 k e); [done|done|tauto].
Qed.

Lemma frees_only_ext (x y x' : XRefTable) (deleted : list Z) :
  Table y = Table x -> Size y = Size x -> frees_only y x' deleted -> frees_only x x' deleted.
Proof. intros Ht Hs (Hs1 & Hd1 & Hf1 & Hu1). unfold frees_only. by rewrite <- Ht, <- Hs. Qed.

Lemma DeleteObject_frees_only (x : XRefTable) (j : Z) (deleted : list Z) :
  j ∈ deleted -> frees_only x (DeleteObject j x) deleted.
Proof.
  intros Hj. split; [|split; [|split]].
  - rewrite (DeleteObject_frame x j). by destruct x.
  - intros k. unfold DeleteObject.
    destruct (Table x !! 0) as [head|] eqn:Hhead; [|done].
    destruct (Table x !! j) as [entry|] eqn:Hentry; [|done].
    destruct (Free head && negb (Free entry)); [|done]. simpl.
    destruct (decide (k = 0)) as [->|H0]; [rewrite lookup_insert_eq, Hhead; done|].
    rewrite lookup_insert_ne by done.
    destruct (decide (k = j)) as [->|Hkj]; [rewrite lookup_insert_eq, Hentry; done|].
    by rewrite lookup_insert_ne.
  - intros k e Hk Hf. unfold DeleteObject.
    destruct (Table x !! 0) as [head|] eqn:Hhead; [|by exists e].
    destruct (Table x !! j) as [entry|] eqn:Hentry; [|by exists e].
    destruct (Free head) eqn:Hfh; simpl; [|by exists e].
    destruct (Free entry) eqn:Hfe; simpl; [by exists e|].
    destruct (decide (k = 0)) as [->|H0]; [rewrite lookup_insert_eq; by eexists|].
    rewrite lookup_insert_ne by done.
    destruct (decide (k = j)) as [->|Hkj]; [rewrite lookup_insert_eq; by eexists|].
    rewrite lookup_insert_ne by done. by exists e.
  - intros k e Hk Hf Hnotin. apply DeleteObject_lookup_other; [done|done|].
    intros ->. contradiction.
Qed.

Lemma IsLinearizationObject_insert (x : XRefTable) (i k : Z) :
  IsLinearizationObject (with_LinearizationObjs x (<[i := true]> (LinearizationObjs x))) k
  = bool_decide (k = i) || IsLinearizationObject x k.
Proof.
  unfold IsLinearizationObject, intset_get. simpl.
  destruct (decide (k = i)) as [->|Hne].
  - rewrite lookup_insert_eq. by rewrite bool_decide_eq_true_2.
  - rewrite lookup_insert_ne by done. by rewrite bool_decide_eq_false_2.
Qed.

Lemma markHintTable_Size (ctx ctx' : Context) (i : Z) (entry : XRefTableEntry) :
  markHintTable ctx i entry = Some ctx' ->
  Size (ctx_XRefTable ctx') = Size (ctx_XRefTable ctx) /\
  OffsetPrimaryHintTable (ctx_XRefTable ctx') = OffsetPrimaryHintTable (ctx_XRefTable ctx) /\
  OffsetOverflowHintTable (ctx_XRefTable ctx') = OffsetOverflowHintTable (ctx_XRefTable ctx) /\
  (forall k, IsLinearizationObject (ctx_XRefTable ctx) k = true ->
             IsLinearizationObject (ctx_XRefTable ctx') k = true).
Proof.
  unfold markHintTable. intros Hm.
  destruct (Read ctx) as [r|] eqn:Hr; simpl in Hm; [|done].
  destruct (Linearized r); [|by injection Hm as <-].
  destruct (Offset entry) as [off|]; [|by injection Hm as <-].
  destruct (entry_Object entry); try by injection Hm as <-.
  destruct (OffsetPrimaryHintTable (ctx_XRefTable ctx)) as [primary|] eqn:Hp;
    simpl in Hm; [|done].
  injection Hm as <-. simpl.
  destruct (off =? primary); simpl;
    destruct (OffsetOverflowHintTable (ctx_XRefTable ctx)) as [overflow|] eqn:Hov; simpl;
    rewrite ?Hov; try destruct (off =? overflow); simpl; rewrite ?Hp, ?Hov;
    repeat split; try done; intros k Hk;
    rewrite ?IsLinearizationObject_insert, ?Hk, ?orb_true_r; done.
Qed.

Lemma markHintTable_marks (ctx ctx' : Context) (i : Z) (entry : XRefTableEntry)
    (r : ReadContext) :
  markHintTable ctx i entry = Some ctx' -> Read ctx = Some r ->
  hint_table ctx r entry = true ->
  IsLinearizationObject (ctx_XRefTable ctx') i = true.
Proof.
  unfold markHintTable, hint_table. intros Hm Hr Hhint. rewrite Hr in Hm. simpl in Hm.
  destruct (Linearized r); [|done]. simpl in Hhint.
  destruct (Offset entry) as [off|]; [|done].
  destruct (entry_Object entry); try done.
  destruct (OffsetPrimaryHintTable (ctx_XRefTable ctx)) as [primary|] eqn:Hp;
    simpl in Hm; [|done].
  injection Hm as <-. simpl.
  destruct (off =? primary) eqn:Hop; simpl.
  - destruct (OffsetOverflowHintTable (ctx_XRefTable ctx)) as [overflow|]; simpl;
      [destruct (off =? overflow)|]; simpl;
      rewrite ?IsLinearizationObject_insert, ?bool_decide_eq_true_2 by done; done.
  - apply Z.eqb_neq in Hop.
    rewrite bool_decide_eq_false_2 in Hhint by congruence. simpl in Hhint.
    apply bool_decide_eq_true in Hhint. rewrite Hhint. simpl.
    rewrite Z.eqb_refl. simpl.
    by rewrite IsLinearizationObject_insert, bool_decide_eq_true_2.
Qed.

Lemma deleteRedundantObject_cases (st st' : Context * list Z) (j : Z) :
  deleteRedundantObject st j = Some st' ->
  st' = st \/
  (fst st' = with_XRefTable (fst st) (DeleteObject j (ctx_XRefTable (fst st))) /\
   exists calls, snd st' = snd st ++ j :: calls /\ forall k, k ∈ calls -> k = j).
Proof.
  destruct st as [ctx log]. unfold deleteRedundantObject; simpl. intros Hd.
  apply bind_Some in Hd as (c1 & Hc1 & Hd).
  apply bind_Some in Hd as (c2 & Hc2 & Hd).
  injection Hd as <-. clear Hc1 Hc2.
  destruct c1, c2; simpl; rewrite ?DeleteObject_idempotent; [right|right|right|by left].
  - split; [done|]. exists [j]. split; [by rewrite <- app_assoc|].
    intros k Hk. apply elem_of_cons in Hk as [->|Hk]; [done|by apply elem_of_nil in Hk].
  - split; [done|]. exists []. split; [done|]. intros k Hk. by apply elem_of_nil in Hk.
  - split; [done|]. exists []. split; [done|]. intros k Hk. by apply elem_of_nil in Hk.
Qed.

(** The body of the loop: what it deletes, and what it leaves alone. *)
Lemma deleteRedundantObjects_body_deletes (st st' : Context * list Z) (j : Z) :
  deleteRedundantObjects_body st j = Some st' ->
  Write (fst st') = Write (fst st) /\ Read (fst st') = Read (fst st) /\
  (is_Some (Optimize (fst st)) -> is_Some (Optimize (fst st'))) /\
  exists calls,
    snd st' = snd st ++ calls /\
    frees_only (ctx_XRefTable (fst st)) (ctx_XRefTable (fst st')) calls /\
    forall k, k ∈ calls ->
      k = j /\ HasWriteOffset (Write (fst st)) j = false /\
      exists e, Table (ctx_XRefTable (fst st)) !! j = Some e /\ Free e = false.
Proof.
  destruct st as [ctx log]. unfold deleteRedundantObjects_body, Find. simpl. intros Hb.
  assert (forall st0 : Context * list Z,
            Some (ctx, log) = Some st0 ->
            Write (fst st0) = Write ctx /\ Read (fst st0) = Read ctx /\
            (is_Some (Optimize ctx) -> is_Some (Optimize (fst st0))) /\
            exists calls, snd st0 = log ++ calls /\
              frees_only (ctx_XRefTable ctx) (ctx_XRefTable (fst st0)) calls /\
              forall k, k ∈ calls ->
                k = j /\ HasWriteOffset (Write ctx) j = false /\
                exists e, Table (ctx_XRefTable ctx) !! j = Some e /\ Free e = false)
    as Hsame.
  { intros st0 [= <-]. simpl. repeat split; try done. exists [].
    split; [by rewrite app_nil_r|]. split; [apply frees_only_refl|].
    intros k Hk. by apply elem_of_nil in Hk. }
  destruct (Table (ctx_XRefTable ctx) !! j) as [entry|] eqn:Hentry; [|by apply Hsame].
  destruct (Free entry) eqn:Hfree; [by apply Hsame|].
  destruct (HasWriteOffset (Write ctx) j) eqn:Hw.
  - destruct (Optimize ctx) as [o|]; simpl in Hb; [|done]. injection Hb as <-. simpl.
    repeat split; try done. exists [].
    split; [by rewrite app_nil_r|]. split; [apply frees_only_refl|].
    intros k Hk. by apply elem_of_nil in Hk.
  - destruct (markHintTable ctx j entry) as [ctx1|] eqn:Hmark; simpl in Hb; [|done].
    destruct (markHintTable_frame _ _ _ _ Hmark) as (Ht1 & Hw1 & Ho1 & Hr1).
    destruct (markHintTable_Size _ _ _ _ Hmark) as (Hs1 & _).
    destruct (deleteRedundantObject_cases _ _ _ Hb) as [->|[Hctx (calls & Hlog & Hcalls)]];
      simpl in *.
    + repeat split; try done; try congruence. exists [].
      split; [by rewrite app_nil_r|]. split.
      * apply (frees_only_ext _ ctx1.(ctx_XRefTable)); [done|done|apply frees_only_refl].
      * intros k Hk. by apply elem_of_nil in Hk.
    + rewrite Hctx. simpl. repeat split; try done; try congruence.
      exists (j :: calls). split; [done|]. split.
      * apply (frees_only_ext _ ctx1.(ctx_XRefTable)); [done|done|].
        apply DeleteObject_frees_only. by left.
      * intros k Hk. split; [|split; [done|by exists entry]].
        apply elem_of_cons in Hk as [->|Hk]; [done|by apply Hcalls].
Qed.

Lemma deleteRedundantObjects_loop_deletes (objNrs : list Z) :
  forall st st',
    deleteRedundantObjects_loop st objNrs = Some st' ->
    Write (fst st') = Write (fst st) /\ Read (fst st') = Read (fst st) /\
    (is_Some (Optimize (fst st)) -> is_Some (Optimize (fst st'))) /\
    exists calls,
      snd st' = snd st ++ calls /\
      frees_only (ctx_XRefTable (fst st)) (ctx_XRefTable (fst st')) calls /\
      forall k, k ∈ calls ->
        k ∈ objNrs /\ HasWriteOffset (Write (fst st)) k = false /\
        exists e, Table (ctx_XRefTable (fst st)) !! k = Some e /\ Free e = false.
Proof.
  induction objNrs as [|j rest IH]; intros st st' Hloop; simpl in Hloop.
  - injection Hloop as <-. repeat split; try done. exists [].
    split; [by rewrite app_nil_r|]. split; [apply frees_only_refl|].
    intros k Hk. by apply elem_of_nil in Hk.
  - destruct (deleteRedundantObjects_body st j) as [st1|] eqn:Hbody; simpl in Hloop; [|done].
    destruct (deleteRedundantObjects_body_deletes _ _ _ Hbody)
      as (Hw1 & Hr1 & Ho1 & calls1 & Hlog1 & Hfree1 & Hcalls1).
    destruct (IH _ _ Hloop) as (Hw2 & Hr2 & Ho2 & calls2 & Hlog2 & Hfree2 & Hcalls2).
    split; [congruence|]. split; [congruence|]. split; [auto|].
    exists (calls1 ++ calls2). split; [by rewrite Hlog2, Hlog1, <- app_assoc|].
    split; [by eapply frees_only_trans|].
    intros k Hk. apply elem_of_app in Hk as [Hk|Hk].
    + destruct (Hcalls1 k Hk) as (-> & Hnw & e & He & Hfe).
      split; [by left|]. split; [done|]. by exists e.
    + destruct (Hcalls2 k Hk) as (Hin & Hnw & e & He & Hfe).
      split; [by right|]. split; [congruence|].
      destruct Hfree1 as (_ & Hdom & Hstay & _).
      destruct (Table (ctx_XRefTable (fst st)) !! k) as [e0|] eqn:He0.
      * exists e0. split; [done|]. destruct (Free e0) eqn:Hf0; [|done].
        destruct (Hstay k e0 He0 Hf0) as (e' & He' & Hfe'). congruence.
      * apply Hdom in He0. congruence.
Qed.

(** X9. [deleteRedundantObjects] passes to [DeleteObject] only object
    numbers below [Size] whose entry was in use and that have no write
    offset.  It leaves the write and read contexts, the size and the object
    numbers of the table alone; a free entry stays free, and the entry of an
    object in use stays as it is unless the object was passed to
    [DeleteObject]. *)
Theorem deleteRedundantObjects_deletes_only_unwritten (ctx ctx' : Context) (log : list Z) :
  deleteRedundantObjects ctx = Some (ctx', log) ->
  Write ctx' = Write ctx /\ Read ctx' = Read ctx /\
  frees_only (ctx_XRefTable ctx) (ctx_XRefTable ctx') log /\
  forall i, i ∈ log ->
    (exists size, Size (ctx_XRefTable ctx) = Some size /\ 0 <= i < size) /\
    HasWriteOffset (Write ctx) i = false /\
    exists entry, Find (ctx_XRefTable ctx) i = Some entry /\ Free entry = false.
Proof.
  unfold deleteRedundantObjects. intros Hrun.
  destruct (Optimize ctx) as [o|].
  2: { injection Hrun as <- <-. split; [done|]. split; [done|].
       split; [apply frees_only_refl|]. intros i Hi. by apply elem_of_nil in Hi. }
  destruct (Size (ctx_XRefTable ctx)) as [size|] eqn:Hsize; simpl in Hrun; [|done].
  destruct (deleteRedundantObjects_loop_deletes _ _ _ Hrun)
    as (Hw & Hr & _ & calls & Hlog & Hfree & Hcalls).
  simpl in *. subst calls. split; [done|]. split; [done|]. split; [done|].
  intros i Hi. destruct (Hcalls i Hi) as (Hin & Hnw & He).
  apply elem_of_seqZ in Hin. split; [exists size; split; [done|lia]|]. by split.
Qed.

Lemma deleteRedundantObjects_deletes_only_unwritten_witness :
  exists ctx',
    deleteRedundantObjects Sample.written_doc = Some (ctx', [5]) /\
    Write ctx' = Write Sample.written_doc /\
    frees_only (ctx_XRefTable Sample.written_doc) (ctx_XRefTable ctx') [5] /\
    HasWriteOffset (Write Sample.written_doc) 5 = false.
Proof.
  assert (snd <$> deleteRedundantObjects Sample.written_doc = Some [5]) as Hlog
    by (vm_compute; reflexivity).
  destruct (deleteRedundantObjects Sample.written_doc) as [[ctx' log]|] eqn:Hrun;
    [|discriminate Hlog].
  simpl in Hlog. injection Hlog as ->.
  destruct (deleteRedundantObjects_deletes_only_unwritten _ _ _ Hrun)
    as (Hw & _ & Hfree & Hall).
  exists ctx'. split; [reflexivity|]. split; [exact Hw|]. split; [exact Hfree|].
  apply (Hall 5). by left.
Defined.

Lemma deleteRedundantObjects_loop_app (l1 l2 : list Z) :
  forall st, deleteRedundantObjects_loop st (l1 ++ l2)
             = st1 ← deleteRedundantObjects_loop st l1; deleteRedundantObjects_loop st1 l2.
Proof.
  induction l1 as [|j l1 IH]; intros st; simpl; [done|].
  destruct (deleteRedundantObjects_body st j) as [st1|]; simpl; [apply IH|done].
Qed.

Lemma redundant_mono (ctx ctx' : Context) (o o' : OptimizationContext) (r : ReadContext)
    (i : Z) :
  Write ctx' = Write ctx ->
  IsDuplicateFontObject o' i = IsDuplicateFontObject o i ->
  IsDuplicateImageObject o' i = IsDuplicateImageObject o i ->
  IsDuplicateInfoObject o' i = IsDuplicateInfoObject o i ->
  (IsLinearizationObject (ctx_XRefTable ctx) i = true ->
   IsLinearizationObject (ctx_XRefTable ctx') i = true) ->
  redundant ctx o r i = true -> redundant ctx' o' r i = true.
Proof.
  unfold redundant. intros -> -> -> -> Hlin Hred.
  destruct (IsLinearizationObject (ctx_XRefTable ctx) i) eqn:Hl.
  - rewrite (Hlin eq_refl). by rewrite orb_true_r.
  - rewrite orb_false_r in Hred.
    destruct (IsLinearizationObject (ctx_XRefTable ctx') i); [by rewrite orb_true_r|].
    by rewrite orb_false_r.
Qed.

Lemma hint_table_ext (ctx ctx' : Context) (r : ReadContext) (entry : XRefTableEntry) :
  OffsetPrimaryHintTable (ctx_XRefTable ctx') = OffsetPrimaryHintTable (ctx_XRefTable ctx) ->
  OffsetOverflowHintTable (ctx_XRefTable ctx') = OffsetOverflowHintTable (ctx_XRefTable ctx) ->
  hint_table ctx' r entry = hint_table ctx r entry.
Proof. unfold hint_table. by intros -> ->. Qed.

Lemma DeleteObject_fields (x : XRefTable) (j : Z) :
  LinearizationObjs (DeleteObject j x) = LinearizationObjs x /\
  OffsetPrimaryHintTable (DeleteObject j x) = OffsetPrimaryHintTable x /\
  OffsetOverflowHintTable (DeleteObject j x) = OffsetOverflowHintTable x.
Proof. rewrite (DeleteObject_frame x j). by destruct x. Qed.

(** A step of the loop for another object leaves [i] due. *)
Lemma deleteRedundantObjects_body_due (st st' : Context * list Z) (i j : Z)
    (entry : XRefTableEntry) :
  due (fst st) i entry -> Free entry = false -> j <> i ->
  deleteRedundantObjects_body st j = Some st' -> due (fst st') i entry.
Proof.
  destruct st as [ctx log]. simpl.
  intros (o & r & Ho & Hr & Hi & Hdue) Hfree Hne.
  unfold deleteRedundantObjects_body, Find. simpl. intros Hb.
  assert (due ctx i entry) as Hsame by (by exists o, r).
  destruct (Table (ctx_XRefTable ctx) !! j) as [ej|] eqn:Hj; [|by injection Hb as <-].
  destruct (Free ej) eqn:Hfj; [by injection Hb as <-|].
  destruct (HasWriteOffset (Write ctx) j) eqn:Hw.
  - rewrite Ho in Hb. simpl in Hb. injection Hb as <-. simpl.
    eexists _, r. split; [reflexivity|]. split; [done|]. split; [done|].
    destruct Hdue as [Hred|Hhint]; [left|by right].
    eapply redundant_mono; [| | | | |exact Hred]; try done;
      unfold IsDuplicateFontObject, IsDuplicateImageObject, IsDuplicateInfoObject,
        intset_get; simpl; by rewrite lookup_delete_ne.
  - destruct (markHintTable ctx j ej) as [ctx1|] eqn:Hmark; simpl in Hb; [|done].
    destruct (markHintTable_frame _ _ _ _ Hmark) as (Ht1 & Hw1 & Ho1 & Hr1).
    destruct (markHintTable_Size _ _ _ _ Hmark) as (_ & Hp1 & Hov1 & Hlin1).
    assert (due ctx1 i entry) as Hdue1.
    { exists o, r. split; [congruence|]. split; [congruence|]. split; [congruence|].
      destruct Hdue as [Hred|Hhint]; [left|right].
      - eapply redundant_mono; [| | | | |exact Hred]; try done. apply Hlin1.
      - by rewrite (hint_table_ext ctx ctx1). }
    destruct (deleteRedundantObject_cases _ _ _ Hb) as [->|[Hctx _]]; [done|].
    simpl in Hctx. rewrite Hctx.
    destruct Hdue1 as (o1 & r1 & Ho1' & Hr1' & Hi1 & Hdue1).
    destruct (DeleteObject_fields (ctx_XRefTable ctx1) j) as (Hl & Hp & Hov).
    exists o1, r1. split; [done|]. split; [done|]. split.
    + simpl. by apply DeleteObject_lookup_other.
    + destruct Hdue1 as [Hred|Hhint]; [left|right].
      * eapply redundant_mono; [| | | | |exact Hred]; try done.
        unfold IsLinearizationObject. simpl. by rewrite Hl.
      * rewrite <- Hhint. by apply hint_table_ext.
Qed.

Lemma deleteRedundantObjects_loop_due (objNrs : list Z) (i : Z) (entry : XRefTableEntry) :
  Free entry = false -> i ∉ objNrs ->
  forall st st',
    due (fst st) i entry -> deleteRedundantObjects_loop st objNrs = Some st' ->
    due (fst st') i entry.
Proof.
  intros Hfree. induction objNrs as [|j rest IH]; intros Hnotin st st' Hdue Hloop;
    simpl in Hloop.
  - by injection Hloop as <-.
  - apply not_elem_of_cons in Hnotin as [Hne Hnotin].
    destruct (deleteRedundantObjects_body st j) as [st1|] eqn:Hbody; simpl in Hloop; [|done].
    apply (IH Hnotin st1 st'); [|done].
    eapply deleteRedundantObjects_body_due; eauto.
Qed.

(** The step of the loop for an object that is due and was not written. *)
Lemma deleteRedundantObjects_body_at (st st' : Context * list Z) (i : Z)
    (entry : XRefTableEntry) :
  due (fst st) i entry -> Free entry = false -> HasWriteOffset (Write (fst st)) i = false ->
  deleteRedundantObjects_body st i = Some st' ->
  (exists calls, snd st' = snd st ++ i :: calls) /\
  forall head, Table (ctx_XRefTable (fst st)) !! 0 = Some head -> Free head = true ->
    exists e', Table (ctx_XRefTable (fst st')) !! i = Some e' /\ Free e' = true.
Proof.
  destruct st as [ctx log]. simpl.
  intros (o & r & Ho & Hr & Hi & Hdue) Hfree Hnw.
  unfold deleteRedundantObjects_body, Find. simpl. rewrite Hi, Hfree, Hnw.
  destruct (markHintTable ctx i entry) as [ctx1|] eqn:Hmark; simpl; [|done].
  destruct (markHintTable_frame _ _ _ _ Hmark) as (Ht1 & Hw1 & Ho1 & Hr1).
  destruct (markHintTable_Size _ _ _ _ Hmark) as (_ & Hp1 & Hov1 & Hlin1).
  rewrite (deleteRedundantObject_eq (ctx1, log) i o r) by (simpl; congruence).
  simpl. intros [= <-]. simpl.
  assert (redundant ctx1 o r i = true) as Hred.
  { destruct Hdue as [Hred|Hhint].
    - eapply redundant_mono; [| | | | |exact Hred]; try done. apply Hlin1.
    - unfold redundant. rewrite (markHintTable_marks _ _ _ _ _ Hmark Hr Hhint).
      by rewrite !orb_true_r. }
  unfold redundant in Hred.
  set (dedup := (ExtractPageNr (Write ctx1) =? 0)
                && (IsDuplicateFontObject o i || IsDuplicateImageObject o i)) in *.
  set (other := IsLinearizationObject (ctx_XRefTable ctx1) i || IsDuplicateInfoObject o i
                || IsObjectStreamObject r i || IsXRefStreamObject r i) in *.
  assert (dedup || other = true) as Hany.
  { subst other. rewrite <- Hred. by rewrite !orb_assoc. }
  rewrite Hany. split.
  - destruct dedup; simpl; [by eexists|].
    simpl in Hany. rewrite Hany. simpl. by eexists.
  - intros head Hhead Hfh. simpl. rewrite <- Ht1 in Hhead, Hi.
    by eapply DeleteObject_frees.
Qed.

Lemma seqZ_split (size i : Z) :
  0 <= i < size -> seqZ 0 size = seqZ 0 i ++ i :: seqZ (i + 1) (size - i - 1).
Proof.
  intros Hi. replace size with (i + (size - i)) at 1 by lia.
  rewrite seqZ_app by lia. f_equal. rewrite Z.add_0_l.
  rewrite (seqZ_cons i) by lia.
  replace (Z.succ i) with (i + 1) by lia.
  by replace (Z.pred (size - i)) with (size - i - 1) by lia.
Qed.

(** X10. [deleteRedundantObjects] deletes every redundant object: an object
    below [Size] that is in use and was not written is passed to
    [DeleteObject] if it is a duplicate font or image object (and no single
    page is extracted), a linearization object, a duplicate info object, an
    object stream or an xref stream of the input, or a hint table of a
    linearized input; with a free head entry at object 0 its entry is free
    afterwards. *)
Theorem deleteRedundantObjects_deletes_redundant (ctx ctx' : Context) (log : list Z)
    (o : OptimizationContext) (r : ReadContext) (size i : Z) (entry : XRefTableEntry) :
  deleteRedundantObjects ctx = Some (ctx', log) ->
  Optimize ctx = Some o -> Read ctx = Some r ->
  Size (ctx_XRefTable ctx) = Some size -> 0 <= i < size ->
  Find (ctx_XRefTable ctx) i = Some entry -> Free entry = false ->
  HasWriteOffset (Write ctx) i = false ->
  redundant ctx o r i = true \/ hint_table ctx r entry = true ->
  i ∈ log /\
  forall head, Table (ctx_XRefTable ctx) !! 0 = Some head -> Free head = true ->
    exists e', Find (ctx_XRefTable ctx') i = Some e' /\ Free e' = true.
Proof.
  unfold deleteRedundantObjects, Find. intros Hrun Ho Hr Hsize Hi Hentry Hfree Hnw Hdue.
  rewrite Ho, Hsize in Hrun. simpl in Hrun.
  rewrite (seqZ_split size i Hi), deleteRedundantObjects_loop_app in Hrun.
  apply bind_Some in Hrun as (st1 & Hbefore & Hrun). simpl in Hrun.
  destruct (deleteRedundantObjects_body st1 i) as [st2|] eqn:Hbody; simpl in Hrun; [|done].
  destruct (deleteRedundantObjects_loop_deletes _ _ _ Hbefore)
    as (Hw1 & _ & _ & calls1 & _ & Hfree1 & _).
  destruct (deleteRedundantObjects_loop_deletes _ _ _ Hrun)
    as (_ & _ & _ & calls3 & Hlog3 & Hfree3 & _).
  assert (due (fst st1) i entry) as Hdue1.
  { apply (deleteRedundantObjects_loop_due (seqZ 0 i) i entry Hfree) with (st := (ctx, []));
      [|by exists o, r|done].
    intros Hin. apply elem_of_seqZ in Hin. lia. }
  destruct (deleteRedundantObjects_body_at st1 st2 i entry Hdue1 Hfree) as ([calls2 Hlog2] & Hfreed);
    [simpl in Hw1; congruence|done|].
  simpl in Hlog3. split.
  - rewrite Hlog3, Hlog2. apply elem_of_app. left. apply elem_of_app. right. by left.
  - intros head Hhead Hfh. simpl in Hfree1.
    destruct Hfree1 as (_ & _ & Hstay1 & _).
    destruct (Hstay1 0 head Hhead Hfh) as (head1 & Hhead1 & Hfh1).
    destruct (Hfreed head1 Hhead1 Hfh1) as (e2 & He2 & Hfe2).
    destruct Hfree3 as (_ & _ & Hstay3 & _).
    exact (Hstay3 i e2 He2 Hfe2).
Qed.

Lemma deleteRedundantObjects_deletes_redundant_witness :
  exists ctx' log e',
    deleteRedundantObjects Sample.written_doc = Some (ctx', log) /\
    5 ∈ log /\ Find (ctx_XRefTable ctx') 5 = Some e' /\ Free e' = true.
Proof.
  destruct (deleteRedundantObjects Sample.written_doc) as [[ctx' log]|] eqn:Hrun;
    [|vm_compute in Hrun; discriminate Hrun].
  destruct (deleteRedundantObjects_deletes_redundant Sample.written_doc ctx' log
              (with_DuplicateObjs Sample.optimizer {[ 2 := true; 5 := true ]} ∅ ∅)
              Sample.reader 6 5 (Sample.in_use (oDict Sample.helvetica) 130) Hrun)
    as (Hin & Hfreed); try (vm_compute; reflexivity); try lia.
  - left. vm_compute. reflexivity.
  - destruct (Hfreed Sample.free_head) as (e' & He' & Hfe');
      try (vm_compute; reflexivity).
    exists ctx', log, e'. done.
Defined.

(** ** Filling an object stream *)

Lemma bytes_of_app (s t : string) : bytes_of (s +:+ t) = bytes_of s ++ bytes_of t.
Proof.
  unfold bytes_of, list_byte_of_string.
  induction s as [|a s IH]; simpl; [done|]. by rewrite IH.
Qed.

Section ObjectStreamFacts.

Variable PDFString : Object -> string.

Lemma AddObject_packable (os : ObjectStreamDict) (objNumber : Z) (entry : XRefTableEntry) :
  packable (entry_Object entry) ->
  AddObject PDFString os objNumber entry =
    (mkObjectStreamDict
       (set_Content (os_StreamDict os)
          (Content (os_StreamDict os) ++ serialized PDFString (objNumber, entry)))
       (Prolog os
        ++ bytes_of ((if 0 <? ObjCount os then " " else "") +:+ itoa objNumber +:+ " "
                     +:+ itoa (Z.of_nat (length (Content (os_StreamDict os))))))
       (ObjCount os + 1) (FirstObjOffset os) (ObjArray os), None).
Proof.
  unfold packable, AddObject, serialized. simpl. intros Hp.
  destruct (entry_Object entry) eqn:Hobj; simpl in Hp; try reflexivity;
    exfalso; repeat (apply elem_of_cons in Hp as [Hp|Hp]; [discriminate Hp|]);
    by apply elem_of_nil in Hp.
Qed.

Lemma AddObjects_packable (objs : list (Z * XRefTableEntry)) :
  Forall (fun p => packable (entry_Object (snd p))) objs ->
  forall os,
    let r := AddObjects PDFString os objs in
    snd r = None /\
    ObjCount (fst r) = ObjCount os + Z.of_nat (length objs) /\
    Prolog (fst r) =
      Prolog os
      ++ bytes_of (prolog_string (ObjCount os)
                     (prolog_pairs PDFString (length (Content (os_StreamDict os))) objs)) /\
    Content (os_StreamDict (fst r)) =
      Content (os_StreamDict os) ++ concat (serialized PDFString <$> objs) /\
    FirstObjOffset (fst r) = FirstObjOffset os /\ ObjArray (fst r) = ObjArray os /\
    sd_Dict (os_StreamDict (fst r)) = sd_Dict (os_StreamDict os) /\
    FilterPipeline (os_StreamDict (fst r)) = FilterPipeline (os_StreamDict os).
Proof.
  induction 1 as [|[n e] objs Hp Hall IH]; intros os; simpl.
  - rewrite Z.add_0_r, !app_nil_r. done.
  - simpl in Hp. rewrite (AddObject_packable os n e Hp).
    match goal with |- context [AddObjects PDFString ?os1 objs] =>
      destruct (IH os1) as (Herr & Hcount & Hprolog & Hcontent & Hfirst & Harr & Hdict & Hfp)
    end.
    simpl in *. split; [done|]. split; [rewrite Hcount; lia|].
    split; [|split; [|done]].
    + rewrite Hprolog, length_app, <- app_assoc. f_equal.
      rewrite !bytes_of_app, <- !app_assoc. done.
    + rewrite Hcontent, <- app_assoc. done.
Qed.

Lemma prolog_pairs_lookup (objs : list (Z * XRefTableEntry)) :
  forall (offset k : nat) (p : Z * XRefTableEntry),
    objs !! k = Some p ->
    prolog_pairs PDFString offset objs !! k
    = Some (fst p,
            Z.of_nat (offset + length (concat (serialized PDFString <$> take k objs)))).
Proof.
  induction objs as [|q objs IH]; intros offset k p Hk; [done|].
  destruct k as [|k]; simpl in *.
  - injection Hk as ->. by rewrite Nat.add_0_r.
  - rewrite (IH _ _ _ Hk). rewrite length_app. do 3 f_equal.
    exact (eq_sym (Nat.add_assoc _ _ _)).
Qed.

Lemma prolog_pairs_length (objs : list (Z * XRefTableEntry)) :
  forall offset, length (prolog_pairs PDFString offset objs) = length objs.
Proof. induction objs as [|q objs IH]; intros offset; simpl; [done|]. by rewrite IH. Qed.

(** X11. The layout of an object stream: after [AddObject] for a list of
    objects that it serializes (no stream dict, indirect reference or null
    among them) and [Finalize], there was no error, [ObjCount] has grown by
    the number of objects, the prolog lists the pairs of object number and
    offset separated by single spaces, [FirstObjOffset] is the length of the
    prolog, and the serialization of every object is found in the content at
    [FirstObjOffset] plus the offset that the prolog gives for it. *)
Theorem AddObjects_Finalize_layout (os : ObjectStreamDict) (objs : list (Z * XRefTableEntry)) :
  Forall (fun p => packable (entry_Object (snd p))) objs ->
  let pairs := prolog_pairs PDFString (length (Content (os_StreamDict os))) objs in
  let os' := fst (AddObjects PDFString os objs) in
  let final := Finalize os' in
  snd (AddObjects PDFString os objs) = None /\
  ObjCount final = ObjCount os + Z.of_nat (length objs) /\
  Prolog final = Prolog os ++ bytes_of (prolog_string (ObjCount os) pairs) /\
  FirstObjOffset final = Z.of_nat (length (Prolog final)) /\
  Content (os_StreamDict final)
    = Prolog final ++ Content (os_StreamDict os) ++ concat (serialized PDFString <$> objs) /\
  length pairs = length objs /\
  forall (k : nat) (p : Z * XRefTableEntry) (n offset : Z),
    objs !! k = Some p -> pairs !! k = Some (n, offset) ->
    n = fst p /\ 0 <= offset /\
    take (length (serialized PDFString p))
         (drop (Z.to_nat (FirstObjOffset final + offset)) (Content (os_StreamDict final)))
    = serialized PDFString p.
Proof.
  intros Hall pairs os' final.
  destruct (AddObjects_packable objs Hall os)
    as (Herr & Hcount & Hprolog & Hcontent & _).
  fold os' in Hcount, Hprolog, Hcontent.
  split; [done|]. split; [done|]. split; [done|]. split; [done|].
  split; [simpl; by rewrite Hcontent|]. split.
  - apply prolog_pairs_length.
  - intros k p n offset Hk Hpair. subst pairs.
    rewrite (prolog_pairs_lookup objs _ _ _ Hk) in Hpair. injection Hpair as <- <-.
    split; [done|]. split; [lia|].
    simpl. rewrite Hcontent.
    rewrite <- (take_drop_middle objs k p Hk) at 2.
    rewrite fmap_app, concat_app, fmap_cons, concat_cons.
    rewrite <- Nat2Z.inj_add, Nat2Z.id.
    rewrite !app_assoc.
    rewrite <- (app_assoc _ (serialized PDFString p)).
    rewrite drop_app_length'; [by rewrite take_app_length|].
    rewrite !length_app. lia.
Qed.

Lemma AddObject_keeps_dict (os : ObjectStreamDict) (objNumber : Z) (entry : XRefTableEntry) :
  let os' := fst (AddObject PDFString os objNumber entry) in
  sd_Dict (os_StreamDict os') = sd_Dict (os_StreamDict os) /\
  FilterPipeline (os_StreamDict os') = FilterPipeline (os_StreamDict os).
Proof. unfold AddObject. by destruct (entry_Object entry). Qed.

Lemma AddObjects_keeps_dict (objs : list (Z * XRefTableEntry)) :
  forall os,
    let os' := fst (AddObjects PDFString os objs) in
    sd_Dict (os_StreamDict os') = sd_Dict (os_StreamDict os) /\
    FilterPipeline (os_StreamDict os') = FilterPipeline (os_StreamDict os).
Proof.
  induction objs as [|[n e] objs IH]; intros os; simpl; [done|].
  pose proof (AddObject_keeps_dict os n e) as [Hd Hf].
  destruct (AddObject PDFString os n e) as [os1 [err|]]; simpl in *; [done|].
  destruct (IH os1) as [Hd1 Hf1]. split; congruence.
Qed.

(** X12. The filter of the stream dicts that the package builds: an object
    stream dict, whatever is added to it and after [Finalize], and a new
    xref stream dict have the Flate filter as their sole filter, and their
    [Filter] entry names the same filter as the filter pipeline;
    [HasSoleFilterNamed] holds exactly for a pipeline of one filter of the
    given name. *)
Theorem stream_dicts_sole_filter :
  (forall objs,
     let final := Finalize (fst (AddObjects PDFString NewObjectStreamDict objs)) in
     HasSoleFilterNamed (os_StreamDict final) filter_Flate = true /\
     NameEntry (sd_Dict (os_StreamDict final)) "Filter" = Some filter_Flate /\
     Dict_Type (sd_Dict (os_StreamDict final)) = Some "ObjStm") /\
  (forall ctx xsd, NewXRefStreamDict ctx = Some xsd ->
     HasSoleFilterNamed (xs_StreamDict xsd) filter_Flate = true /\
     NameEntry (sd_Dict (xs_StreamDict xsd)) "Filter" = Some filter_Flate /\
     Dict_Type (sd_Dict (xs_StreamDict xsd)) = Some "XRef") /\
  (forall sd name,
     HasSoleFilterNamed sd name = true <->
     exists f, FilterPipeline sd = [f] /\ filter_Name f = name).
Proof.
  split; [|split].
  - intros objs final.
    destruct (AddObjects_keeps_dict objs NewObjectStreamDict) as [Hd Hf].
    subst final. unfold HasSoleFilterNamed, Dict_Type. simpl. rewrite Hd, Hf.
    repeat split; vm_compute; reflexivity.
  - intros ctx xsd. unfold NewXRefStreamDict. intros Hxsd.
    destruct (Root (ctx_XRefTable ctx)) as [root|]; simpl in Hxsd; [|done].
    injection Hxsd as <-. unfold HasSoleFilterNamed, Dict_Type.
    destruct (Info (ctx_XRefTable ctx)), (ID (ctx_XRefTable ctx)),
      (Encrypt (ctx_XRefTable ctx)), (EncKey (ctx_XRefTable ctx));
      repeat split; vm_compute; reflexivity.
  - intros sd name. unfold HasSoleFilterNamed.
    destruct (FilterPipeline sd) as [|f [|g rest]]; split.
    + done.
    + by intros (f & Hf & _).
    + intros Heq. apply String.eqb_eq in Heq. by exists f.
    + intros (f' & [= <-] & <-). apply String.eqb_refl.
    + done.
    + by intros (f' & Hf & _).
Qed.

End ObjectStreamFacts.

Lemma AddObjects_Finalize_layout_witness :
  let objs := [(4, Sample.in_use (oName "A") 0); (9, Sample.in_use (oInteger 42) 0)] in
  let final := Finalize (fst (AddObjects Cases.variant_name NewObjectStreamDict objs)) in
  Prolog final = bytes_of "4 0 9 2" /\
  FirstObjOffset final = 7 /\
  Content (os_StreamDict final) = bytes_of "4 0 9 2/A42" /\
  take 2 (drop (Z.to_nat (FirstObjOffset final + 2)) (Content (os_StreamDict final)))
    = bytes_of "42".
Proof.
  intros objs final.
  destruct (AddObjects_Finalize_layout Cases.variant_name NewObjectStreamDict objs)
    as (_ & _ & Hprolog & Hfirst & Hcontent & _ & Hlocate).
  - repeat constructor; vm_compute; auto 10 using elem_of_list_here, elem_of_list_further.
  - fold final in Hprolog, Hfirst, Hcontent, Hlocate.
    split; [rewrite Hprolog; vm_compute; reflexivity|].
    split; [rewrite Hfirst, Hprolog; vm_compute; reflexivity|].
    split; [rewrite Hcontent, Hprolog; vm_compute; reflexivity|].
    destruct (Hlocate 1%nat (9, Sample.in_use (oInteger 42) 0) 9 2 eq_refl eq_refl)
      as (_ & _ & Hfound).
    exact Hfound.
Defined.

Lemma stream_dicts_sole_filter_witness :
  HasSoleFilterNamed (mkStreamDict ∅ 0 None None [mkPDFFilter "DCTDecode" None] [] [] false)
    "DCTDecode" = true.
Proof.
  destruct (stream_dicts_sole_filter Cases.variant_name) as (_ & _ & Hsole).
  apply Hsole. by eexists.
Defined.

(** ** Encryption *)

Section EncryptionFacts.

Context `{Collaborators}.
Variable PDFString : Object -> string.
Variable writeObject : Context -> Z -> Z -> string -> Context * option error.

(** X13. In the mode DECRYPT [handleEncryption] only clears [EncKey]: it
    returns no error for any context and calls no collaborator; afterwards
    [writeEncryptDict] writes nothing, and neither the trailer dict nor the
    dict of the xref stream has an [Encrypt] entry, although [ctx.Encrypt]
    still refers to the encryption dict of the input. *)
Theorem handleEncryption_decrypt (ctx : Context) :
  Mode (ctx_Configuration ctx) = DECRYPT ->
  let ctx' := with_XRefTable ctx (with_EncKey (ctx_XRefTable ctx) None) in
  handleEncryption ctx = Some (ctx', None) /\
  Encrypt (ctx_XRefTable ctx') = Encrypt (ctx_XRefTable ctx) /\
  writeEncryptDict PDFString writeObject ctx' = Some (ctx', None) /\
  (forall dict, trailerDict ctx' = Some dict -> dict !! "Encrypt" = None) /\
  (forall xsd, NewXRefStreamDict ctx' = Some xsd ->
     sd_Dict (xs_StreamDict xsd) !! "Encrypt" = None).
Proof.
  intros Hmode ctx'. split; [|split; [done|split; [|split]]].
  - unfold handleEncryption. rewrite Hmode.
    destruct (decide (DECRYPT = ENCRYPT \/ DECRYPT = DECRYPT)) as [_|Hn]; [|by destruct Hn; right].
    destruct (decide (DECRYPT = DECRYPT)) as [_|Hn]; [|done].
    simpl. unfold forceClassicalXRef. simpl.
    by destruct (Encrypt (ctx_XRefTable ctx)).
  - unfold writeEncryptDict. simpl. by destruct (Encrypt (ctx_XRefTable ctx)).
  - intros dict. unfold trailerDict. simpl.
    destruct (Size (ctx_XRefTable ctx)) as [size|]; simpl; [|done].
    destruct (Root (ctx_XRefTable ctx)) as [root|]; simpl; [|done].
    intros [= <-].
    destruct (Info (ctx_XRefTable ctx)), (ID (ctx_XRefTable ctx)),
      (Encrypt (ctx_XRefTable ctx)); vm_compute; reflexivity.
  - intros xsd. unfold NewXRefStreamDict. simpl.
    destruct (Root (ctx_XRefTable ctx)) as [root|]; simpl; [|done].
    intros [= <-]. simpl.
    destruct (Info (ctx_XRefTable ctx)), (ID (ctx_XRefTable ctx)),
      (Encrypt (ctx_XRefTable ctx)); vm_compute; reflexivity.
Qed.



End EncryptionFacts.

Lemma handleEncryption_decrypt_witness :
  let ctx := with_Configuration Sample.encrypted_doc (Sample.configuration DECRYPT) in
  exists ctx',
    handleEncryption ctx = Some (ctx', None) /\
    EncKey (ctx_XRefTable ctx) = Some [] /\
    EncKey (ctx_XRefTable ctx') = None /\
    Encrypt (ctx_XRefTable ctx') = Some (mkIndirectRef 2 0).
Proof.
  intros ctx.
  destruct (handleEncryption_decrypt Cases.variant_name (fun c _ _ _ => (c, None)) ctx eq_refl)
    as (Hrun & Henc & _).
  eexists. split; [exact Hrun|]. split; [reflexivity|]. split; reflexivity.
Defined.


(** ** The font registry *)

Section FontFacts.

Context `{Collaborators}.










End FontFacts.



(** ** The probe for a duplicate image *)

Section ImageFacts.

Context `{Collaborators}.

Lemma handleDuplicateImageObject_loop_effects (x : XRefTable) (image : StreamDict)
    (resourceName : string) (objNr pageNumber : Z) (o o' : OptimizationContext)
    (order : list Z) (r : outcome (option Z)) :
  handleDuplicateImageObject_loop x image resourceName objNr pageNumber o order
    = Some (o', r) ->
  match r with
  | Done (Some canon) =>
      exists im pages,
        canon ∈ order /\
        ImageObjects o !! canon = Some im /\
        page_set_add (PageImages o) pageNumber canon = Some pages /\
        o' = with_DuplicateImages
               (with_ImageObjects (with_PageImages o pages)
                  (<[canon := mkImageObject
                                (AddResourceName (image_ResourceNames im) resourceName)
                                (ImageDict im)]> (ImageObjects o)))
               (<[objNr := image]> (DuplicateImages o))
  | Done None => o' = o /\ Forall (image_differs o image x) order
  | Failed err =>
      o' = o /\
      exists before m after im,
        order = before ++ m :: after /\
        Forall (image_differs o image x) before /\
        ImageObjects o !! m = Some im /\
        snd (equalStreamDicts (ImageDict im) image x) = Some err
  end.
Proof.
  induction order as [|m rest IH]; simpl.
  { intros [= <- <-]. by split. }
  destruct (ImageObjects o !! m) as [im|] eqn:Him.
  - destruct (equalStreamDicts (ImageDict im) image x) as [[|] [err|]] eqn:Heq.
    + intros [= <- <-]. split; [done|]. exists [], m, rest, im. by rewrite Heq.
    + intros Hrun. apply bind_Some in Hrun as (pages & Hpages & Hrun).
      apply bind_Some in Hrun as (len & _ & Hrun). injection Hrun as <- <-.
      exists im, pages. split; [left|done].
    + intros [= <- <-]. split; [done|]. exists [], m, rest, im. by rewrite Heq.
    + intros Hrun. specialize (IH Hrun).
      assert (image_differs o image x m) as Hm by (unfold image_differs; by rewrite Him).
      destruct r as [[canon|]|err].
      * destruct IH as (im' & pages & Hin & Hrest). exists im', pages. split; [by right|done].
      * destruct IH as [-> Hall]. split; [done|]. by constructor.
      * destruct IH as [-> (before & m' & after & im' & -> & Hall & Hrest)]. split; [done|].
        exists (m :: before), m', after, im'. split; [done|]. split; [by constructor|done].
  - intros Hrun. specialize (IH Hrun).
    assert (image_differs o image x m) as Hm by (unfold image_differs; by rewrite Him).
    destruct r as [[canon|]|err].
    + destruct IH as (im' & pages & Hin & Hrest). exists im', pages. split; [by right|done].
    + destruct IH as [-> Hall]. split; [done|]. by constructor.
    + destruct IH as [-> (before & m' & after & im' & -> & Hall & Hrest)]. split; [done|].
      exists (m :: before), m', after, im'. split; [done|]. split; [by constructor|done].
Qed.

(** X17. What [handleDuplicateImageObject] changes.  It never touches the
    xref table, the configuration or the read and write contexts.  When it
    reports no duplicate, the optimizer context is as before and every
    registered image of the visiting order was compared and found different;
    when it returns an error, the optimizer context is as before and the
    error is the one [equalStreamDicts] gave for the first registered image
    that was not found different.  When it reports the duplicate [canon],
    then [canon] is a registered image of the visiting order and exactly
    this changed: [canon] is in the page's image set, it has the resource
    name added and the image dict it had, and [DuplicateImages] has the
    probed image under [objNr]. *)
Theorem handleDuplicateImageObject_effects (order : list Z) (ctx ctx' : Context)
    (image : StreamDict) (resourceName : string) (objNr pageNumber : Z)
    (o : OptimizationContext) (r : outcome (option Z)) :
  Optimize ctx = Some o ->
  handleDuplicateImageObject order ctx image resourceName objNr pageNumber = Some (ctx', r) ->
  (ctx_XRefTable ctx' = ctx_XRefTable ctx /\ ctx_Configuration ctx' = ctx_Configuration ctx /\
   Read ctx' = Read ctx /\ Write ctx' = Write ctx) /\
  match r with
  | Done (Some canon) =>
      exists im pages,
        canon ∈ order /\
        ImageObjects o !! canon = Some im /\
        page_set_add (PageImages o) pageNumber canon = Some pages /\
        Optimize ctx' =
          Some (with_DuplicateImages
                  (with_ImageObjects (with_PageImages o pages)
                     (<[canon := mkImageObject
                                   (AddResourceName (image_ResourceNames im) resourceName)
                                   (ImageDict im)]> (ImageObjects o)))
                  (<[objNr := image]> (DuplicateImages o)))
  | Done None =>
      Optimize ctx' = Some o /\
      Forall (image_differs o image (ctx_XRefTable ctx)) order
  | Failed err =>
      Optimize ctx' = Some o /\
      exists before m after im,
        order = before ++ m :: after /\
        Forall (image_differs o image (ctx_XRefTable ctx)) before /\
        ImageObjects o !! m = Some im /\
        snd (equalStreamDicts (ImageDict im) image (ctx_XRefTable ctx)) = Some err
  end.
Proof.
  intros Ho Hrun. unfold handleDuplicateImageObject in Hrun.
  rewrite Ho in Hrun. simpl in Hrun.
  apply bind_Some in Hrun as (page & _ & Hrun).
  apply bind_Some in Hrun as ([o1 r1] & Hloop & Hrun).
  injection Hrun as <- <-. split; [done|].
  apply handleDuplicateImageObject_loop_effects in Hloop.
  destruct r1 as [[canon|]|err]; simpl.
  - destruct Hloop as (im & pages & Hin & Him & Hpages & ->). by exists im, pages.
  - by destruct Hloop as [-> Hall].
  - by destruct Hloop as [-> Hrest].
Qed.

End ImageFacts.

Lemma handleDuplicateImageObject_effects_witness :
  exists ctx',
    handleDuplicateImageObject [2; 3; 7] Ties.images_doc (Sample.image [Byte.x07]) "Im9" 9 0
      = Some (ctx', Done None) /\
    Optimize ctx' = Some Ties.images_optimizer /\
    Forall (image_differs Ties.images_optimizer (Sample.image [Byte.x07])
              (ctx_XRefTable Ties.images_doc)) [2; 3; 7].
Proof.
  assert (snd <$> handleDuplicateImageObject [2; 3; 7] Ties.images_doc
                    (Sample.image [Byte.x07]) "Im9" 9 0 = Some (Done None)) as Hr
    by (vm_compute; reflexivity).
  destruct (handleDuplicateImageObject [2; 3; 7] Ties.images_doc
              (Sample.image [Byte.x07]) "Im9" 9 0) as [[ctx' r]|] eqn:Hrun; [|discriminate Hr].
  simpl in Hr. injection Hr as ->.
  destruct (handleDuplicateImageObject_effects [2; 3; 7] Ties.images_doc ctx'
              (Sample.image [Byte.x07]) "Im9" 9 0 Ties.images_optimizer (Done None)
              eq_refl Hrun) as (_ & Ho' & Hall).
  by exists ctx'.
Defined.
